(** * Bounding-box annotation editor (auto-label): snapping, gestures, history

    A shallow embedding of the two [Canvas] components of the repository:

    - [Canvas]       : the history-enabled editor (undo/redo stacks,
                       configurable snap distance), source [src/unnamed/part_001];
    - [LegacyCanvas] : the earlier editor with the MagicBox hand-over and the
                       5-pixel resize clamp, second document of
                       [src/components/ModelManagerModal.tsx].

    How the code is read:

    - JavaScript numbers are rationals ([Q]): exact arithmetic, no [NaN], no
      infinities; comparisons of lists of numbers by value use [==].
    - A JavaScript array is an address with its contents.  The history logic
      compares annotation lists with [!==], that is by address; arrays are
      never written after they are built, and every [.map] or spread takes
      the next free address of the world.
    - A handler is a function from the props and the hooks' values to the new
      hooks' values and the list of calls it makes to the host.  The host
      applies the calls to the props; the component re-renders; the history
      [useEffect] runs when [image.id] or [image.annotations] changed.  State
      updaters ([prev => [...prev, x]]) are applied where they are issued, so
      a ref read inside an updater has the value it has at that point.
    - [services/yoloService] is not among the sources; its two conversions
      are modelled from section 4.1 of the specification. *)

From Stdlib Require Import QArith Qabs Qminmax Lqa Lia.
From Stdlib Require Import Bool String Arith List Permutation.
Import ListNotations.

Local Open Scope Q_scope.

(** ** Numbers *)

(** JavaScript [a < b] on numbers. *)
Definition Qltb (a b : Q) : bool := negb (Qle_bool b a).

(** [Math.abs(val - line)]. *)
Definition dist (v c : Q) : Q := Qabs (v - c).

(** ** Data model ([types.ts]) *)

Module BBox.
Record t : Type := mk
  { id : string; labelId : string; x : Q; y : Q; w : Q; h : Q }.
End BBox.

Module Rect.
Record t : Type := mk { x : Q; y : Q; w : Q; h : Q }.
End Rect.

Inductive ToolMode : Type := SELECT | DRAW | PAN | MAGIC_BOX.

Inductive ResizeHandleType : Type := tl | tr | bl | br.

Definition ToolMode_eqb (a b : ToolMode) : bool :=
  match a, b with
  | SELECT, SELECT | DRAW, DRAW | PAN, PAN | MAGIC_BOX, MAGIC_BOX => true
  | _, _ => false
  end.

(** ** Coordinate transform ([services/yoloService]) *)

Module YoloService.

(** Modelled from the spec: [yoloToSvg] of [services/yoloService] is not in
    the sources; section 4.1 gives [normalizedToPixel] as
    [w = box.w * W], [h = box.h * H], [x = box.x * W - w/2],
    [y = box.y * H - h/2]. *)
Definition yoloToSvg (box : BBox.t) (W H : Q) : Rect.t :=
  let w := BBox.w box * W in
  let h := BBox.h box * H in
  Rect.mk (BBox.x box * W - w / 2) (BBox.y box * H - h / 2) w h.

(** The normalised geometry produced by [svgToYolo]; the caller spreads it
    over an annotation ([{ ...a, ...newYolo }]). *)
Record Yolo : Type := mkYolo { x : Q; y : Q; w : Q; h : Q }.

(** Modelled from the spec: [svgToYolo] of [services/yoloService] is not in
    the sources; section 4.1 gives [pixelToNormalized] as the inverse of
    [normalizedToPixel], producing centre-based normalised coordinates. *)
Definition svgToYolo (px py pw ph W H : Q) : Yolo :=
  mkYolo ((px + pw / 2) / W) ((py + ph / 2) / H) (pw / W) (ph / H).

End YoloService.

Import YoloService.

(** [{ ...a, ...newYolo }] *)
Definition spreadYolo (a : BBox.t) (n : Yolo) : BBox.t :=
  BBox.mk (BBox.id a) (BBox.labelId a)
          (YoloService.x n) (YoloService.y n) (YoloService.w n) (YoloService.h n).

(** ** Snap engine *)

Record SnapResult : Type := mkSnap { val : Q; snapped : bool }.

(** The mutable locals of [getClosestSnap]: [minD], [closest], [snapped]. *)
Record SnapScan : Type := mkScan { minD : Q; closest : Q; found : bool }.

(** Body of [lines.forEach(line => ...)]. *)
Definition snapStep (v : Q) (s : SnapScan) (line : Q) : SnapScan :=
  let d := dist v line in
  if Qltb d (minD s) then mkScan d line true else s.

Definition snapScan (v : Q) (lines : list Q) (threshold : Q) : SnapScan :=
  fold_left (snapStep v) lines (mkScan threshold v false).

(** [getSnapLines]: image bounds first, then the two edges of every
    annotation but the excluded one, in list order. *)
Section SnapLines.
Variables (W H : Q).

Definition excluded (excludeId : option string) (a : BBox.t) : bool :=
  match excludeId with
  | Some i => String.eqb (BBox.id a) i
  | None => false
  end.

Fixpoint pushLines (excludeId : option string) (anns : list BBox.t)
         (xs ys : list Q) : list Q * list Q :=
  match anns with
  | [] => (xs, ys)
  | ann :: rest =>
      if excluded excludeId ann then pushLines excludeId rest xs ys
      else
        let rect := yoloToSvg ann W H in
        pushLines excludeId rest
          (xs ++ [Rect.x rect; Rect.x rect + Rect.w rect])
          (ys ++ [Rect.y rect; Rect.y rect + Rect.h rect])
  end.

Definition getSnapLines (anns : list BBox.t) (excludeId : option string)
  : list Q * list Q :=
  pushLines excludeId anns [0; W] [0; H].
End SnapLines.

(** What the specification asks of a snap query with threshold [t]. *)
Definition first_nearest (v : Q) (lines : list Q) (t c : Q) : Prop :=
  exists i : nat,
    nth_error lines i = Some c /\
    dist v c < t /\
    (forall j cj, nth_error lines j = Some cj -> dist v c <= dist v cj) /\
    (forall j cj, (j < i)%nat -> nth_error lines j = Some cj ->
                  dist v c < dist v cj).

Definition snap_spec (v : Q) (lines : list Q) (t : Q) (r : SnapResult) : Prop :=
  (t <= 0 -> r = mkSnap v false) /\
  (0 < t ->
     (exists c, first_nearest v lines t c /\ r = mkSnap c true) \/
     ((forall c, In c lines -> t <= dist v c) /\ r = mkSnap v false)).

(** [a > b] on numbers. *)
Definition Qgtb (a b : Q) : bool := Qltb b a.

(** ** Shared editor data *)

Module Point.
Record t : Type := mk { x : Q; y : Q }.
End Point.

(** A JavaScript array of annotations: the address gives its identity
    ([===] on arrays), the items its contents.  No array is ever written
    after it has been built. *)
Record AnnArray : Type := mkArr { ref : nat; items : list BBox.t }.

(** [a === b] on two annotation arrays. *)
Definition same_ref (a b : AnnArray) : bool := Nat.eqb (ref a) (ref b).

Module Image.
Record t : Type := mk
  { id : string; width : Q; height : Q; annotations : AnnArray }.

Definition set_annotations (a : AnnArray) (i : t) : t :=
  mk (id i) (width i) (height i) a.
End Image.

Record MouseEvent : Type := mkMouse { clientX : Q; clientY : Q }.

(** Calls made to the host through the component's props. *)
Inductive Callback : Type :=
| OnUpdateAnnotations (a : AnnArray)
| OnPanChange (x y : Q)
| OnSelectAnnotation (id : option string)
| OnMagicBoxSelect (r : Rect.t).

(** Truthiness of a [string | null] value. *)
Definition truthy (o : option string) : bool :=
  match o with
  | Some EmptyString => false
  | Some _ => true
  | None => false
  end.

Definition isSome {A} (o : option A) : bool :=
  match o with Some _ => true | None => false end.

(** [a.id === id] where [id : string | null]. *)
Definition idIs (i : option string) (a : BBox.t) : bool :=
  match i with
  | Some s => String.eqb (BBox.id a) s
  | None => false
  end.

(** [anns.map(a => a.id === id ? { ...a, ...newYolo } : a)] *)
Definition replaceGeometry (i : option string) (n : Yolo) (anns : list BBox.t)
  : list BBox.t :=
  map (fun a => if idIs i a then spreadYolo a n else a) anns.

(** The interaction hooks, common to both canvases
    ([isDragging], [dragStart], [activeCreation], [draggingAnnotationId],
    [resizeHandle], [activeSnapLines], [initialMoveRect]). *)
Module UI.
Record t : Type := mk
  { isDragging : bool;
    dragStart : option Point.t;
    activeCreation : option Rect.t;
    draggingAnnotationId : option string;
    resizeHandle : option ResizeHandleType;
    activeSnapLines : option Q * option Q;
    initialMoveRect : option Rect.t }.

Definition initial : t := mk false None None None None (None, None) None.

Definition setIsDragging (v : bool) (s : t) : t :=
  mk v (dragStart s) (activeCreation s) (draggingAnnotationId s)
     (resizeHandle s) (activeSnapLines s) (initialMoveRect s).
Definition setDragStart (v : option Point.t) (s : t) : t :=
  mk (isDragging s) v (activeCreation s) (draggingAnnotationId s)
     (resizeHandle s) (activeSnapLines s) (initialMoveRect s).
Definition setActiveCreation (v : option Rect.t) (s : t) : t :=
  mk (isDragging s) (dragStart s) v (draggingAnnotationId s)
     (resizeHandle s) (activeSnapLines s) (initialMoveRect s).
Definition setDraggingAnnotationId (v : option string) (s : t) : t :=
  mk (isDragging s) (dragStart s) (activeCreation s) v
     (resizeHandle s) (activeSnapLines s) (initialMoveRect s).
Definition setResizeHandle (v : option ResizeHandleType) (s : t) : t :=
  mk (isDragging s) (dragStart s) (activeCreation s) (draggingAnnotationId s)
     v (activeSnapLines s) (initialMoveRect s).
Definition setActiveSnapLines (v : option Q * option Q) (s : t) : t :=
  mk (isDragging s) (dragStart s) (activeCreation s) (draggingAnnotationId s)
     (resizeHandle s) v (initialMoveRect s).
Definition setInitialMoveRect (v : option Rect.t) (s : t) : t :=
  mk (isDragging s) (dragStart s) (activeCreation s) (draggingAnnotationId s)
     (resizeHandle s) (activeSnapLines s) v.
End UI.

(** [getMousePos]: [container] is the top-left corner of the bounding
    rectangle of [containerRef.current], when the ref is set. *)
Definition getMousePos (container : option Point.t) (pan : Point.t) (zoom : Q)
           (e : MouseEvent) : Point.t :=
  match container with
  | None => Point.mk 0 0
  | Some rect =>
      Point.mk ((clientX e - Point.x rect - Point.x pan) / zoom)
               ((clientY e - Point.y rect - Point.y pan) / zoom)
  end.

(** [sx.snapped ? sx.val : null] *)
Definition snapVisual (r : SnapResult) : option Q :=
  if snapped r then Some (val r) else None.

(** The rectangle spanned while creating: anchor [dragStart], moving corner
    [(currentX, currentY)]. *)
Definition creationRect (start : Point.t) (currentX currentY : Q) : Rect.t :=
  Rect.mk (Qmin (Point.x start) currentX) (Qmin (Point.y start) currentY)
          (Qabs (currentX - Point.x start)) (Qabs (currentY - Point.y start)).

(** One axis of the move branch: the leading edge first, then the trailing
    edge, else the raw position; the second component is the guide line. *)
Definition moveAxis (raw size : Q) (lead trail : SnapResult) : Q * option Q :=
  if snapped lead then (val lead, Some (val lead))
  else if snapped trail then (val trail - size, Some (val trail))
  else (raw, None).

(** The move branch: rectangle proposed for the dragged box and the two
    guide lines; [snap] is the canvas's [getClosestSnap]. *)
Definition moveRect (snap : Q -> list Q -> Q -> SnapResult) (threshold : Q)
           (xLines yLines : list Q) (init : Rect.t) (start pos : Point.t)
  : Rect.t * (option Q * option Q) :=
  let dx := Point.x pos - Point.x start in
  let dy := Point.y pos - Point.y start in
  let newX := Rect.x init + dx in
  let newY := Rect.y init + dy in
  let snapL := snap newX xLines threshold in
  let snapR := snap (newX + Rect.w init) xLines threshold in
  let snapT := snap newY yLines threshold in
  let snapB := snap (newY + Rect.h init) yLines threshold in
  let '(fx, gx) := moveAxis newX (Rect.w init) snapL snapR in
  let '(fy, gy) := moveAxis newY (Rect.h init) snapT snapB in
  (Rect.mk fx fy (Rect.w init) (Rect.h init), (gx, gy)).

(** [cond && obj]: the object when the condition holds. *)
Definition guard {A} (b : bool) (o : option A) : option A :=
  if b then o else None.

(** ** The history-enabled canvas ([src/unnamed/part_001]) *)

Module Canvas.

Record Props : Type := mkProps
  { image : Image.t;
    currentLabelId : string;
    mode : ToolMode;
    zoom : Q;
    pan : Point.t;
    selectedAnnotationId : option string;
    snapPixelDistance : Q }.

Definition setImage (i : Image.t) (p : Props) : Props :=
  mkProps i (currentLabelId p) (mode p) (zoom p) (pan p)
          (selectedAnnotationId p) (snapPixelDistance p).
Definition setPan (v : Point.t) (p : Props) : Props :=
  mkProps (image p) (currentLabelId p) (mode p) (zoom p) v
          (selectedAnnotationId p) (snapPixelDistance p).
Definition setSelected (v : option string) (p : Props) : Props :=
  mkProps (image p) (currentLabelId p) (mode p) (zoom p) (pan p)
          v (snapPixelDistance p).

(** The history hooks and refs. *)
Module History.
Record t : Type := mk
  { undoStack : list AnnArray;
    redoStack : list AnnArray;
    prevAnnotationsRef : AnnArray;
    prevImageIdRef : string;
    isHistoryAction : bool;
    dragStartAnnotationsRef : AnnArray;
    isUndoRedo : bool }.

Definition setUndoStack (v : list AnnArray) (h : t) : t :=
  mk v (redoStack h) (prevAnnotationsRef h) (prevImageIdRef h)
     (isHistoryAction h) (dragStartAnnotationsRef h) (isUndoRedo h).
Definition setRedoStack (v : list AnnArray) (h : t) : t :=
  mk (undoStack h) v (prevAnnotationsRef h) (prevImageIdRef h)
     (isHistoryAction h) (dragStartAnnotationsRef h) (isUndoRedo h).
Definition setPrevAnnotations (v : AnnArray) (h : t) : t :=
  mk (undoStack h) (redoStack h) v (prevImageIdRef h)
     (isHistoryAction h) (dragStartAnnotationsRef h) (isUndoRedo h).
Definition setPrevImageId (v : string) (h : t) : t :=
  mk (undoStack h) (redoStack h) (prevAnnotationsRef h) v
     (isHistoryAction h) (dragStartAnnotationsRef h) (isUndoRedo h).
Definition setIsHistoryAction (v : bool) (h : t) : t :=
  mk (undoStack h) (redoStack h) (prevAnnotationsRef h) (prevImageIdRef h)
     v (dragStartAnnotationsRef h) (isUndoRedo h).
Definition setDragStartAnnotations (v : AnnArray) (h : t) : t :=
  mk (undoStack h) (redoStack h) (prevAnnotationsRef h) (prevImageIdRef h)
     (isHistoryAction h) v (isUndoRedo h).
Definition setIsUndoRedo (v : bool) (h : t) : t :=
  mk (undoStack h) (redoStack h) (prevAnnotationsRef h) (prevImageIdRef h)
     (isHistoryAction h) (dragStartAnnotationsRef h) v.

(** The values the hooks and refs take when the component mounts. *)
Definition initial (i : Image.t) : t :=
  mk [] [] (Image.annotations i) (Image.id i) false
     (Image.annotations i) false.
End History.

Record State : Type := mkState { ui : UI.t; hist : History.t }.

Definition anns (p : Props) : AnnArray := Image.annotations (image p).

(** [getClosestSnap]; [SNAP_DIST_PX] is the [snapPixelDistance] prop
    captured by the closure. *)
Definition getClosestSnap (SNAP_DIST_PX : Q) (v : Q) (lines : list Q)
           (threshold : Q) : SnapResult :=
  if Qle_bool SNAP_DIST_PX 0 then mkSnap v false
  else
    let s := snapScan v lines threshold in
    mkSnap (closest s) (found s).

(** The history [useEffect], run after a render in which [image.id] or
    [image.annotations] changed. *)
Definition historyEffect (p : Props) (h : History.t) : History.t :=
  if negb (String.eqb (Image.id (image p)) (History.prevImageIdRef h)) then
    History.setPrevAnnotations (anns p)
      (History.setPrevImageId (Image.id (image p))
         (History.setRedoStack [] (History.setUndoStack [] h)))
  else if negb (same_ref (anns p) (History.prevAnnotationsRef h)) then
    if History.isHistoryAction h then h
    else
      let h1 :=
        if negb (History.isUndoRedo h) then
          History.setRedoStack []
            (History.setUndoStack
               (History.undoStack h ++ [History.prevAnnotationsRef h]) h)
        else h in
      History.setIsUndoRedo false (History.setPrevAnnotations (anns p) h1)
  else h.

Definition performUndo (p : Props) (s : State) : State * list Callback :=
  let h := hist s in
  match History.undoStack h with
  | [] => (s, [])
  | first :: others =>
      let prevState := last others first in
      let h1 := History.setIsUndoRedo true h in
      let h2 := History.setRedoStack (History.redoStack h1 ++ [anns p]) h1 in
      let h3 := History.setUndoStack (removelast (History.undoStack h2)) h2 in
      (mkState (ui s) h3, [OnUpdateAnnotations prevState])
  end.

Definition performRedo (p : Props) (s : State) : State * list Callback :=
  let h := hist s in
  match History.redoStack h with
  | [] => (s, [])
  | first :: others =>
      let nextState := last others first in
      let h1 := History.setIsUndoRedo true h in
      let h2 := History.setUndoStack (History.undoStack h1 ++ [anns p]) h1 in
      let h3 := History.setRedoStack (removelast (History.redoStack h2)) h2 in
      (mkState (ui s) h3, [OnUpdateAnnotations nextState])
  end.

(** "Start History Action Snapshot" *)
Definition startHistoryAction (p : Props) (h : History.t) : History.t :=
  History.setIsHistoryAction true
    (History.setDragStartAnnotations (anns p) h).

Definition handleMouseDown (p : Props) (container : option Point.t)
           (e : MouseEvent) (s : State) : State * list Callback :=
  let pos := getMousePos container (pan p) (zoom p) e in
  let h :=
    match mode p with
    | DRAW | SELECT => startHistoryAction p (hist s)
    | _ => hist s
    end in
  match mode p with
  | PAN =>
      (mkState
         (UI.setDragStart (Some (Point.mk (clientX e) (clientY e)))
            (UI.setIsDragging true (ui s))) h, [])
  | DRAW | MAGIC_BOX =>
      (mkState
         (UI.setDragStart (Some pos)
            (UI.setActiveCreation
               (Some (Rect.mk (Point.x pos) (Point.y pos) 0 0))
               (UI.setIsDragging true (ui s)))) h,
       [OnSelectAnnotation None])
  | SELECT => (mkState (ui s) h, [OnSelectAnnotation None])
  end.

(** The resize branch: new rectangle from the handle and the snapped
    pointer [(mx, my)]. *)
Definition resizeRect (hd : ResizeHandleType) (rect : Rect.t) (mx my : Q)
  : Rect.t :=
  match hd with
  | tl => Rect.mk mx my
            ((Rect.x rect + Rect.w rect) - mx)
            ((Rect.y rect + Rect.h rect) - my)
  | tr => Rect.mk (Rect.x rect) my
            (mx - Rect.x rect)
            ((Rect.y rect + Rect.h rect) - my)
  | bl => Rect.mk mx (Rect.y rect)
            ((Rect.x rect + Rect.w rect) - mx)
            (my - Rect.y rect)
  | br => Rect.mk (Rect.x rect) (Rect.y rect)
            (mx - Rect.x rect) (my - Rect.y rect)
  end.

Definition toYolo (p : Props) (r : Rect.t) : Yolo :=
  svgToYolo (Rect.x r) (Rect.y r) (Rect.w r) (Rect.h r)
            (Image.width (image p)) (Image.height (image p)).

Definition snapLines (p : Props) (excludeId : option string)
  : list Q * list Q :=
  getSnapLines (Image.width (image p)) (Image.height (image p))
               (items (anns p)) excludeId.

(** [fresh] is the address given to an array built by this call. *)
Definition handleMouseMove (p : Props) (container : option Point.t)
           (fresh : nat) (e : MouseEvent) (s : State)
  : State * list Callback :=
  let u := ui s in
  match guard (ToolMode_eqb (mode p) PAN && UI.isDragging u)
              (UI.dragStart u) with
  | Some start =>
      let dx := clientX e - Point.x start in
      let dy := clientY e - Point.y start in
      (mkState
         (UI.setDragStart (Some (Point.mk (clientX e) (clientY e))) u)
         (hist s),
       [OnPanChange (Point.x (pan p) + dx) (Point.y (pan p) + dy)])
  | None =>
  let pos := getMousePos container (pan p) (zoom p) e in
  let threshold := snapPixelDistance p / zoom p in
  let snap := getClosestSnap (snapPixelDistance p) in
  match guard (ToolMode_eqb (mode p) DRAW && UI.isDragging u)
              (UI.dragStart u) with
  | Some start =>
      let '(xLines, yLines) := snapLines p None in
      let sx := snap (Point.x pos) xLines threshold in
      let sy := snap (Point.y pos) yLines threshold in
      (mkState
         (UI.setActiveSnapLines (snapVisual sx, snapVisual sy)
            (UI.setActiveCreation
               (Some (creationRect start (val sx) (val sy))) u))
         (hist s), [])
  | None =>
  match guard (ToolMode_eqb (mode p) SELECT
               && truthy (selectedAnnotationId p))
              (UI.resizeHandle u) with
  | Some handle =>
      match find (idIs (selectedAnnotationId p)) (items (anns p)) with
      | Some ann =>
          let rect :=
            yoloToSvg ann (Image.width (image p)) (Image.height (image p)) in
          let '(xLines, yLines) := snapLines p (selectedAnnotationId p) in
          let sx := snap (Point.x pos) xLines threshold in
          let sy := snap (Point.y pos) yLines threshold in
          let r := resizeRect handle rect (val sx) (val sy) in
          let cbs :=
            if Qgtb (Rect.w r) 0 && Qgtb (Rect.h r) 0 then
              [OnUpdateAnnotations
                 (mkArr fresh
                    (replaceGeometry (selectedAnnotationId p) (toYolo p r)
                       (items (anns p))))]
            else [] in
          (mkState (UI.setActiveSnapLines (snapVisual sx, snapVisual sy) u)
                   (hist s), cbs)
      | None => (s, [])
      end
  | None =>
  let '(u1, cbs) :=
    match guard (ToolMode_eqb (mode p) SELECT
                 && truthy (UI.draggingAnnotationId u))
                (UI.initialMoveRect u), UI.dragStart u with
    | Some init, Some start =>
        let '(xLines, yLines) := snapLines p (UI.draggingAnnotationId u) in
        let '(r, guides) :=
          moveRect snap threshold xLines yLines init start pos in
        (UI.setActiveSnapLines guides u,
         [OnUpdateAnnotations
            (mkArr fresh
               (replaceGeometry (UI.draggingAnnotationId u) (toYolo p r)
                  (items (anns p))))])
    | _, _ => (u, [])
    end in
  let u2 :=
    if negb (UI.isDragging u) && negb (isSome (UI.resizeHandle u))
       && negb (truthy (UI.draggingAnnotationId u))
    then UI.setActiveSnapLines (None, None) u1 else u1 in
  (mkState u2 (hist s), cbs)
  end end end.

(** "Commit History for Move/Resize interactions" *)
Definition commitHistory (p : Props) (h : History.t) : History.t :=
  if History.isHistoryAction h then
    let h1 :=
      if negb (same_ref (anns p) (History.dragStartAnnotationsRef h)) then
        History.setPrevAnnotations (anns p)
          (History.setRedoStack []
             (History.setUndoStack
                (History.undoStack h ++ [History.dragStartAnnotationsRef h])
                h))
      else h in
    History.setIsHistoryAction false h1
  else h.

Definition resetUI (u : UI.t) : UI.t :=
  UI.setActiveSnapLines (None, None)
    (UI.setInitialMoveRect None
       (UI.setResizeHandle None
          (UI.setDraggingAnnotationId None
             (UI.setActiveCreation None
                (UI.setDragStart None (UI.setIsDragging false u)))))).

(** [uuid] is the value returned by [crypto.randomUUID()]. *)
Definition handleMouseUp (p : Props) (fresh : nat) (uuid : string)
           (s : State) : State * list Callback :=
  let h := commitHistory p (hist s) in
  let cbs :=
    match guard (ToolMode_eqb (mode p) DRAW) (UI.activeCreation (ui s)) with
    | Some ac =>
        if Qgtb (Rect.w ac) 5 && Qgtb (Rect.h ac) 5 then
          let newAnn := spreadYolo (BBox.mk uuid (currentLabelId p) 0 0 0 0)
                                   (toYolo p ac) in
          [OnUpdateAnnotations (mkArr fresh (items (anns p) ++ [newAnn]));
           OnSelectAnnotation (Some (BBox.id newAnn))]
        else []
    | None => []
    end in
  (mkState (resetUI (ui s)) h, cbs).

Definition handleAnnotationMouseDown (p : Props)
           (container : option Point.t) (e : MouseEvent) (id : string)
           (s : State) : State * list Callback :=
  if negb (ToolMode_eqb (mode p) SELECT) then (s, [])
  else
    match find (fun a => String.eqb (BBox.id a) id) (items (anns p)) with
    | Some ann =>
        let rect :=
          yoloToSvg ann (Image.width (image p)) (Image.height (image p)) in
        let pos := getMousePos container (pan p) (zoom p) e in
        (mkState
           (UI.setDragStart (Some pos)
              (UI.setInitialMoveRect (Some rect)
                 (UI.setDraggingAnnotationId (Some id) (ui s))))
           (startHistoryAction p (hist s)),
         [OnSelectAnnotation (Some id)])
    | None => (s, [OnSelectAnnotation (Some id)])
    end.

Definition handleResizeMouseDown (p : Props) (e : MouseEvent)
           (handle : ResizeHandleType) (id : string) (s : State)
  : State * list Callback :=
  if negb (ToolMode_eqb (mode p) SELECT) then (s, [])
  else
    (mkState
       (UI.setDraggingAnnotationId None
          (UI.setResizeHandle (Some handle) (ui s)))
       (startHistoryAction p (hist s)), []).

(** *** The component inside its host *)

(** The host's [updateAnnotations], [setPan] and [setSelectedAnnId]. *)
Definition applyCallback (p : Props) (c : Callback) : Props :=
  match c with
  | OnUpdateAnnotations a => setImage (Image.set_annotations a (image p)) p
  | OnPanChange x y => setPan (Point.mk x y) p
  | OnSelectAnnotation i => setSelected i p
  | OnMagicBoxSelect _ => p
  end.

Record World : Type := mkWorld
  { props : Props;
    state : State;
    container : option Point.t;
    nextRef : nat }.

Inductive Event : Type :=
| MouseDown (e : MouseEvent)
| AnnotationMouseDown (e : MouseEvent) (id : string)
| ResizeMouseDown (e : MouseEvent) (handle : ResizeHandleType) (id : string)
| MouseMove (e : MouseEvent)
| MouseUp (uuid : string)
| Undo
| Redo
| HostUpdate (newItems : list BBox.t)
| HostSwitch (id : string) (width height : Q) (newItems : list BBox.t)
| HostConfigure (label : string) (m : ToolMode) (z : Q) (offset : Point.t)
                (selected : option string) (snapDistance : Q).

(** Dependencies [image.id, image.annotations] of the history effect. *)
Definition depsChanged (old new : Props) : bool :=
  negb (String.eqb (Image.id (image old)) (Image.id (image new)))
  || negb (same_ref (anns old) (anns new)).

(** Re-render with the new props; the effect runs when a dependency
    changed. *)
Definition render (w : World) (p' : Props) (s' : State) : World :=
  let h := if depsChanged (props w) p' then historyEffect p' (hist s')
           else hist s' in
  mkWorld p' (mkState (ui s') h) (container w) (S (nextRef w)).

(** The handler an event reaches.  A mouse-down that its handler does not
  stop bubbles to the handler of the enclosing element. *)
Definition dispatch (w : World) (ev : Event) : State * list Callback :=
let p := props w in
let s := state w in
match ev with
| MouseDown e => handleMouseDown p (container w) e s
| AnnotationMouseDown e id =>
    if ToolMode_eqb (mode p) SELECT
    then handleAnnotationMouseDown p (container w) e id s
    else handleMouseDown p (container w) e s
| ResizeMouseDown e handle id =>
    if ToolMode_eqb (mode p) SELECT
    then handleResizeMouseDown p e handle id s
    else handleMouseDown p (container w) e s
| MouseMove e => handleMouseMove p (container w) (nextRef w) e s
| MouseUp uuid => handleMouseUp p (nextRef w) uuid s
| Undo => performUndo p s
| Redo => performRedo p s
| HostUpdate _ | HostSwitch _ _ _ _ | HostConfigure _ _ _ _ _ _ => (s, [])
end.

(** What the host itself does to the props: replace the list by a newly
  built array, load another image, or change the other props (label, tool
  mode, zoom, pan, selection, snap distance). *)
Definition hostProps (w : World) (ev : Event) : Props :=
let p := props w in
match ev with
| HostUpdate newItems =>
    setImage (Image.set_annotations (mkArr (nextRef w) newItems) (image p)) p
| HostSwitch id width height newItems =>
    setImage (Image.mk id width height (mkArr (nextRef w) newItems)) p
| HostConfigure label m z offset selected snapDistance =>
    mkProps (image p) label m z offset selected snapDistance
| _ => p
end.

Definition react (w : World) (ev : Event) : World :=
let r := dispatch w ev in
render w (fold_left applyCallback (snd r) (hostProps w ev)) (fst r).

Definition run (w : World) (evs : list Event) : World :=
  fold_left react evs w.

(** The component freshly mounted on [p]. *)
Definition mount (p : Props) (container : option Point.t) : World :=
  mkWorld p (mkState UI.initial (History.initial (image p))) container
          (S (ref (anns p))).

Definition undoStackOf (w : World) : list AnnArray :=
  History.undoStack (hist (state w)).
Definition redoStackOf (w : World) : list AnnArray :=
  History.redoStack (hist (state w)).
Definition current (w : World) : AnnArray := anns (props w).

End Canvas.

(** ** The earlier canvas (second document of
       [src/components/ModelManagerModal.tsx]) *)

Module LegacyCanvas.

(** [onMagicBoxSelect] is an optional prop; the flag says whether the host
    supplies it. *)
Record Props : Type := mkProps
  { image : Image.t;
    currentLabelId : string;
    mode : ToolMode;
    zoom : Q;
    pan : Point.t;
    selectedAnnotationId : option string;
    onMagicBoxSelect : bool }.

Definition setImage (i : Image.t) (p : Props) : Props :=
  mkProps i (currentLabelId p) (mode p) (zoom p) (pan p)
          (selectedAnnotationId p) (onMagicBoxSelect p).
Definition setPan (v : Point.t) (p : Props) : Props :=
  mkProps (image p) (currentLabelId p) (mode p) (zoom p) v
          (selectedAnnotationId p) (onMagicBoxSelect p).
Definition setSelected (v : option string) (p : Props) : Props :=
  mkProps (image p) (currentLabelId p) (mode p) (zoom p) (pan p)
          v (onMagicBoxSelect p).

Definition anns (p : Props) : AnnArray := Image.annotations (image p).

Definition SNAP_DIST_PX : Q := 12.

Definition getClosestSnap (v : Q) (lines : list Q) (threshold : Q)
  : SnapResult :=
  let s := snapScan v lines threshold in
  mkSnap (closest s) (found s).

Definition toYolo (p : Props) (r : Rect.t) : Yolo :=
  svgToYolo (Rect.x r) (Rect.y r) (Rect.w r) (Rect.h r)
            (Image.width (image p)) (Image.height (image p)).

Definition snapLines (p : Props) (excludeId : option string)
  : list Q * list Q :=
  getSnapLines (Image.width (image p)) (Image.height (image p))
               (items (anns p)) excludeId.

Definition handleMouseDown (p : Props) (container : option Point.t)
           (e : MouseEvent) (u : UI.t) : UI.t * list Callback :=
  let pos := getMousePos container (pan p) (zoom p) e in
  match mode p with
  | PAN =>
      (UI.setDragStart (Some (Point.mk (clientX e) (clientY e)))
         (UI.setIsDragging true u), [])
  | DRAW | MAGIC_BOX =>
      (UI.setDragStart (Some pos)
         (UI.setActiveCreation
            (Some (Rect.mk (Point.x pos) (Point.y pos) 0 0))
            (UI.setIsDragging true u)),
       [OnSelectAnnotation None])
  | SELECT => (u, [OnSelectAnnotation None])
  end.

(** "Adjust dimensions based on handle": the rectangle from the handle and
    the snapped pointer [(effX, effY)]. *)
Definition resizeRect (hd : ResizeHandleType) (rect : Rect.t) (effX effY : Q)
  : Rect.t :=
  match hd with
  | tl =>
      let brX := Rect.x rect + Rect.w rect in
      let brY := Rect.y rect + Rect.h rect in
      let newX := Qmin effX (brX - 5) in
      let newY := Qmin effY (brY - 5) in
      Rect.mk newX newY (brX - newX) (brY - newY)
  | tr =>
      let blX := Rect.x rect in
      let blY := Rect.y rect + Rect.h rect in
      let newY := Qmin effY (blY - 5) in
      Rect.mk (Rect.x rect) newY (Qmax (effX - blX) 5) (blY - newY)
  | bl =>
      let trX := Rect.x rect + Rect.w rect in
      let trY := Rect.y rect in
      let newX := Qmin effX (trX - 5) in
      Rect.mk newX (Rect.y rect) (trX - newX) (Qmax (effY - trY) 5)
  | br =>
      let tlX := Rect.x rect in
      let tlY := Rect.y rect in
      Rect.mk (Rect.x rect) (Rect.y rect)
              (Qmax (effX - tlX) 5) (Qmax (effY - tlY) 5)
  end.

Definition handleMouseMove (p : Props) (container : option Point.t)
           (fresh : nat) (e : MouseEvent) (u : UI.t)
  : UI.t * list Callback :=
  match guard (ToolMode_eqb (mode p) PAN && UI.isDragging u)
              (UI.dragStart u) with
  | Some start =>
      let dx := clientX e - Point.x start in
      let dy := clientY e - Point.y start in
      (UI.setDragStart (Some (Point.mk (clientX e) (clientY e))) u,
       [OnPanChange (Point.x (pan p) + dx) (Point.y (pan p) + dy)])
  | None =>
  let pos := getMousePos container (pan p) (zoom p) e in
  let threshold := SNAP_DIST_PX / zoom p in
  match guard ((ToolMode_eqb (mode p) DRAW
                || ToolMode_eqb (mode p) MAGIC_BOX) && UI.isDragging u)
              (UI.dragStart u) with
  | Some start =>
      let '(xLines, yLines) := snapLines p None in
      let sx := getClosestSnap (Point.x pos) xLines threshold in
      let sy := getClosestSnap (Point.y pos) yLines threshold in
      (UI.setActiveSnapLines (snapVisual sx, snapVisual sy)
         (UI.setActiveCreation
            (Some (creationRect start (val sx) (val sy))) u), [])
  | None =>
  match guard (ToolMode_eqb (mode p) SELECT
               && truthy (selectedAnnotationId p))
              (UI.resizeHandle u) with
  | Some handle =>
      let '(xLines, yLines) := snapLines p (selectedAnnotationId p) in
      let sx := getClosestSnap (Point.x pos) xLines threshold in
      let sy := getClosestSnap (Point.y pos) yLines threshold in
      let cbs :=
        match find (idIs (selectedAnnotationId p)) (items (anns p)) with
        | Some ann =>
            let rect :=
              yoloToSvg ann (Image.width (image p))
                        (Image.height (image p)) in
            let r := resizeRect handle rect (val sx) (val sy) in
            [OnUpdateAnnotations
               (mkArr fresh
                  (replaceGeometry (Some (BBox.id ann)) (toYolo p r)
                     (items (anns p))))]
        | None => []
        end in
      (UI.setActiveSnapLines (snapVisual sx, snapVisual sy) u, cbs)
  | None =>
  match guard (ToolMode_eqb (mode p) SELECT && UI.isDragging u
               && truthy (UI.draggingAnnotationId u))
              (UI.initialMoveRect u), UI.dragStart u with
  | Some init, Some start =>
      let '(xLines, yLines) := snapLines p (UI.draggingAnnotationId u) in
      let '(r, guides) :=
        moveRect getClosestSnap threshold xLines yLines init start pos in
      (UI.setActiveSnapLines guides u,
       [OnUpdateAnnotations
          (mkArr fresh
             (replaceGeometry (UI.draggingAnnotationId u) (toYolo p r)
                (items (anns p))))])
  | _, _ => (u, [])
  end end end end.

(** "Finalize Creation"; [uuid] is the value of [crypto.randomUUID()]. *)
Definition finalizeCreation (p : Props) (fresh : nat) (uuid : string)
           (ac : Rect.t) : list Callback :=
  if Qgtb (Rect.w ac) 5 && Qgtb (Rect.h ac) 5 then
    match mode p with
    | DRAW =>
        let newAnn := spreadYolo (BBox.mk uuid (currentLabelId p) 0 0 0 0)
                                 (toYolo p ac) in
        [OnUpdateAnnotations (mkArr fresh (items (anns p) ++ [newAnn]));
         OnSelectAnnotation (Some (BBox.id newAnn))]
    | MAGIC_BOX =>
        if onMagicBoxSelect p then [OnMagicBoxSelect ac] else []
    | _ => []
    end
  else [].

Definition handleMouseUp (p : Props) (fresh : nat) (uuid : string)
           (u : UI.t) : UI.t * list Callback :=
  let '(u1, cbs) :=
    match UI.activeCreation u with
    | Some ac =>
        (UI.setActiveCreation None u, finalizeCreation p fresh uuid ac)
    | None => (u, [])
    end in
  (UI.setActiveSnapLines (None, None)
     (UI.setResizeHandle None
        (UI.setInitialMoveRect None
           (UI.setDraggingAnnotationId None
              (UI.setDragStart None (UI.setIsDragging false u1))))),
   cbs).

Definition handleAnnMouseDown (p : Props) (container : option Point.t)
           (e : MouseEvent) (id : string) (u : UI.t)
  : UI.t * list Callback :=
  if ToolMode_eqb (mode p) SELECT then
    let pos := getMousePos container (pan p) (zoom p) e in
    let u1 := UI.setDragStart (Some pos) (UI.setIsDragging true u) in
    let u2 :=
      match find (fun a => String.eqb (BBox.id a) id) (items (anns p)) with
      | Some ann =>
          UI.setInitialMoveRect
            (Some (yoloToSvg ann (Image.width (image p))
                             (Image.height (image p))))
            (UI.setDraggingAnnotationId (Some id) u1)
      | None => u1
      end in
    (u2, [OnSelectAnnotation (Some id)])
  else (u, []).

Definition handleResizeStart (handle : ResizeHandleType) (u : UI.t)
  : UI.t * list Callback :=
  (UI.setIsDragging true (UI.setResizeHandle (Some handle) u), []).

Definition applyCallback (p : Props) (c : Callback) : Props :=
  match c with
  | OnUpdateAnnotations a => setImage (Image.set_annotations a (image p)) p
  | OnPanChange x y => setPan (Point.mk x y) p
  | OnSelectAnnotation i => setSelected i p
  | OnMagicBoxSelect _ => p
  end.

End LegacyCanvas.


(** ** Editing sessions *)

Inductive Down : Type :=
| DownCanvas (e : MouseEvent)
| DownAnnotation (e : MouseEvent) (id : string)
| DownHandle (e : MouseEvent) (handle : ResizeHandleType) (id : string).

Definition downEvent (d : Down) : Canvas.Event :=
  match d with
  | DownCanvas e => Canvas.MouseDown e
  | DownAnnotation e id => Canvas.AnnotationMouseDown e id
  | DownHandle e handle id => Canvas.ResizeMouseDown e handle id
  end.

(** What happens in a session, one complete action at a time: a gesture
    (pointer-down, pointer-moves, pointer-up), the pointer hovering over or
    leaving the canvas with no button held, undo, redo, and the host
    replacing the list, loading an image or changing the other props. *)
Inductive Action : Type :=
| Gesture (d : Down) (moves : list MouseEvent) (uuid : string)
| Hover (e : MouseEvent)
| Leave (uuid : string)
| DoUndo
| DoRedo
| HostUpdates (newItems : list BBox.t)
| HostSwitches (id : string) (width height : Q) (newItems : list BBox.t)
| HostConfigures (label : string) (m : ToolMode) (z : Q) (offset : Point.t)
                 (selected : option string) (snapDistance : Q).

Definition gestureEvents (d : Down) (moves : list MouseEvent) (uuid : string)
  : list Canvas.Event :=
  downEvent d :: map Canvas.MouseMove moves ++ [Canvas.MouseUp uuid].

Definition events_of (a : Action) : list Canvas.Event :=
  match a with
  | Gesture d moves uuid => gestureEvents d moves uuid
  | Hover e => [Canvas.MouseMove e]
  | Leave uuid => [Canvas.MouseUp uuid]
  | DoUndo => [Canvas.Undo]
  | DoRedo => [Canvas.Redo]
  | HostUpdates newItems => [Canvas.HostUpdate newItems]
  | HostSwitches id width height newItems =>
      [Canvas.HostSwitch id width height newItems]
  | HostConfigures label m z offset selected snapDistance =>
      [Canvas.HostConfigure label m z offset selected snapDistance]
  end.

Definition session (w : Canvas.World) (acts : list Action) : Canvas.World :=
  fold_left (fun w a => Canvas.run w (events_of a)) acts w.

(** ** A small editing session used in the examples *)

Module Sample.
Local Open Scope string_scope.

(** A 50 x 50 pixel box in the middle of a 100 x 100 image. *)
Definition box : BBox.t := BBox.mk "a" "car" (1#2) (1#2) (1#2) (1#2).

Definition image : Image.t := Image.mk "img1" 100 100 (mkArr 0 [box]).

Definition props (m : ToolMode) (snapDistance : Q) : Canvas.Props :=
  Canvas.mkProps image "car" m 1 (Point.mk 0 0) None snapDistance.

Definition legacyProps (m : ToolMode) (magic : bool) : LegacyCanvas.Props :=
  LegacyCanvas.mkProps image "car" m 1 (Point.mk 0 0) None magic.

Definition origin : option Point.t := Some (Point.mk 0 0).

Definition world (m : ToolMode) (snapDistance : Q) : Canvas.World :=
  Canvas.mount (props m snapDistance) origin.

End Sample.

Module Scenario.
Local Open Scope string_scope.

(** Press on box ["a"] at (30, 30). *)
Definition grabDown : Down := DownAnnotation (mkMouse 30 30) "a".

Definition grab : Canvas.Event := downEvent grabDown.

(** Fifty pointer-moves, one pixel to the right each. *)
Definition fiftyMoves : list MouseEvent :=
  map (fun k => mkMouse (30 + inject_Z (Z.of_nat k)) 30) (seq 1 50).

(** A move gesture with fifty intermediate events. *)
Definition longMove : Canvas.World :=
  Canvas.run (Sample.world SELECT 0)
             (grab :: map Canvas.MouseMove fiftyMoves ++ [Canvas.MouseUp "u"]).


(** Box ["a"] pressed and one pointer-move made at the very same position. *)
Definition held : Canvas.World :=
  Canvas.run (Sample.world SELECT 0)
             [grab; Canvas.MouseMove (mkMouse 30 30)].

(** Press on box ["a"], one pointer-move at the very same position,
    release. *)
Definition zeroDrag : Canvas.World :=
  Canvas.run (Sample.world SELECT 0)
             [grab; Canvas.MouseMove (mkMouse 30 30); Canvas.MouseUp "u"].



End Scenario.
(** ** Specification-side predicates *)

(** Loop invariant: either nothing qualified so far, or the scan holds the
    first strict minimiser of the prefix. *)
Definition scan_inv (v : Q) (l : list Q) (t : Q) (s : SnapScan) : Prop :=
  (found s = false /\ closest s = v /\ minD s = t /\
   forall c, In c l -> t <= dist v c)
  \/
  (found s = true /\ minD s = dist v (closest s) /\
   first_nearest v l t (closest s)).

(** One axis of a move: leading edge first, trailing edge second, raw
    position last. *)
Definition axis_placed (raw size : Q) (lead trail : SnapResult) (pos : Q)
  : Prop :=
  (snapped lead = true -> pos = val lead) /\
  (snapped lead = false -> snapped trail = true ->
   pos = val trail - size /\ pos + size == val trail) /\
  (snapped lead = false -> snapped trail = false -> pos = raw).

Definition move_placed (snap : Q -> list Q -> Q -> SnapResult) (t : Q)
           (xLines yLines : list Q) (init : Rect.t) (start pos : Point.t)
           (r : Rect.t) : Prop :=
  let rawX := Rect.x init + (Point.x pos - Point.x start) in
  let rawY := Rect.y init + (Point.y pos - Point.y start) in
  axis_placed rawX (Rect.w init)
              (snap rawX xLines t) (snap (rawX + Rect.w init) xLines t)
              (Rect.x r) /\
  axis_placed rawY (Rect.h init)
              (snap rawY yLines t) (snap (rawY + Rect.h init) yLines t)
              (Rect.y r) /\
  Rect.w r = Rect.w init /\ Rect.h r = Rect.h init.


(** Worlds the mounted component can be in. *)
Definition reachable (w : Canvas.World) : Prop :=
  exists p container evs, w = Canvas.run (Canvas.mount p container) evs.

(** The image-id ref follows the image being edited. *)
Definition synced (w : Canvas.World) : Prop :=
  Canvas.History.prevImageIdRef (Canvas.hist (Canvas.state w))
  = Image.id (Canvas.image (Canvas.props w)).

(** No gesture in progress. *)
Definition idle (w : Canvas.World) : Prop :=
  let u := Canvas.ui (Canvas.state w) in
  UI.isDragging u = false /\ UI.dragStart u = None /\
  UI.activeCreation u = None /\ UI.draggingAnnotationId u = None /\
  UI.resizeHandle u = None /\ UI.initialMoveRect u = None.

(** The history refs have caught up with the props, and the current array
    was allocated before the next free address. *)
Definition settled (w : Canvas.World) : Prop :=
  let h := Canvas.hist (Canvas.state w) in
  synced w /\
  Canvas.History.prevAnnotationsRef h = Canvas.current w /\
  Canvas.History.isUndoRedo h = false /\
  Canvas.History.isHistoryAction h = false /\
  (ref (Canvas.current w) < Canvas.nextRef w)%nat.

Definition pointer_down (ev : Canvas.Event) : Prop :=
  match ev with
  | Canvas.MouseDown _ | Canvas.AnnotationMouseDown _ _
  | Canvas.ResizeMouseDown _ _ _ => True
  | _ => False
  end.

Definition pointer_move (ev : Canvas.Event) : Prop :=
  match ev with Canvas.MouseMove _ => True | _ => False end.

(** What holds between a pointer-down on [w0] and the pointer-up. *)
Definition in_gesture (w0 w : Canvas.World) : Prop :=
  let h := Canvas.hist (Canvas.state w) in
  let h0 := Canvas.hist (Canvas.state w0) in
  let u := Canvas.ui (Canvas.state w) in
  Image.id (Canvas.image (Canvas.props w))
  = Image.id (Canvas.image (Canvas.props w0)) /\
  Canvas.mode (Canvas.props w) = Canvas.mode (Canvas.props w0) /\
  Canvas.History.undoStack h = Canvas.History.undoStack h0 /\
  Canvas.History.redoStack h = Canvas.History.redoStack h0 /\
  Canvas.History.prevAnnotationsRef h = Canvas.History.prevAnnotationsRef h0 /\
  Canvas.History.prevImageIdRef h = Canvas.History.prevImageIdRef h0 /\
  Canvas.History.isUndoRedo h = Canvas.History.isUndoRedo h0 /\
  (Canvas.nextRef w0 <= Canvas.nextRef w)%nat /\
  (ref (Canvas.current w) < Canvas.nextRef w)%nat /\
  (Canvas.current w = Canvas.current w0 \/
   (Canvas.mode (Canvas.props w) = SELECT /\
    Canvas.History.isHistoryAction h = true /\
    (Canvas.nextRef w0 <= ref (Canvas.current w))%nat)) /\
  (Canvas.History.isHistoryAction h = true ->
   Canvas.History.dragStartAnnotationsRef h = Canvas.current w0) /\
  (Canvas.History.isHistoryAction h = false ->
   UI.resizeHandle u = None /\ UI.draggingAnnotationId u = None).


(** Value equality of annotations and of annotation lists. *)
Definition bbox_equal (a b : BBox.t) : Prop :=
  BBox.id a = BBox.id b /\ BBox.labelId a = BBox.labelId b /\
  BBox.x a == BBox.x b /\ BBox.y a == BBox.y b /\
  BBox.w a == BBox.w b /\ BBox.h a == BBox.h b.

Definition same_geometry (l1 l2 : list BBox.t) : Prop :=
  Forall2 bbox_equal l1 l2.

(** The corner a resize keeps in place. *)
Definition oppositeCorner (hd : ResizeHandleType) (r : Rect.t) : Q * Q :=
  match hd with
  | tl => (Rect.x r + Rect.w r, Rect.y r + Rect.h r)
  | tr => (Rect.x r, Rect.y r + Rect.h r)
  | bl => (Rect.x r + Rect.w r, Rect.y r)
  | br => (Rect.x r, Rect.y r)
  end.

Definition opposite_fixed (hd : ResizeHandleType) (before after : Rect.t)
  : Prop :=
  fst (oppositeCorner hd after) == fst (oppositeCorner hd before) /\
  snd (oppositeCorner hd after) == snd (oppositeCorner hd before).



(** The callbacks hold no replacement of the annotation list. *)
Definition no_update (cbs : list Callback) : Prop :=
  forall a, ~ In (OnUpdateAnnotations a) cbs.

Definition pointer_event (ev : Canvas.Event) : Prop :=
  match ev with
  | Canvas.MouseDown _ | Canvas.AnnotationMouseDown _ _
  | Canvas.ResizeMouseDown _ _ _ | Canvas.MouseMove _ | Canvas.MouseUp _ => True
  | _ => False
  end.

(** The data-model invariant: positive width and height. *)
Definition positive_box (a : BBox.t) : Prop := 0 < BBox.w a /\ 0 < BBox.h a.

Definition positive_list (l : AnnArray) : Prop :=
  Forall positive_box (items l).

Definition positive_rect (o : option Rect.t) : Prop :=
  match o with
  | Some r => 0 < Rect.w r /\ 0 < Rect.h r
  | None => True
  end.

Definition hist_positive (h : Canvas.History.t) : Prop :=
  Forall positive_list (Canvas.History.undoStack h) /\
  Forall positive_list (Canvas.History.redoStack h) /\
  positive_list (Canvas.History.prevAnnotationsRef h) /\
  positive_list (Canvas.History.dragStartAnnotationsRef h).

(** The invariant carried by the whole editor state: the frame has positive
    size, and the current list, every snapshot the history holds and the
    rectangle recorded for a move are positive. *)
Definition well_sized (w : Canvas.World) : Prop :=
  0 < Image.width (Canvas.image (Canvas.props w)) /\
  0 < Image.height (Canvas.image (Canvas.props w)) /\
  positive_list (Canvas.current w) /\
  hist_positive (Canvas.hist (Canvas.state w)) /\
  positive_rect (UI.initialMoveRect (Canvas.ui (Canvas.state w))).

(** Every operation of the editor itself qualifies; of the host it is asked
    that the lists and frames it supplies satisfy the invariant. *)
Definition editor_event (ev : Canvas.Event) : Prop :=
  match ev with
  | Canvas.HostUpdate newItems => Forall positive_box newItems
  | Canvas.HostSwitch _ width height newItems =>
      0 < width /\ 0 < height /\ Forall positive_box newItems
  | _ => True
  end.

Definition updates_positive (cbs : list Callback) : Prop :=
  forall a, In (OnUpdateAnnotations a) cbs -> positive_list a.

(** How a finished gesture leaves the editor, relative to the world [w0] it
    started on. *)
Definition gesture_outcome (w0 w' : Canvas.World) : Prop :=
  idle w' /\ settled w' /\ (Canvas.nextRef w0 <= Canvas.nextRef w')%nat /\
  ((Canvas.current w' = Canvas.current w0 /\
    Canvas.undoStackOf w' = Canvas.undoStackOf w0 /\
    Canvas.redoStackOf w' = Canvas.redoStackOf w0)
   \/
   ((Canvas.nextRef w0 <= ref (Canvas.current w'))%nat /\
    Canvas.undoStackOf w' = Canvas.undoStackOf w0 ++ [Canvas.current w0] /\
    Canvas.redoStackOf w' = [])).

(** Between actions the editor is idle and settled, the arrays held by the
    history and the current one are pairwise distinct, and all of them were
    allocated below the next free address. *)
Definition stable (w : Canvas.World) : Prop :=
  idle w /\ settled w /\
  NoDup (map ref (Canvas.undoStackOf w ++ Canvas.redoStackOf w
                  ++ [Canvas.current w])) /\
  Forall (fun a => (ref a < Canvas.nextRef w)%nat)
         (Canvas.undoStackOf w ++ Canvas.redoStackOf w).


(** ** The canvas in its viewport, its gestures and its keyboard *)

(** The CSS transform of the image layer
    ([translate(pan.x, pan.y) scale(zoom)], origin top-left, inside the
    container): where a point of the image appears on the screen. *)
Definition toScreen (rect pan : Point.t) (zoom : Q) (q : Point.t)
  : MouseEvent :=
  mkMouse (Point.x rect + Point.x pan + zoom * Point.x q)
          (Point.y rect + Point.y pan + zoom * Point.y q).

(** The mouse event of a pointer-down. *)
Definition downMouse (d : Down) : MouseEvent :=
  match d with
  | DownCanvas e | DownAnnotation e _ | DownHandle e _ _ => e
  end.

(** The snapshots of the history in their order of creation: the undo
    stack, the current list, the redo stack from its top. *)
Definition timeline (w : Canvas.World) : list AnnArray :=
  Canvas.undoStackOf w ++ [Canvas.current w] ++ rev (Canvas.redoStackOf w).

(** What identifies an annotation: its id and its label. *)
Definition identity (a : BBox.t) : string * string :=
  (BBox.id a, BBox.labelId a).

Definition isMouseUp (ev : Canvas.Event) : bool :=
  match ev with Canvas.MouseUp _ => true | _ => false end.

(** The rectangle shown while drawing, from the position of the
    pointer-down and the position of the latest pointer-move. *)
Definition drawPreview (p : Canvas.Props) (container : option Point.t)
           (e0 e : MouseEvent) : Rect.t :=
  let start := getMousePos container (Canvas.pan p) (Canvas.zoom p) e0 in
  let pos := getMousePos container (Canvas.pan p) (Canvas.zoom p) e in
  let t := Canvas.snapPixelDistance p / Canvas.zoom p in
  let snap := Canvas.getClosestSnap (Canvas.snapPixelDistance p) in
  creationRect start
    (val (snap (Point.x pos) (fst (Canvas.snapLines p None)) t))
    (val (snap (Point.y pos) (snd (Canvas.snapLines p None)) t)).


(** The keyboard shortcuts of the history-enabled canvas
    ([src/unnamed/part_001], "Shortcuts"). *)
Module Shortcuts.

(** [inTextField]: the target is an [HTMLInputElement] or an
    [HTMLTextAreaElement]. *)
Record KeyboardEvent : Type := mkKey
  { ctrlKey : bool; metaKey : bool; shiftKey : bool;
    key : string; inTextField : bool }.

Section Keys.
(** [String.prototype.toLowerCase]. *)
Variable toLowerCase : string -> string.

(** [handleKeyDown]: the history operation a key press triggers, if any. *)
Definition handleKeyDown (e : KeyboardEvent) : option Canvas.Event :=
  if inTextField e then None
  else if (ctrlKey e || metaKey e)
          && String.eqb (toLowerCase (key e)) "z" then
    Some (if shiftKey e then Canvas.Redo else Canvas.Undo)
  else if (ctrlKey e || metaKey e)
          && String.eqb (toLowerCase (key e)) "y" then
    Some Canvas.Redo
  else None.

Definition keyEvents (keys : list KeyboardEvent) : list Canvas.Event :=
  flat_map (fun e => match handleKeyDown e with
                     | Some ev => [ev]
                     | None => []
                     end) keys.
End Keys.

End Shortcuts.

(** ** The settings dialog (first document of
       [src/components/ModelManagerModal.tsx]) *)

Module SettingsModal.

Inductive ModelProvider : Type := GOOGLE | OPENAI | OLLAMA | CUSTOM.

Record Config : Type := mkConfig
  { temperature : option Q; topP : option Q; maxTokens : option Q }.

(** [AIModel] of [types.ts]; an optional field that is absent is [None]. *)
Record AIModel : Type := mkModel
  { id : string;
    name : string;
    provider : ModelProvider;
    apiKey : option string;
    endpoint : option string;
    modelId : string;
    config : option Config;
    isDefault : bool }.

(** [Partial<AIModel>]: for each key, whether the object has it, and with
    which value. *)
Record Updates : Type := mkUpdates
  { newId : option string;
    newName : option string;
    newProvider : option ModelProvider;
    newApiKey : option (option string);
    newEndpoint : option (option string);
    newModelId : option string;
    newConfig : option (option Config);
    newIsDefault : option bool }.

Definition over {A} (u : option A) (v : A) : A :=
  match u with Some x => x | None => v end.

(** [{ ...m, ...updates }] *)
Definition spread (m : AIModel) (u : Updates) : AIModel :=
  mkModel (over (newId u) (id m)) (over (newName u) (name m))
          (over (newProvider u) (provider m)) (over (newApiKey u) (apiKey m))
          (over (newEndpoint u) (endpoint m)) (over (newModelId u) (modelId m))
          (over (newConfig u) (config m)) (over (newIsDefault u) (isDefault m)).

(** The hooks [localModels] and [editingId]. *)
Record State : Type := mkState
  { localModels : list AIModel; editingId : option string }.

(** Calls made through the props. *)
Inductive Call : Type :=
| OnSetActiveModel (id : string)
| OnSaveModels (models : list AIModel)
| OnClose.

(** [uuid] is the value returned by [crypto.randomUUID()]. *)
Definition handleAddModel (uuid : string) (s : State) : State :=
  let newModel :=
    mkModel uuid "New Model"%string OPENAI None None "gpt-4o"%string
            (Some (mkConfig (Some (1 # 10)) None None)) false in
  mkState (localModels s ++ [newModel]) (Some (id newModel)).

Definition handleUpdateModel (i : string) (updates : Updates) (s : State)
  : State :=
  mkState (map (fun m => if String.eqb (id m) i then spread m updates else m)
               (localModels s))
          (editingId s).

(** [confirm] is the answer given to [window.confirm]. *)
Definition handleDelete (confirm : bool) (activeModelId : string)
           (i : string) (s : State) : State * list Call :=
  if confirm then
    let filtered :=
      filter (fun m => negb (String.eqb (id m) i)) (localModels s) in
    (mkState filtered (editingId s),
     match guard (String.eqb i activeModelId
                  && Nat.ltb 0 (length filtered))
                 (nth_error filtered 0) with
     | Some first => [OnSetActiveModel (id first)]
     | None => []
     end)
  else (s, []).

Definition handleSaveAll (s : State) : list Call :=
  [OnSaveModels (localModels s); OnClose].

(** The host's [handleSetActiveModel]: the active id after the calls. *)
Definition activeAfter (activeModelId : string) (calls : list Call) : string :=
  fold_left (fun a c => match c with
                        | OnSetActiveModel i => i
                        | _ => a
                        end) calls activeModelId.

End SettingsModal.

(** ** The application ([src/App.tsx]) and its services

    How the code is read: a [Set] is the list of its elements in insertion
    order; the object store is a function from keys to records, and every
    call of the database service is one transaction that has completed
    when the handler goes on; an access that throws a [TypeError] in
    JavaScript returns [None]; values read from parsed JSON have the
    expected type or are absent. *)

Module LabelClass.
Record t : Type := mk { id : string; name : string; color : string }.
End LabelClass.

(** A JavaScript [Set] of strings: its elements in insertion order. *)
Module JsSet.
Definition t : Type := list string.
Definition has (x : string) (s : t) : bool := existsb (String.eqb x) s.
Definition add (x : string) (s : t) : t := if has x s then s else s ++ [x].
Definition delete (x : string) (s : t) : t :=
  filter (fun y => negb (String.eqb x y)) s.
End JsSet.

(** [v === i] where [v : string | null]. *)
Definition optIs (v : option string) (i : string) : bool :=
  match v with
  | Some s => String.eqb s i
  | None => false
  end.

(** [Array.prototype.findIndex]; [None] stands for [-1]. *)
Fixpoint findIndex {A} (f : A -> bool) (l : list A) : option nat :=
  match l with
  | [] => None
  | a :: rest =>
      if f a then Some O
      else match findIndex f rest with
           | Some i => Some (S i)
           | None => None
           end
  end.

Module App.

Inductive Status : Type := unlabeled | in_progress | done.

Record ImageMetadata : Type := mkMeta
  { id : string; name : string; width : Q; height : Q;
    status : Status; annotationCount : nat }.

(** [StoredImage extends ImageMetadata]: the metadata and the annotations
    (the blob plays no part in what follows). *)
Record StoredImage : Type := mkStored
  { meta : ImageMetadata; annotations : list BBox.t }.

(** [LoadedImage]: the image on the canvas; its annotation array has an
    identity. *)
Record LoadedImage : Type := mkLoaded
  { loadedMeta : ImageMetadata; loadedAnnotations : AnnArray }.

(** The [image] prop the canvas receives. *)
Definition toCanvas (img : LoadedImage) : Image.t :=
  Image.mk (id (loadedMeta img)) (width (loadedMeta img))
           (height (loadedMeta img)) (loadedAnnotations img).

(** [n > 0 ? 'in-progress' : 'unlabeled'] *)
Definition statusOf (n : nat) : Status :=
  if Nat.ltb 0 n then in_progress else unlabeled.

(** [{ ...img, annotationCount: n, status: ... }] *)
Definition recount (n : nat) (img : ImageMetadata) : ImageMetadata :=
  mkMeta (id img) (name img) (width img) (height img) (statusOf n) n.

(** The object store of [services/db.ts], keyed by [id]; every operation is
    one transaction. *)
Module Db.
Definition Store : Type := string -> option StoredImage.

Definition put (img : StoredImage) (s : Store) : Store :=
  fun k => if String.eqb k (id (meta img)) then Some img else s k.

Definition remove (i : string) (s : Store) : Store :=
  fun k => if String.eqb k i then None else s k.

Definition getImage (i : string) (s : Store) : option StoredImage := s i.

Definition addImages (images : list StoredImage) (s : Store) : Store :=
  fold_left (fun st img => put img st) images s.

Definition updateImageAnnotations (i : string) (anns : list BBox.t)
           (s : Store) : Store :=
  match s i with
  | Some img => put (mkStored (recount (length anns) (meta img)) anns) s
  | None => s
  end.

Definition deleteImages (ids : list string) (s : Store) : Store :=
  fold_left (fun st i => remove i st) ids s.

Definition clearDatabase (s : Store) : Store := fun _ => None.
End Db.

(** The state the annotation handlers work on. *)
Record Data : Type := mkData
  { images : list ImageMetadata;
    currentImage : option LoadedImage;
    selectedImageId : option string;
    selectedAnnId : option string;
    db : Db.Store }.

Definition updateAnnotations (newAnnotations : AnnArray) (d : Data) : Data :=
  match guard (truthy (selectedImageId d)) (selectedImageId d),
        currentImage d with
  | Some sid, Some cur =>
      mkData
        (map (fun img =>
                if String.eqb (id img) sid
                then recount (length (items newAnnotations)) img
                else img)
             (images d))
        (Some (mkLoaded (loadedMeta cur) newAnnotations))
        (selectedImageId d) (selectedAnnId d)
        (Db.updateImageAnnotations sid (items newAnnotations) (db d))
  | _, _ => d
  end.

(** [fresh] is the address given to the array built by [filter]. *)
Definition handleDeleteAnnotation (fresh : nat) (d : Data) : Data :=
  match guard (truthy (selectedAnnId d)) (selectedAnnId d),
        currentImage d with
  | Some aid, Some cur =>
      let newAnns :=
        mkArr fresh
              (filter (fun a => negb (String.eqb (BBox.id a) aid))
                      (items (loadedAnnotations cur))) in
      let d1 := updateAnnotations newAnns d in
      mkData (images d1) (currentImage d1) (selectedImageId d1) None (db d1)
  | _, _ => d
  end.

(** *** Selecting images *)

Module Sel.
Record t : Type := mk
  { selectedImageId : option string; selectedImageIds : JsSet.t }.
End Sel.

(** The modifier keys of a click. *)
Record Click : Type := mkClick
  { metaKey : bool; ctrlKey : bool; shiftKey : bool }.

(** [for (let i = low; i <= high; i++) newSet.add(images[i].id)]; reading
    [id] of an undefined [images[i]] throws, which is [None]. *)
Definition addRange (imgs : list ImageMetadata) (low high : nat)
           (s : JsSet.t) : option JsSet.t :=
  fold_left (fun acc i =>
               match acc, nth_error imgs i with
               | Some st, Some img => Some (JsSet.add (id img) st)
               | _, _ => None
               end)
            (seq low (S high - low)) (Some s).

Definition handleImageClick (imgs : list ImageMetadata) (i : string)
           (e : Click) (s : Sel.t) : option Sel.t :=
  let newSet := Sel.selectedImageIds s in
  if metaKey e || ctrlKey e then
    if JsSet.has i newSet then
      let newSet1 := JsSet.delete i newSet in
      let newActiveId :=
        if optIs (Sel.selectedImageId s) i then last newSet1 i
        else match guard (truthy (Sel.selectedImageId s))
                         (Sel.selectedImageId s) with
             | Some active => active
             | None => i
             end in
      Some (Sel.mk (Some newActiveId) newSet1)
    else Some (Sel.mk (Some i) (JsSet.add i newSet))
  else
    match guard (shiftKey e && truthy (Sel.selectedImageId s))
                (Sel.selectedImageId s) with
    | Some active =>
        match findIndex (fun img => String.eqb (id img) active) imgs,
              findIndex (fun img => String.eqb (id img) i) imgs with
        | Some startIdx, Some endIdx =>
            match addRange imgs (Nat.min startIdx endIdx)
                           (Nat.max startIdx endIdx) [] with
            | Some range => Some (Sel.mk (Some i) range)
            | None => None
            end
        | _, _ => Some (Sel.mk (Some i) (JsSet.add i newSet))
        end
    | None => Some (Sel.mk (Some i) (JsSet.add i []))
    end.

(** [confirm] is the answer given to [window.confirm]. *)
Definition handleDeleteSelectedImages (confirm : bool)
           (imgs : list ImageMetadata) (s : Sel.t) (store : Db.Store)
  : list ImageMetadata * Sel.t * Db.Store :=
  match Sel.selectedImageIds s with
  | [] => (imgs, s, store)
  | ids =>
      if negb confirm then (imgs, s, store)
      else
        let newImages :=
          filter (fun img => negb (JsSet.has (id img) ids)) imgs in
        (newImages,
         match newImages with
         | first :: _ => Sel.mk (Some (id first)) [id first]
         | [] => Sel.mk None []
         end,
         Db.deleteImages ids store)
  end.

(** *** Labels *)

(** [None] is the [TypeError] of reading [newLabels[0].id] in an empty
    list. *)
Definition handleDeleteLabel (confirm : bool) (labelId : string)
           (labels : list LabelClass.t) (currentLabelId : string)
  : option (list LabelClass.t * string) :=
  if Nat.leb (length labels) 1 then Some (labels, currentLabelId)
  else if negb confirm then Some (labels, currentLabelId)
  else
    let newLabels :=
      filter (fun l => negb (String.eqb (LabelClass.id l) labelId)) labels in
    if String.eqb currentLabelId labelId then
      match newLabels with
      | first :: _ => Some (newLabels, LabelClass.id first)
      | [] => None
      end
    else Some (newLabels, currentLabelId).

(** *** Zoom and pan *)

Record View : Type := mkView { zoom : Q; pan : Point.t }.

(** The "Auto-fit zoom" effect; [editor] is the client size of
    [editorRef.current], when the ref is set. *)
Definition autoFit (img : option LoadedImage) (editor : option (Q * Q))
           (v : View) : View :=
  match img, editor with
  | Some i, Some (clientWidth, clientHeight) =>
      let W := width (loadedMeta i) in
      let H := height (loadedMeta i) in
      if Qgtb W 0 && Qgtb H 0 then
        mkView (if Qgtb W clientWidth || Qgtb H clientHeight
                then Qmin (clientWidth / W) (clientHeight / H) * (9 # 10)
                else 1)
               (Point.mk 0 0)
      else v
  | _, _ => v
  end.

(** The zoom and pan controls, and the canvas's [onPanChange]. *)
Inductive ViewAction : Type :=
| ZoomOut
| ZoomIn
| ResetPan
| PanChange (x y : Q)
| AutoFit (img : option LoadedImage) (editor : option (Q * Q)).

Definition viewStep (v : View) (a : ViewAction) : View :=
  match a with
  | ZoomOut => mkView (Qmax (1 # 10) (zoom v - (1 # 10))) (pan v)
  | ZoomIn => mkView (zoom v + (1 # 10)) (pan v)
  | ResetPan => mkView (zoom v) (Point.mk 0 0)
  | PanChange x y => mkView (zoom v) (Point.mk x y)
  | AutoFit img editor => autoFit img editor v
  end.

(** *** The drop overlay *)

Record Drag : Type := mkDrag { isDragging : bool; dragCounter : Z }.

Inductive DragEvent : Type := DragEnter | DragLeave | DragOver | Drop.

Definition dragStep (d : Drag) (e : DragEvent) : Drag :=
  match e with
  | DragEnter => mkDrag true (dragCounter d + 1)
  | DragLeave =>
      let c := (dragCounter d - 1)%Z in
      mkDrag (if Z.eqb c 0 then false else isDragging d) c
  | DragOver => d
  | Drop => mkDrag false 0
  end.

End App.

(** ** Reading the model's answer ([src/services/geminiService.ts]) *)

Module GeminiService.

(** One element of the parsed JSON array; an absent key is [None]. *)
Record RawItem : Type := mkRaw
  { label : option string; box_2d : option (list Q) }.

Section Parse.
(** [String.prototype.toLowerCase]. *)
Variable toLowerCase : string -> string.
(** [uuid k] is the value of the [k]-th call of [crypto.randomUUID()]. *)
Variable uuid : nat -> string.

(** [l.name.toLowerCase() === res.label?.toLowerCase()] *)
Definition labelMatches (res : RawItem) (l : LabelClass.t) : bool :=
  match label res with
  | Some s => String.eqb (toLowerCase (LabelClass.name l)) (toLowerCase s)
  | None => false
  end.

(** Body of [results.forEach]: the annotation pushed for [res], if any. *)
Definition parseItem (validLabels : list LabelClass.t) (i : string)
           (res : RawItem) : option BBox.t :=
  match find (labelMatches res) validLabels, box_2d res with
  | Some labelObj, Some [ymin; xmin; ymax; xmax] =>
      let w := xmax - xmin in
      let h := ymax - ymin in
      let cx := xmin + w / 2 in
      let cy := ymin + h / 2 in
      if Qgtb w 0 && Qgtb h 0 && Qle_bool w 1 && Qle_bool h 1
      then Some (BBox.mk i (LabelClass.id labelObj) cx cy w h)
      else None
  | _, _ => None
  end.

(** The loop, [k] calls of [crypto.randomUUID()] having been made. *)
Fixpoint parseFrom (k : nat) (results : list RawItem)
         (validLabels : list LabelClass.t) : list BBox.t :=
  match results with
  | [] => []
  | res :: rest =>
      match parseItem validLabels (uuid k) res with
      | Some b => b :: parseFrom (S k) rest validLabels
      | None => parseFrom k rest validLabels
      end
  end.

(** [parseGeminiResponse]; [results] is [None] when the value is not an
    array. *)
Definition parseGeminiResponse (results : option (list RawItem))
           (validLabels : list LabelClass.t) : list BBox.t :=
  match results with
  | Some l => parseFrom 0 l validLabels
  | None => []
  end.
End Parse.

End GeminiService.

(** ** Predicates used for the application *)

(** The selection the sidebar shows: a set without repetition or empty id,
    and an active image that belongs to it whenever the set is not empty. *)
Definition sel_ok (s : App.Sel.t) : Prop :=
  NoDup (App.Sel.selectedImageIds s) /\
  Forall (fun i => i <> EmptyString) (App.Sel.selectedImageIds s) /\
  (App.Sel.selectedImageIds s = [] \/
   exists a, App.Sel.selectedImageId s = Some a /\
             In a (App.Sel.selectedImageIds s)).

(** The ids of the images at positions [low..high] of the list. *)
Definition idsBetween (imgs : list App.ImageMetadata) (low high : nat)
           (x : string) : Prop :=
  exists k m, (low <= k <= high)%nat /\ nth_error imgs k = Some m /\
              App.id m = x.

(** Records are stored under their own id ([keyPath: 'id']). *)
Definition keyed (s : App.Db.Store) : Prop :=
  forall k img, s k = Some img -> App.id (App.meta img) = k.

(** What is asked of an auto-fit: the editor pane has a positive size. *)
Definition view_action_ok (a : App.ViewAction) : Prop :=
  match a with
  | App.AutoFit _ (Some (clientWidth, clientHeight)) =>
      0 < clientWidth /\ 0 < clientHeight
  | _ => True
  end.

(** Drag events as a browser sends them over nested elements: a leave only
    after the matching enter; [depth] counts the elements entered. *)
Fixpoint wellNested (depth : Z) (evs : list App.DragEvent) : bool :=
  match evs with
  | [] => true
  | App.DragEnter :: rest => wellNested (depth + 1) rest
  | App.DragLeave :: rest => Z.ltb 0 depth && wellNested (depth - 1) rest
  | App.DragOver :: rest => wellNested depth rest
  | App.Drop :: rest => wellNested 0 rest
  end.

(** The overlay is shown exactly while something is dragged over the
    window. *)
Definition overlay_ok (d : App.Drag) : Prop :=
  (0 <= App.dragCounter d)%Z /\
  App.isDragging d = Z.ltb 0 (App.dragCounter d).

(** The annotation a gesture is started on: the one pressed, or for a
    handle the selected one ([sel] is the selection at the press). *)
Definition touches (d : Down) (sel : option string) (b : BBox.t) : bool :=
  match d with
  | DownCanvas _ => false
  | DownAnnotation _ i => String.eqb (BBox.id b) i
  | DownHandle _ _ _ => idIs sel b
  end.

(** ** Comparisons *)

Lemma Qltb_true (a b : Q) : Qltb a b = true <-> a < b.
Proof.
  unfold Qltb. rewrite negb_true_iff, <- not_true_iff_false, Qle_bool_iff.
  split; [apply Qnot_le_lt | apply Qlt_not_le].
Qed.

Lemma Qltb_false (a b : Q) : Qltb a b = false <-> b <= a.
Proof.
  unfold Qltb. rewrite negb_false_iff. apply Qle_bool_iff.
Qed.

(** ** The scan loop *)

Lemma dist_nonneg (v c : Q) : 0 <= dist v c.
Proof. apply Qabs_nonneg. Qed.

Lemma snapScan_app (v : Q) (l : list Q) (x t : Q) :
  snapScan v (l ++ [x]) t = snapStep v (snapScan v l t) x.
Proof. unfold snapScan. now rewrite fold_left_app. Qed.

Lemma nth_error_snoc_inv {A} (l : list A) (x : A) (j : nat) (y : A) :
  nth_error (l ++ [x]) j = Some y ->
  nth_error l j = Some y \/ (j = length l /\ y = x).
Proof.
  intros E. destruct (Nat.lt_ge_cases j (length l)) as [Hj | Hj].
  - left. now rewrite nth_error_app1 in E.
  - right. rewrite nth_error_app2 in E by exact Hj.
    destruct (j - length l)%nat as [|k] eqn:Ek; cbn in E.
    + inversion E. split; [lia | reflexivity].
    + destruct k; discriminate.
Qed.

Lemma snapScan_inv (v t : Q) (l : list Q) : scan_inv v l t (snapScan v l t).
Proof.
  induction l as [|x l IH] using rev_ind.
  - left. cbn. repeat split; auto. intros c [].
  - rewrite snapScan_app. unfold snapStep.
    destruct (Qltb (dist v x) (minD (snapScan v l t))) eqn:E.
    + apply Qltb_true in E. right. cbn. repeat split.
      exists (length l). destruct IH as [(_ & _ & Hm & Hall) | (_ & Hm & i & Hi & Hlt & Hmin & Hfirst)].
      * rewrite Hm in E. repeat split.
        -- rewrite nth_error_app2, Nat.sub_diag by lia. reflexivity.
        -- exact E.
        -- intros j cj Hj. apply nth_error_snoc_inv in Hj as [Hj | [_ ->]].
           ++ apply nth_error_In in Hj. specialize (Hall _ Hj). lra.
           ++ lra.
        -- intros j cj Hlt Hj. rewrite nth_error_app1 in Hj by exact Hlt.
           apply nth_error_In in Hj. specialize (Hall _ Hj). lra.
      * rewrite Hm in E. repeat split.
        -- rewrite nth_error_app2, Nat.sub_diag by lia. reflexivity.
        -- lra.
        -- intros j cj Hj. apply nth_error_snoc_inv in Hj as [Hj | [_ ->]].
           ++ specialize (Hmin _ _ Hj). lra.
           ++ lra.
        -- intros j cj Hj' Hj. rewrite nth_error_app1 in Hj by exact Hj'.
           specialize (Hmin _ _ Hj). lra.
    + apply Qltb_false in E.
      destruct IH as [(Hf & Hc & Hm & Hall) | (Hf & Hm & i & Hi & Hlt & Hmin & Hfirst)].
      * left. repeat split; auto. intros c Hin.
        apply in_app_or in Hin as [Hin | [<- | []]]; [auto | now rewrite <- Hm].
      * right. repeat split; auto. exists i. repeat split.
        -- rewrite nth_error_app1; [exact Hi |].
           apply nth_error_Some. now rewrite Hi.
        -- exact Hlt.
        -- intros j cj Hj. apply nth_error_snoc_inv in Hj as [Hj | [_ ->]].
           ++ eauto.
           ++ now rewrite <- Hm.
        -- intros j cj Hj' Hj. apply nth_error_snoc_inv in Hj as [Hj | [-> _]].
           ++ eauto.
           ++ assert (i < length l)%nat by (apply nth_error_Some; now rewrite Hi).
              lia.
Qed.

(** With a non-positive threshold the loop never fires. *)
Lemma snapScan_nonpos (v t : Q) (l : list Q) :
  t <= 0 -> snapScan v l t = mkScan t v false.
Proof.
  intros Ht. induction l as [|x l IH] using rev_ind; [reflexivity |].
  rewrite snapScan_app, IH. unfold snapStep. cbn [minD].
  assert (E : Qltb (dist v x) t = false).
  { apply Qltb_false. pose proof (dist_nonneg v x). lra. }
  now rewrite E.
Qed.

Lemma scan_meets_spec (v t : Q) (l : list Q) :
  snap_spec v l t (mkSnap (closest (snapScan v l t)) (found (snapScan v l t))).
Proof.
  split.
  - intros Ht. now rewrite snapScan_nonpos.
  - intros _. destruct (snapScan_inv v t l) as [(Hf & Hc & _ & Hall) | (Hf & _ & Hfn)].
    + right. rewrite Hf, Hc. auto.
    + left. exists (closest (snapScan v l t)). rewrite Hf. auto.
Qed.

Lemma Qdiv_nonpos (a z : Q) : 0 < z -> a <= 0 -> a / z <= 0.
Proof.
  intros Hz Ha. unfold Qdiv.
  pose proof (Qinv_lt_0_compat z Hz) as Hi. nra.
Qed.

Lemma Qdiv_pos (a z : Q) : 0 < z -> 0 < a -> 0 < a / z.
Proof.
  intros Hz Ha. unfold Qdiv.
  pose proof (Qinv_lt_0_compat z Hz) as Hi. nra.
Qed.

(** C5: for every value, candidate sequence and threshold, the snap function
    returns the value unsnapped when the threshold is not positive; with a
    positive threshold it returns the first candidate, in sequence order,
    that attains the minimum distance when that minimum is strictly below the
    threshold, and the value unsnapped otherwise.  The history-enabled canvas
    is called with the threshold [SNAP_DIST_PX / zoom] and tests
    [SNAP_DIST_PX <= 0]; the earlier canvas has no such test and meets the
    statement for any threshold. *)
Theorem getClosestSnap_meets_spec (SNAP_DIST_PX zoom t v : Q) (lines : list Q) :
  (0 < zoom ->
   snap_spec v lines (SNAP_DIST_PX / zoom)
     (Canvas.getClosestSnap SNAP_DIST_PX v lines (SNAP_DIST_PX / zoom)))
  /\ snap_spec v lines t (LegacyCanvas.getClosestSnap v lines t).
Proof.
  split; [intros Hz | apply scan_meets_spec].
  unfold Canvas.getClosestSnap.
  destruct (Qle_bool SNAP_DIST_PX 0) eqn:E; [| apply scan_meets_spec].
  apply Qle_bool_iff in E. split; [reflexivity |].
  intros Ht. pose proof (Qdiv_nonpos _ _ Hz E). lra.
Qed.

(** The query of section 8: [closestSnap(5, [0,10,20], 6)] is [{0, true}]. *)
Lemma getClosestSnap_meets_spec_witness :
  0 < 1 /\
  snap_spec 5 [0; 10; 20] (6 / 1) (Canvas.getClosestSnap 6 5 [0; 10; 20] (6 / 1)) /\
  Canvas.getClosestSnap 6 5 [0; 10; 20] (6 / 1) = mkSnap 0 true.
Proof.
  split; [reflexivity |].
  split; [| reflexivity].
  apply (proj1 (getClosestSnap_meets_spec 6 1 0 5 [0; 10; 20])). reflexivity.
Defined.

(** ** The move branch *)

Lemma moveAxis_placed (raw size : Q) (lead trail : SnapResult) :
  axis_placed raw size lead trail (fst (moveAxis raw size lead trail)).
Proof.
  unfold axis_placed, moveAxis.
  destruct (snapped lead), (snapped trail); cbn;
    repeat split; intros; try discriminate; try reflexivity; ring.
Qed.

Lemma moveRect_placed snap t xLines yLines init start pos :
  move_placed snap t xLines yLines init start pos
              (fst (moveRect snap t xLines yLines init start pos)).
Proof.
  unfold move_placed, moveRect.
  set (rawX := Rect.x init + (Point.x pos - Point.x start)).
  set (rawY := Rect.y init + (Point.y pos - Point.y start)).
  pose proof (moveAxis_placed rawX (Rect.w init) (snap rawX xLines t)
                (snap (rawX + Rect.w init) xLines t)) as HX.
  pose proof (moveAxis_placed rawY (Rect.h init) (snap rawY yLines t)
                (snap (rawY + Rect.h init) yLines t)) as HY.
  destruct (moveAxis rawX _ _ _) as [fx gx].
  destruct (moveAxis rawY _ _ _) as [fy gy].
  cbn in *. auto.
Qed.


Lemma guard_none {A} (b : bool) : @guard A b None = None.
Proof. now destruct b. Qed.



(** ** Rendering and the history effect *)

Ltac break_match :=
  repeat match goal with
         | |- context [match ?x with _ => _ end] =>
             lazymatch x with
             | context [match _ with _ => _ end] => fail
             | _ => destruct x eqn:?
             end
         end.

Lemma same_ref_refl (a : AnnArray) : same_ref a a = true.
Proof. apply Nat.eqb_refl. Qed.

Lemma same_ref_false (a b : AnnArray) : same_ref a b = false <-> ref a <> ref b.
Proof. apply Nat.eqb_neq. Qed.

Lemma depsChanged_same (p : Canvas.Props) : Canvas.depsChanged p p = false.
Proof.
  unfold Canvas.depsChanged. now rewrite String.eqb_refl, same_ref_refl.
Qed.

(** Rendering with unchanged props leaves the state alone. *)
Lemma render_same (w : Canvas.World) (s' : Canvas.State) :
  Canvas.state (Canvas.render w (Canvas.props w) s') = s' /\
  Canvas.props (Canvas.render w (Canvas.props w) s') = Canvas.props w.
Proof.
  unfold Canvas.render. rewrite depsChanged_same. now destruct s'.
Qed.

Lemma render_synced (w : Canvas.World) (p' : Canvas.Props) (s' : Canvas.State) :
  Canvas.History.prevImageIdRef (Canvas.hist s')
  = Image.id (Canvas.image (Canvas.props w)) ->
  synced (Canvas.render w p' s').
Proof.
  intros Hs. unfold synced, Canvas.render. cbn.
  destruct (Canvas.depsChanged (Canvas.props w) p') eqn:Ed.
  - unfold Canvas.historyEffect.
    destruct (String.eqb (Image.id (Canvas.image p'))
                (Canvas.History.prevImageIdRef (Canvas.hist s'))) eqn:E; cbn.
    + apply String.eqb_eq in E.
      destruct (same_ref _ _); cbn; [easy |].
      destruct (Canvas.History.isHistoryAction _); [easy |].
      now destruct (Canvas.History.isUndoRedo _).
    + reflexivity.
  - unfold Canvas.depsChanged in Ed. apply orb_false_iff in Ed as [Ed _].
    apply negb_false_iff, String.eqb_eq in Ed. congruence.
Qed.

(** No handler writes the image-id ref. *)
Lemma dispatch_keeps_prevImageId (w : Canvas.World) (ev : Canvas.Event) :
  Canvas.History.prevImageIdRef (Canvas.hist (fst (Canvas.dispatch w ev)))
  = Canvas.History.prevImageIdRef (Canvas.hist (Canvas.state w)).
Proof.
  unfold Canvas.dispatch.
  destruct ev; try reflexivity;
    repeat match goal with
           | |- context [if ToolMode_eqb ?a ?b then _ else _] =>
               destruct (ToolMode_eqb a b)
           end.
  all: try (unfold Canvas.handleMouseDown; now destruct (Canvas.mode _)).
  - unfold Canvas.handleAnnotationMouseDown. now break_match.
  - unfold Canvas.handleResizeMouseDown. now break_match.
  - unfold Canvas.handleMouseMove. now break_match.
  - unfold Canvas.handleMouseUp, Canvas.commitHistory. cbn. now break_match.
  - unfold Canvas.performUndo. now break_match.
  - unfold Canvas.performRedo. now break_match.
Qed.

Lemma react_synced (w : Canvas.World) (ev : Canvas.Event) :
  synced w -> synced (Canvas.react w ev).
Proof.
  intros Hs. apply render_synced.
  rewrite dispatch_keeps_prevImageId. exact Hs.
Qed.

Lemma run_snoc (w : Canvas.World) (evs : list Canvas.Event) (ev : Canvas.Event) :
  Canvas.run w (evs ++ [ev]) = Canvas.react (Canvas.run w evs) ev.
Proof. unfold Canvas.run. now rewrite fold_left_app. Qed.

Lemma reachable_synced (w : Canvas.World) : reachable w -> synced w.
Proof.
  intros (p & c & evs & ->).
  induction evs as [|ev evs IH] using rev_ind; [reflexivity |].
  rewrite run_snoc. now apply react_synced.
Qed.

(** ** Undo and redo *)

Lemma last_cons_self {A} (x : A) (l : list A) : last l x = last (x :: l) x.
Proof. now destruct l. Qed.

Lemma performUndo_empty (p : Canvas.Props) (s : Canvas.State) :
  Canvas.History.undoStack (Canvas.hist s) = [] ->
  Canvas.performUndo p s = (s, []).
Proof. unfold Canvas.performUndo. now intros ->. Qed.

Lemma performRedo_empty (p : Canvas.Props) (s : Canvas.State) :
  Canvas.History.redoStack (Canvas.hist s) = [] ->
  Canvas.performRedo p s = (s, []).
Proof. unfold Canvas.performRedo. now intros ->. Qed.

Lemma performUndo_snoc (p : Canvas.Props) (s : Canvas.State)
      (us : list AnnArray) (top : AnnArray) :
  Canvas.History.undoStack (Canvas.hist s) = us ++ [top] ->
  Canvas.performUndo p s
  = (Canvas.mkState (Canvas.ui s)
       (Canvas.History.setUndoStack us
          (Canvas.History.setRedoStack
             (Canvas.History.redoStack (Canvas.hist s) ++ [Canvas.anns p])
             (Canvas.History.setIsUndoRedo true (Canvas.hist s)))),
     [OnUpdateAnnotations top]).
Proof.
  intros E. unfold Canvas.performUndo.
  destruct (Canvas.History.undoStack (Canvas.hist s)) as [|f o] eqn:Eu.
  - now destruct us.
  - rewrite last_cons_self, E, last_last. cbn.
    rewrite Eu, E, removelast_last. reflexivity.
Qed.

Lemma performRedo_snoc (p : Canvas.Props) (s : Canvas.State)
      (rs : list AnnArray) (top : AnnArray) :
  Canvas.History.redoStack (Canvas.hist s) = rs ++ [top] ->
  Canvas.performRedo p s
  = (Canvas.mkState (Canvas.ui s)
       (Canvas.History.setRedoStack rs
          (Canvas.History.setUndoStack
             (Canvas.History.undoStack (Canvas.hist s) ++ [Canvas.anns p])
             (Canvas.History.setIsUndoRedo true (Canvas.hist s)))),
     [OnUpdateAnnotations top]).
Proof.
  intros E. unfold Canvas.performRedo.
  destruct (Canvas.History.redoStack (Canvas.hist s)) as [|f o] eqn:Eu.
  - now destruct rs.
  - rewrite last_cons_self, E, last_last. cbn.
    rewrite Eu, E, removelast_last. reflexivity.
Qed.

(** The effect does not record a change flagged as the manager's own. *)
Lemma historyEffect_flagged (p : Canvas.Props) (h : Canvas.History.t) :
  Canvas.History.prevImageIdRef h = Image.id (Canvas.image p) ->
  Canvas.History.isUndoRedo h = true ->
  Canvas.History.undoStack (Canvas.historyEffect p h)
  = Canvas.History.undoStack h /\
  Canvas.History.redoStack (Canvas.historyEffect p h)
  = Canvas.History.redoStack h.
Proof.
  intros Hid Hf. unfold Canvas.historyEffect.
  rewrite Hid, String.eqb_refl, Hf. cbn.
  now break_match.
Qed.

Lemma undo_step (w : Canvas.World) (us : list AnnArray) (top : AnnArray) :
  synced w ->
  Canvas.undoStackOf w = us ++ [top] ->
  let w' := Canvas.react w Canvas.Undo in
  Canvas.current w' = top /\
  Canvas.undoStackOf w' = us /\
  Canvas.redoStackOf w' = Canvas.redoStackOf w ++ [Canvas.current w].
Proof.
  intros Hs E. unfold Canvas.react, Canvas.dispatch. cbn [Canvas.hostProps].
  rewrite (performUndo_snoc _ _ us top E). cbn [fst snd fold_left].
  unfold Canvas.render, Canvas.current, Canvas.undoStackOf, Canvas.redoStackOf.
  cbn [Canvas.props Canvas.state Canvas.hist].
  split; [now destruct (Canvas.props w) |].
  destruct (Canvas.depsChanged _ _); [| now cbn].
  match goal with
  | |- context [Canvas.historyEffect ?p ?h] =>
      destruct (historyEffect_flagged p h) as [-> ->]
  end; [| reflexivity | now cbn].
  cbn. unfold synced in Hs. rewrite Hs. now destruct (Canvas.props w).
Qed.

Lemma redo_step (w : Canvas.World) (rs : list AnnArray) (top : AnnArray) :
  synced w ->
  Canvas.redoStackOf w = rs ++ [top] ->
  let w' := Canvas.react w Canvas.Redo in
  Canvas.current w' = top /\
  Canvas.redoStackOf w' = rs /\
  Canvas.undoStackOf w' = Canvas.undoStackOf w ++ [Canvas.current w].
Proof.
  intros Hs E. unfold Canvas.react, Canvas.dispatch. cbn [Canvas.hostProps].
  rewrite (performRedo_snoc _ _ rs top E). cbn [fst snd fold_left].
  unfold Canvas.render, Canvas.current, Canvas.undoStackOf, Canvas.redoStackOf.
  cbn [Canvas.props Canvas.state Canvas.hist].
  split; [now destruct (Canvas.props w) |].
  destruct (Canvas.depsChanged _ _); [| now cbn].
  match goal with
  | |- context [Canvas.historyEffect ?p ?h] =>
      destruct (historyEffect_flagged p h) as [-> ->]
  end; [| reflexivity | now cbn].
  cbn. unfold synced in Hs. rewrite Hs. now destruct (Canvas.props w).
Qed.

Lemma undo_noop (w : Canvas.World) :
  Canvas.undoStackOf w = [] ->
  Canvas.props (Canvas.react w Canvas.Undo) = Canvas.props w /\
  Canvas.state (Canvas.react w Canvas.Undo) = Canvas.state w.
Proof.
  intros E. unfold Canvas.react, Canvas.dispatch. cbn [Canvas.hostProps].
  rewrite (performUndo_empty _ _ E). cbn [fst snd fold_left].
  destruct (render_same w (Canvas.state w)). auto.
Qed.

Lemma redo_noop (w : Canvas.World) :
  Canvas.redoStackOf w = [] ->
  Canvas.props (Canvas.react w Canvas.Redo) = Canvas.props w /\
  Canvas.state (Canvas.react w Canvas.Redo) = Canvas.state w.
Proof.
  intros E. unfold Canvas.react, Canvas.dispatch. cbn [Canvas.hostProps].
  rewrite (performRedo_empty _ _ E). cbn [fst snd fold_left].
  destruct (render_same w (Canvas.state w)). auto.
Qed.

(** ** Switching the image *)

(** C8: when the edited image changes to one with a different id, the undo
    and the redo stack become empty, so an undo or a redo invoked right after
    the switch changes nothing: no history crosses from one image to the
    next. *)
Theorem image_switch_clears_history
        (w : Canvas.World) (id : string) (width height : Q)
        (newItems : list BBox.t) :
  reachable w ->
  id <> Image.id (Canvas.image (Canvas.props w)) ->
  let w' := Canvas.react w (Canvas.HostSwitch id width height newItems) in
  Canvas.undoStackOf w' = [] /\
  Canvas.redoStackOf w' = [] /\
  (Canvas.props (Canvas.react w' Canvas.Undo) = Canvas.props w' /\
   Canvas.state (Canvas.react w' Canvas.Undo) = Canvas.state w') /\
  (Canvas.props (Canvas.react w' Canvas.Redo) = Canvas.props w' /\
   Canvas.state (Canvas.react w' Canvas.Redo) = Canvas.state w').
Proof.
  intros Hr Hid w'.
  assert (Hs : synced w) by now apply reachable_synced.
  assert (E : Canvas.undoStackOf w' = [] /\ Canvas.redoStackOf w' = []).
  { subst w'. unfold Canvas.react, Canvas.render, Canvas.dispatch,
      Canvas.undoStackOf, Canvas.redoStackOf.
    cbn [fst snd fold_left Canvas.hostProps Canvas.state Canvas.hist
         Canvas.props].
    assert (Ed : String.eqb id (Image.id (Canvas.image (Canvas.props w)))
                 = false) by now apply String.eqb_neq.
    unfold Canvas.depsChanged. cbn [Canvas.image Canvas.setImage Image.id].
    rewrite String.eqb_sym, Ed. cbn [negb orb].
    unfold Canvas.historyEffect. cbn [Canvas.image Canvas.setImage Image.id].
    unfold synced in Hs. rewrite Hs, Ed. now cbn. }
  destruct E as [Eu Er]. repeat split; auto.
  1-2: now apply undo_noop.
  1-2: now apply redo_noop.
Qed.

(** ** Gestures and the history manager *)

Lemma guard_some {A} (b : bool) (o : option A) (x : A) :
  guard b o = Some x -> b = true /\ o = Some x.
Proof. destruct b; cbn; [auto | discriminate]. Qed.

Lemma ToolMode_eqb_eq (a b : ToolMode) : ToolMode_eqb a b = true <-> a = b.
Proof. destruct a, b; cbn; split; congruence. Qed.

Lemma render_hist_unchanged (w : Canvas.World) (p' : Canvas.Props)
      (s' : Canvas.State) :
  Canvas.depsChanged (Canvas.props w) p' = false ->
  Canvas.hist (Canvas.state (Canvas.render w p' s')) = Canvas.hist s'.
Proof. unfold Canvas.render. now intros ->. Qed.

(** While a gesture is flagged the effect records nothing. *)
Lemma render_hist_in_action (w : Canvas.World) (p' : Canvas.Props)
      (s' : Canvas.State) :
  Canvas.History.prevImageIdRef (Canvas.hist s') = Image.id (Canvas.image p') ->
  Canvas.History.isHistoryAction (Canvas.hist s') = true ->
  Canvas.hist (Canvas.state (Canvas.render w p' s')) = Canvas.hist s'.
Proof.
  intros Hid Hf. unfold Canvas.render. cbn.
  destruct (Canvas.depsChanged _ _); [| reflexivity].
  unfold Canvas.historyEffect. rewrite Hid, String.eqb_refl, Hf. cbn.
  now destruct (same_ref _ _).
Qed.

(** A pointer-move leaves the history hooks alone, keeps the resize handle
    and the dragged id, and commits at most one freshly built list, which it
    does only in select mode with a handle or a dragged annotation. *)
Lemma handleMouseMove_shape (p : Canvas.Props) (c : option Point.t)
      (fresh : nat) (e : MouseEvent) (s : Canvas.State) :
  let r := Canvas.handleMouseMove p c fresh e s in
  Canvas.hist (fst r) = Canvas.hist s /\
  UI.resizeHandle (Canvas.ui (fst r)) = UI.resizeHandle (Canvas.ui s) /\
  UI.draggingAnnotationId (Canvas.ui (fst r))
  = UI.draggingAnnotationId (Canvas.ui s) /\
  (snd r = [] \/
   (exists x y, snd r = [OnPanChange x y]) \/
   (exists l, snd r = [OnUpdateAnnotations (mkArr fresh l)] /\
              Canvas.mode p = SELECT /\
              (UI.resizeHandle (Canvas.ui s) <> None \/
               UI.draggingAnnotationId (Canvas.ui s) <> None))).
Proof.
  unfold Canvas.handleMouseMove. cbn zeta.
  break_match; cbn [fst snd Canvas.hist Canvas.ui UI.resizeHandle
                    UI.draggingAnnotationId UI.setDragStart
                    UI.setActiveSnapLines UI.setActiveCreation];
    repeat match goal with
           | H : (_, _) = (_, _) |- _ => inversion H; subst; clear H
           | H : guard _ _ = Some _ |- _ =>
               apply guard_some in H as [? ?]
           | H : (_ && _)%bool = true |- _ =>
               apply andb_true_iff in H as [? ?]
           | H : ToolMode_eqb _ _ = true |- _ =>
               apply ToolMode_eqb_eq in H
           end;
    repeat split; eauto 6;
    try (right; right; eexists; repeat split; eauto; fail).
  all: right; right; eexists; repeat split; eauto;
    first [ left; congruence
          | right; intros E; rewrite E in *; discriminate ].
Qed.

Lemma depsChanged_setPan (p : Canvas.Props) (v : Point.t) :
  Canvas.depsChanged p (Canvas.setPan v p) = false.
Proof.
  unfold Canvas.depsChanged, Canvas.anns. cbn.
  now rewrite String.eqb_refl, same_ref_refl.
Qed.

Lemma depsChanged_setSelected (p : Canvas.Props) (v : option string) :
  Canvas.depsChanged p (Canvas.setSelected v p) = false.
Proof.
  unfold Canvas.depsChanged, Canvas.anns. cbn.
  now rewrite String.eqb_refl, same_ref_refl.
Qed.

(** A pointer-move keeps the gesture invariant: nothing reaches the stacks. *)
Lemma in_gesture_move (w0 w : Canvas.World) (e : MouseEvent) :
  synced w0 ->
  in_gesture w0 w ->
  in_gesture w0 (Canvas.react w (Canvas.MouseMove e)).
Proof.
  intros Hs0 (Hid & Hm & Hu & Hr & Hp & Hpi & Hur & Hn & Hlt & Hcur & Hds & Hnf).
  pose proof (handleMouseMove_shape (Canvas.props w) (Canvas.container w)
                (Canvas.nextRef w) e (Canvas.state w)) as (Hh & Hrh & Hdi & Hc).
  unfold Canvas.react, Canvas.dispatch. cbn [Canvas.hostProps].
  set (r := Canvas.handleMouseMove _ _ _ _ _) in *.
  assert (Hsync : Canvas.History.prevImageIdRef (Canvas.hist (fst r))
                  = Image.id (Canvas.image (Canvas.props w))).
  { rewrite Hh, Hpi, Hid. exact Hs0. }
  destruct Hc as [Hc | [(x & y & Hc) | (l & Hc & Hsel & Hact)]];
    rewrite Hc; cbn [fold_left Canvas.applyCallback].
  - destruct (render_same w (fst r)) as [Es Ep].
    unfold in_gesture, Canvas.current. rewrite Es, Ep, Hh, Hrh, Hdi.
    cbn [Canvas.render Canvas.nextRef].
    repeat split; auto; try (apply Hnf; assumption).
  - pose proof (render_hist_unchanged w _ (fst r)
                  (depsChanged_setPan (Canvas.props w) (Point.mk x y))) as Eh.
    unfold in_gesture, Canvas.current. rewrite Eh, Hh.
    cbn [Canvas.render Canvas.nextRef Canvas.props Canvas.state Canvas.ui].
    rewrite Hrh, Hdi.
    unfold Canvas.anns, Canvas.setPan. cbn [Canvas.image Canvas.mode].
    repeat split; auto; try (apply Hnf; assumption).
  - destruct (Canvas.History.isHistoryAction (Canvas.hist (Canvas.state w)))
      eqn:Ef.
    2: { destruct (Hnf eq_refl) as [E1 E2]. destruct Hact; contradiction. }
    assert (Eh : Canvas.hist (Canvas.state
                   (Canvas.render w
                      (Canvas.setImage
                         (Image.set_annotations (mkArr (Canvas.nextRef w) l)
                            (Canvas.image (Canvas.props w))) (Canvas.props w))
                      (fst r))) = Canvas.hist (fst r)).
    { apply render_hist_in_action; [exact Hsync | now rewrite Hh]. }
    unfold in_gesture, Canvas.current. rewrite Eh, Hh.
    cbn [Canvas.render Canvas.nextRef Canvas.props Canvas.state Canvas.ui].
    rewrite Hrh, Hdi.
    unfold Canvas.anns, Canvas.setImage.
    cbn [Canvas.image Canvas.mode Image.set_annotations Image.annotations
         Image.id ref].
    repeat split; auto; try discriminate; try lia; congruence.
Qed.

Lemma in_gesture_moves (w0 : Canvas.World) (moves : list Canvas.Event) :
  synced w0 ->
  Forall pointer_move moves ->
  forall w, in_gesture w0 w -> in_gesture w0 (Canvas.run w moves).
Proof.
  intros Hs0 Hall. induction Hall as [|ev moves Hev _ IH]; intros w Hg.
  - exact Hg.
  - cbn [Canvas.run fold_left]. apply IH.
    destruct ev; try contradiction. now apply in_gesture_move.
Qed.

(** A pointer-down selects at most, and either opens a history action or
    leaves the history, the resize handle and the dragged id as they were. *)
Lemma pointer_down_shape (w : Canvas.World) (ev : Canvas.Event) :
  pointer_down ev ->
  let r := Canvas.dispatch w ev in
  let s := Canvas.state w in
  (snd r = [] \/ exists i, snd r = [OnSelectAnnotation i]) /\
  (Canvas.hist (fst r)
   = Canvas.startHistoryAction (Canvas.props w) (Canvas.hist s)
   \/
   (Canvas.hist (fst r) = Canvas.hist s /\
    UI.resizeHandle (Canvas.ui (fst r)) = UI.resizeHandle (Canvas.ui s) /\
    UI.draggingAnnotationId (Canvas.ui (fst r))
    = UI.draggingAnnotationId (Canvas.ui s))).
Proof.
  intros Hd. destruct ev; try contradiction; cbn [Canvas.dispatch];
    unfold Canvas.handleAnnotationMouseDown, Canvas.handleResizeMouseDown,
      Canvas.handleMouseDown;
    break_match; cbn [fst snd Canvas.hist Canvas.ui]; try discriminate;
    split; eauto.
Qed.

Lemma in_gesture_down (w : Canvas.World) (ev : Canvas.Event) :
  idle w -> settled w -> pointer_down ev ->
  in_gesture w (Canvas.react w ev).
Proof.
  intros (_ & _ & _ & Hdi & Hrh & _) (Hs & Hp & Hur & Hf & Hlt) Hd.
  pose proof (pointer_down_shape w ev Hd) as (Hc & Hh).
  assert (Hhost : Canvas.hostProps w ev = Canvas.props w)
    by (destruct ev; try contradiction; reflexivity).
  unfold Canvas.react. rewrite Hhost.
  set (r := Canvas.dispatch w ev) in *.
  assert (Eh : exists p',
             Canvas.react w ev = Canvas.render w p' (fst r) /\
             Canvas.hist (Canvas.state (Canvas.render w p' (fst r)))
             = Canvas.hist (fst r) /\
             Canvas.anns p' = Canvas.current w /\
             Image.id (Canvas.image p') = Image.id (Canvas.image (Canvas.props w)) /\
             Canvas.mode p' = Canvas.mode (Canvas.props w)).
  { destruct Hc as [Hc | [i Hc]].
    - exists (Canvas.props w). unfold Canvas.react. rewrite Hhost. fold r.
      rewrite Hc. cbn [fold_left].
      destruct (render_same w (fst r)) as [Es _]. rewrite Es. auto.
    - exists (Canvas.setSelected i (Canvas.props w)).
      unfold Canvas.react. rewrite Hhost. fold r.
      rewrite Hc. cbn [fold_left Canvas.applyCallback].
      rewrite render_hist_unchanged by apply depsChanged_setSelected. auto. }
  destruct Eh as (p' & Er & Ehist & Ea & Ei & Em).
  unfold Canvas.react in Er. rewrite Hhost in Er. fold r in Er. rewrite Er.
  unfold in_gesture. rewrite Ehist.
  unfold Canvas.current at 1 2.
  cbn [Canvas.render Canvas.props Canvas.nextRef Canvas.state Canvas.ui].
  rewrite Ea.
  destruct Hh as [Hh | (Hh & Erh & Edi)]; rewrite Hh.
  - unfold Canvas.startHistoryAction. cbn.
    repeat split; auto; try discriminate; lia.
  - rewrite Erh, Edi.
    repeat split; auto; try congruence; lia.
Qed.

Lemma handleMouseUp_shape (p : Canvas.Props) (fresh : nat) (uuid : string)
      (s : Canvas.State) :
  let r := Canvas.handleMouseUp p fresh uuid s in
  fst r = Canvas.mkState (Canvas.resetUI (Canvas.ui s))
                         (Canvas.commitHistory p (Canvas.hist s)) /\
  (snd r = [] \/
   (Canvas.mode p = DRAW /\
    exists l i, snd r = [OnUpdateAnnotations (mkArr fresh l);
                         OnSelectAnnotation i])).
Proof.
  unfold Canvas.handleMouseUp. cbn zeta. split; [reflexivity |].
  cbn [snd]. break_match; auto.
  apply guard_some in Heqo as [Hm _]. apply ToolMode_eqb_eq in Hm.
  right. eauto.
Qed.

(** What [commitHistory] leaves when nothing changed during the gesture. *)
Lemma commitHistory_kept (p : Canvas.Props) (h : Canvas.History.t) :
  (Canvas.History.isHistoryAction h = true ->
   Canvas.History.dragStartAnnotationsRef h = Canvas.anns p) ->
  let h1 := Canvas.commitHistory p h in
  Canvas.History.undoStack h1 = Canvas.History.undoStack h /\
  Canvas.History.redoStack h1 = Canvas.History.redoStack h /\
  Canvas.History.prevAnnotationsRef h1 = Canvas.History.prevAnnotationsRef h /\
  Canvas.History.prevImageIdRef h1 = Canvas.History.prevImageIdRef h /\
  Canvas.History.isUndoRedo h1 = Canvas.History.isUndoRedo h /\
  Canvas.History.isHistoryAction h1 = false.
Proof.
  intros Hd. unfold Canvas.commitHistory.
  destruct (Canvas.History.isHistoryAction h) eqn:Ef; [| now cbn].
  rewrite (Hd eq_refl), same_ref_refl. now cbn.
Qed.

(** What [commitHistory] does when the list is another array. *)
Lemma commitHistory_pushed (p : Canvas.Props) (h : Canvas.History.t) :
  Canvas.History.isHistoryAction h = true ->
  same_ref (Canvas.anns p) (Canvas.History.dragStartAnnotationsRef h) = false ->
  let h1 := Canvas.commitHistory p h in
  Canvas.History.undoStack h1
  = Canvas.History.undoStack h ++ [Canvas.History.dragStartAnnotationsRef h] /\
  Canvas.History.redoStack h1 = [] /\
  Canvas.History.prevAnnotationsRef h1 = Canvas.anns p /\
  Canvas.History.prevImageIdRef h1 = Canvas.History.prevImageIdRef h /\
  Canvas.History.isUndoRedo h1 = Canvas.History.isUndoRedo h /\
  Canvas.History.isHistoryAction h1 = false.
Proof.
  intros Hf Hr. unfold Canvas.commitHistory. rewrite Hf, Hr. now cbn.
Qed.

(** Outside a gesture, a change of the list that is not the manager's own
    is recorded by the effect: previous list pushed, redo stack cleared. *)
Lemma render_records_change (w : Canvas.World) (p' : Canvas.Props)
      (s' : Canvas.State) :
  Image.id (Canvas.image p')
  = Canvas.History.prevImageIdRef (Canvas.hist s') ->
  same_ref (Canvas.anns (Canvas.props w)) (Canvas.anns p') = false ->
  same_ref (Canvas.anns p')
           (Canvas.History.prevAnnotationsRef (Canvas.hist s')) = false ->
  Canvas.History.isHistoryAction (Canvas.hist s') = false ->
  Canvas.History.isUndoRedo (Canvas.hist s') = false ->
  let h' := Canvas.hist (Canvas.state (Canvas.render w p' s')) in
  Canvas.History.undoStack h'
  = Canvas.History.undoStack (Canvas.hist s')
    ++ [Canvas.History.prevAnnotationsRef (Canvas.hist s')] /\
  Canvas.History.redoStack h' = [] /\
  Canvas.History.prevAnnotationsRef h' = Canvas.anns p' /\
  Canvas.History.prevImageIdRef h'
  = Canvas.History.prevImageIdRef (Canvas.hist s') /\
  Canvas.History.isUndoRedo h' = false /\
  Canvas.History.isHistoryAction h' = false.
Proof.
  intros Hid Hdep Hprev Hf Hur. unfold Canvas.render. cbn.
  unfold Canvas.depsChanged. rewrite Hdep, orb_true_r.
  unfold Canvas.historyEffect. rewrite Hid, String.eqb_refl, Hprev, Hf, Hur.
  now cbn.
Qed.

(** Pointer-up after a gesture started on a settled world. *)
Lemma gesture_finish (w0 w : Canvas.World) (uuid : string) :
  settled w0 ->
  in_gesture w0 w ->
  gesture_outcome w0 (Canvas.react w (Canvas.MouseUp uuid)).
Proof.
  intros (Hs0 & Hp0 & Hur0 & Hf0 & Hlt0)
         (Hid & Hm & Hu & Hr & Hp & Hpi & Hur & Hn & Hlt & Hcur & Hds & Hnf).
  pose proof (handleMouseUp_shape (Canvas.props w) (Canvas.nextRef w) uuid
                (Canvas.state w)) as (Efst & Hc).
  unfold Canvas.react, Canvas.dispatch. cbn [Canvas.hostProps].
  set (r := Canvas.handleMouseUp _ _ _ _) in *.
  set (h := Canvas.hist (Canvas.state w)) in *.
  unfold synced in Hs0.
  destruct Hcur as [Hcur | (Hsel & Hflag & Hfresh)].
  - (* nothing was committed before the pointer-up *)
    destruct (commitHistory_kept (Canvas.props w) h)
      as (Eu & Er & Ep & Epi & Eur & Ef).
    { intros Hx. rewrite (Hds Hx). now rewrite <- Hcur. }
    destruct Hc as [Hc | (Hdraw & l & i & Hc)]; rewrite Hc;
      cbn [fold_left Canvas.applyCallback].
    + destruct (render_same w (fst r)) as [Es Ep'].
      unfold gesture_outcome, idle, settled, synced, Canvas.current,
        Canvas.undoStackOf, Canvas.redoStackOf.
      rewrite Es, Ep', Efst. cbn [Canvas.hist Canvas.ui].
      cbn [Canvas.render Canvas.nextRef].
      rewrite Eu, Er, Ep, Epi, Eur, Ef.
      fold (Canvas.current w) in *. unfold Canvas.current in *.
      repeat split; try congruence; try lia.
      left. repeat split; congruence.
    + set (p' := Canvas.setSelected _ _).
      assert (Ea : Canvas.anns p' = mkArr (Canvas.nextRef w) l) by reflexivity.
      assert (Ei : Image.id (Canvas.image p')
                   = Image.id (Canvas.image (Canvas.props w))) by reflexivity.
      destruct (render_records_change w p' (fst r))
        as (Eu' & Er' & Ep' & Epi' & Eur' & Ef').
      * rewrite Efst. cbn [Canvas.hist]. rewrite Epi. congruence.
      * apply same_ref_false. rewrite Ea. cbn. fold (Canvas.current w). lia.
      * rewrite Efst. cbn [Canvas.hist]. rewrite Ep.
        apply same_ref_false. rewrite Ea, Hp, Hp0. cbn. lia.
      * rewrite Efst. exact Ef.
      * rewrite Efst. cbn [Canvas.hist]. congruence.
      * unfold gesture_outcome, idle, settled, synced, Canvas.undoStackOf,
          Canvas.redoStackOf.
        change (Canvas.current (Canvas.render w p' (fst r)))
          with (Canvas.anns p').
        change (Canvas.props (Canvas.render w p' (fst r))) with p'.
        change (Canvas.ui (Canvas.state (Canvas.render w p' (fst r))))
          with (Canvas.ui (fst r)).
        rewrite Eu', Er', Ep', Epi', Eur', Ef', Efst.
        cbn [Canvas.hist Canvas.ui Canvas.render Canvas.nextRef].
        rewrite Eu, Ep, Epi, Ea, Ei. cbn [ref].
        repeat split; try congruence; try lia.
        right. repeat split; try congruence; lia.
  - (* select mode: a move or resize event committed a new array *)
    assert (Ediff : same_ref (Canvas.current w) (Canvas.current w0) = false).
    { apply same_ref_false. lia. }
    destruct Hc as [Hc | (Hdraw & _)]; [| congruence].
    rewrite Hc. cbn [fold_left].
    destruct (commitHistory_pushed (Canvas.props w) h Hflag)
      as (Eu & Er & Ep & Epi & Eur & Ef).
    { rewrite (Hds Hflag). exact Ediff. }
    destruct (render_same w (fst r)) as [Es Ep'].
    unfold gesture_outcome, idle, settled, synced, Canvas.current,
      Canvas.undoStackOf, Canvas.redoStackOf.
    rewrite Es, Ep', Efst. cbn [Canvas.hist Canvas.ui].
    cbn [Canvas.render Canvas.nextRef].
    rewrite Eu, Er, Ep, Epi, Eur, Ef, (Hds Hflag).
    fold (Canvas.current w) in *. unfold Canvas.current in *.
    repeat split; try congruence; try lia.
    right. repeat split; try congruence; lia.
Qed.


(** ** Sessions keep the editor stable *)

Lemma NoDup_app_drop_middle {A} (a b c : list A) :
  NoDup (a ++ b ++ c) -> NoDup (a ++ c).
Proof.
  intros H. apply (NoDup_app_remove_l b).
  eapply Permutation_NoDup; [| exact H].
  rewrite !app_assoc. apply Permutation_app_tail, Permutation_app_comm.
Qed.

Lemma NoDup_snoc_fresh (l : list nat) (bound x : nat) :
  NoDup l -> Forall (fun y => y < bound)%nat l -> (bound <= x)%nat ->
  NoDup (l ++ [x]).
Proof.
  intros Hn Hb Hx.
  eapply Permutation_NoDup; [apply Permutation_cons_append |].
  constructor; [| exact Hn].
  intros Hin. rewrite Forall_forall in Hb. specialize (Hb _ Hin). lia.
Qed.

Lemma Forall_ref_mono (bound bound' : nat) (l : list AnnArray) :
  (bound <= bound')%nat ->
  Forall (fun a => (ref a < bound)%nat) l ->
  Forall (fun a => (ref a < bound')%nat) l.
Proof.
  intros Hle. apply Forall_impl. intros a Ha. lia.
Qed.

Lemma stable_mount (p : Canvas.Props) (c : option Point.t) :
  stable (Canvas.mount p c).
Proof.
  unfold stable, idle, settled, synced. cbn.
  repeat split; auto. repeat constructor. intros [].
Qed.

Lemma outcome_stable (w0 w' : Canvas.World) :
  stable w0 -> gesture_outcome w0 w' -> stable w'.
Proof.
  intros (_ & Hset0 & Hnd & Hb) (Hidle & Hset & Hn & Hcase).
  destruct Hset0 as (_ & _ & _ & _ & Hlt0).
  split; [exact Hidle |]. split; [exact Hset |].
  destruct Hcase as [(Ec & Eu & Er) | (Hf & Eu & Er)]; rewrite Eu, Er.
  - rewrite Ec. split; [exact Hnd |]. now apply (Forall_ref_mono _ _ _ Hn).
  - assert (Hb' : Forall (fun a => (ref a < Canvas.nextRef w0)%nat)
                         (Canvas.undoStackOf w0 ++ [Canvas.current w0])).
    { apply Forall_app. split.
      - apply Forall_app in Hb. apply Hb.
      - now repeat constructor. }
    split.
    + cbn [app]. rewrite map_app. cbn [map].
      apply (NoDup_snoc_fresh _ (Canvas.nextRef w0)); [| | exact Hf].
      * rewrite map_app. apply NoDup_app_drop_middle with
          (b := map ref (Canvas.redoStackOf w0)).
        rewrite <- !map_app. exact Hnd.
      * rewrite Forall_map. exact Hb'.
    + rewrite app_nil_r. now apply (Forall_ref_mono _ _ _ Hn).
Qed.

Lemma map_MouseMove_moves (moves : list MouseEvent) :
  Forall pointer_move (map Canvas.MouseMove moves).
Proof. apply Forall_forall. intros ev Hin. apply in_map_iff in Hin as (e & <- & _). exact I. Qed.

Lemma downEvent_down (d : Down) : pointer_down (downEvent d).
Proof. now destruct d. Qed.

(** A whole gesture from a stable world. *)
Lemma gesture_outcome_run (w : Canvas.World) (d : Down)
      (moves : list MouseEvent) (uuid : string) :
  idle w -> settled w ->
  gesture_outcome w (Canvas.run w (gestureEvents d moves uuid)).
Proof.
  intros Hidle Hset. unfold gestureEvents.
  change (downEvent d :: map Canvas.MouseMove moves ++ [Canvas.MouseUp uuid])
    with ((downEvent d :: map Canvas.MouseMove moves) ++ [Canvas.MouseUp uuid]).
  rewrite run_snoc. apply gesture_finish; [exact Hset |].
  cbn [Canvas.run fold_left].
  apply in_gesture_moves; [apply Hset | apply map_MouseMove_moves |].
  apply in_gesture_down; auto using downEvent_down.
Qed.

(** Stability only looks at the image, the history and idleness. *)
Lemma stable_frame (w w' : Canvas.World) :
  Canvas.image (Canvas.props w') = Canvas.image (Canvas.props w) ->
  Canvas.hist (Canvas.state w') = Canvas.hist (Canvas.state w) ->
  idle w' ->
  (Canvas.nextRef w <= Canvas.nextRef w')%nat ->
  stable w -> stable w'.
Proof.
  intros Ei Eh Hidle Hn (_ & (Hs & Hp & Hur & Hf & Hlt) & Hnd & Hb).
  unfold stable, settled, synced, Canvas.current, Canvas.undoStackOf,
    Canvas.redoStackOf, Canvas.anns in *.
  rewrite Ei, Eh.
  split; [exact Hidle |]. split; [repeat split; auto; lia |].
  split; [exact Hnd |]. now apply (Forall_ref_mono _ _ _ Hn).
Qed.

Lemma react_nextRef (w : Canvas.World) (ev : Canvas.Event) :
  Canvas.nextRef (Canvas.react w ev) = S (Canvas.nextRef w).
Proof. reflexivity. Qed.

(** The effect on a change flagged as the manager's own. *)
Lemma render_flagged (w : Canvas.World) (p' : Canvas.Props)
      (s' : Canvas.State) :
  Image.id (Canvas.image p')
  = Canvas.History.prevImageIdRef (Canvas.hist s') ->
  same_ref (Canvas.anns (Canvas.props w)) (Canvas.anns p') = false ->
  same_ref (Canvas.anns p')
           (Canvas.History.prevAnnotationsRef (Canvas.hist s')) = false ->
  Canvas.History.isHistoryAction (Canvas.hist s') = false ->
  Canvas.History.isUndoRedo (Canvas.hist s') = true ->
  let h' := Canvas.hist (Canvas.state (Canvas.render w p' s')) in
  Canvas.History.undoStack h' = Canvas.History.undoStack (Canvas.hist s') /\
  Canvas.History.redoStack h' = Canvas.History.redoStack (Canvas.hist s') /\
  Canvas.History.prevAnnotationsRef h' = Canvas.anns p' /\
  Canvas.History.prevImageIdRef h'
  = Canvas.History.prevImageIdRef (Canvas.hist s') /\
  Canvas.History.isUndoRedo h' = false /\
  Canvas.History.isHistoryAction h' = false.
Proof.
  intros Hid Hdep Hprev Hf Hur. unfold Canvas.render. cbn.
  unfold Canvas.depsChanged. rewrite Hdep, orb_true_r.
  unfold Canvas.historyEffect. rewrite Hid, String.eqb_refl, Hprev, Hf, Hur.
  now cbn.
Qed.

Lemma NoDup_ends_differ (f : AnnArray -> nat) (a b : list AnnArray)
      (x y : AnnArray) :
  NoDup (map f (a ++ [x] ++ b ++ [y])) -> f x <> f y.
Proof.
  rewrite map_app. intros H. apply NoDup_app_remove_l in H.
  cbn in H. apply NoDup_cons_iff in H as [Hx _].
  intros E. apply Hx. rewrite map_app. apply in_or_app. right.
  cbn. now left.
Qed.

Lemma Permutation_rotate {A} (a b : list A) (x y : A) :
  Permutation ((a ++ [x]) ++ b ++ [y]) (a ++ (b ++ [y]) ++ [x]).
Proof.
  rewrite <- app_assoc. apply Permutation_app_head, Permutation_app_comm.
Qed.

Lemma stable_undo (w : Canvas.World) :
  stable w -> stable (Canvas.react w Canvas.Undo).
Proof.
  intros Hst.
  destruct (Canvas.undoStackOf w) as [|f o] eqn:Eu.
  - destruct (undo_noop w Eu) as [Ep Es].
    apply (stable_frame w).
    + now rewrite Ep.
    + now rewrite Es.
    + unfold idle. rewrite Es. apply Hst.
    + rewrite react_nextRef. lia.
    + exact Hst.
  - destruct (exists_last (l := f :: o)) as (us & top & E); [discriminate |].
    rewrite E in Eu. clear E f o.
    destruct Hst as (Hidle & (Hs & Hp & Hur & Hf & Hlt) & Hnd & Hb).
    rewrite Eu in Hnd, Hb.
    assert (Hne : ref top <> ref (Canvas.current w)).
    { apply (NoDup_ends_differ ref us (Canvas.redoStackOf w)).
      now rewrite <- !app_assoc in Hnd. }
    assert (Htop : (ref top < Canvas.nextRef w)%nat).
    { rewrite Forall_forall in Hb. apply Hb.
      apply in_or_app. left. apply in_or_app. right. now left. }
    unfold Canvas.react, Canvas.dispatch. cbn [Canvas.hostProps].
    rewrite (performUndo_snoc _ _ us top Eu).
    cbn [fst snd fold_left Canvas.applyCallback].
    set (p' := Canvas.setImage _ _).
    set (s' := Canvas.mkState _ _).
    assert (Ea : Canvas.anns p' = top) by reflexivity.
    destruct (render_flagged w p' s') as (Eu' & Er' & Ep' & Epi' & Eur' & Ef').
    + cbn. unfold synced in Hs. now rewrite Hs.
    + apply same_ref_false. rewrite Ea. fold (Canvas.current w). congruence.
    + apply same_ref_false. rewrite Ea. cbn. rewrite Hp. exact Hne.
    + exact Hf.
    + reflexivity.
    + unfold stable, idle, settled, synced, Canvas.undoStackOf,
        Canvas.redoStackOf.
      change (Canvas.current (Canvas.render w p' s')) with (Canvas.anns p').
      change (Canvas.props (Canvas.render w p' s')) with p'.
      change (Canvas.ui (Canvas.state (Canvas.render w p' s')))
        with (Canvas.ui (Canvas.state w)).
      rewrite Eu', Er', Ep', Epi', Eur', Ef', Ea.
      cbn [Canvas.hist s' Canvas.History.undoStack Canvas.History.redoStack
           Canvas.History.setUndoStack Canvas.History.setRedoStack
           Canvas.History.setIsUndoRedo Canvas.History.prevImageIdRef
           Canvas.render Canvas.nextRef].
      fold (Canvas.redoStackOf w).
      split; [exact Hidle |].
      split; [repeat split; auto; unfold synced in Hs; now rewrite Hs |].
      split.
      * eapply Permutation_NoDup; [| exact Hnd].
        apply Permutation_map, Permutation_rotate.
      * apply Forall_app. split.
        -- apply (Forall_ref_mono (Canvas.nextRef w)); [lia |].
           apply Forall_app in Hb as [Hb _]. apply Forall_app in Hb. apply Hb.
        -- apply Forall_app. split.
           ++ apply (Forall_ref_mono (Canvas.nextRef w)); [lia |].
              apply Forall_app in Hb. apply Hb.
           ++ constructor; [| constructor].
              fold (Canvas.current w). lia.
Qed.

Lemma NoDup_last_two_differ (f : AnnArray -> nat) (a b : list AnnArray)
      (x y : AnnArray) :
  NoDup (map f (a ++ (b ++ [x]) ++ [y])) -> f x <> f y.
Proof.
  intros H. apply (NoDup_ends_differ f (a ++ b) []).
  cbn [app]. now rewrite <- !app_assoc in *.
Qed.

Lemma stable_redo (w : Canvas.World) :
  stable w -> stable (Canvas.react w Canvas.Redo).
Proof.
  intros Hst.
  destruct (Canvas.redoStackOf w) as [|f o] eqn:Er.
  - destruct (redo_noop w Er) as [Ep Es].
    apply (stable_frame w).
    + now rewrite Ep.
    + now rewrite Es.
    + unfold idle. rewrite Es. apply Hst.
    + rewrite react_nextRef. lia.
    + exact Hst.
  - destruct (exists_last (l := f :: o)) as (rs & top & E); [discriminate |].
    rewrite E in Er. clear E f o.
    destruct Hst as (Hidle & (Hs & Hp & Hur & Hf & Hlt) & Hnd & Hb).
    rewrite Er in Hnd, Hb.
    assert (Hne : ref top <> ref (Canvas.current w)).
    { now apply (NoDup_last_two_differ ref (Canvas.undoStackOf w) rs). }
    assert (Htop : (ref top < Canvas.nextRef w)%nat).
    { rewrite Forall_forall in Hb. apply Hb.
      apply in_or_app. right. apply in_or_app. right. now left. }
    unfold Canvas.react, Canvas.dispatch. cbn [Canvas.hostProps].
    rewrite (performRedo_snoc _ _ rs top Er).
    cbn [fst snd fold_left Canvas.applyCallback].
    set (p' := Canvas.setImage _ _).
    set (s' := Canvas.mkState _ _).
    assert (Ea : Canvas.anns p' = top) by reflexivity.
    destruct (render_flagged w p' s') as (Eu' & Er' & Ep' & Epi' & Eur' & Ef').
    + cbn. unfold synced in Hs. now rewrite Hs.
    + apply same_ref_false. rewrite Ea. fold (Canvas.current w). congruence.
    + apply same_ref_false. rewrite Ea. cbn. rewrite Hp. exact Hne.
    + exact Hf.
    + reflexivity.
    + unfold stable, idle, settled, synced, Canvas.undoStackOf,
        Canvas.redoStackOf.
      change (Canvas.current (Canvas.render w p' s')) with (Canvas.anns p').
      change (Canvas.props (Canvas.render w p' s')) with p'.
      change (Canvas.ui (Canvas.state (Canvas.render w p' s')))
        with (Canvas.ui (Canvas.state w)).
      rewrite Eu', Er', Ep', Epi', Eur', Ef', Ea.
      cbn [Canvas.hist s' Canvas.History.undoStack Canvas.History.redoStack
           Canvas.History.setUndoStack Canvas.History.setRedoStack
           Canvas.History.setIsUndoRedo Canvas.History.prevImageIdRef
           Canvas.render Canvas.nextRef].
      fold (Canvas.undoStackOf w).
      split; [exact Hidle |].
      split; [repeat split; auto; unfold synced in Hs; now rewrite Hs |].
      split.
      * eapply Permutation_NoDup; [| exact Hnd].
        apply Permutation_map, Permutation_sym, Permutation_rotate.
      * apply Forall_app. split.
        -- apply Forall_app. split.
           ++ apply (Forall_ref_mono (Canvas.nextRef w)); [lia |].
              apply Forall_app in Hb. apply Hb.
           ++ constructor; [| constructor].
              fold (Canvas.current w). lia.
        -- apply (Forall_ref_mono (Canvas.nextRef w)); [lia |].
           apply Forall_app in Hb as [_ Hb]. apply Forall_app in Hb. apply Hb.
Qed.

Lemma host_update_outcome (w : Canvas.World) (newItems : list BBox.t) :
  idle w -> settled w ->
  gesture_outcome w (Canvas.react w (Canvas.HostUpdate newItems)).
Proof.
  intros Hidle (Hs & Hp & Hur & Hf & Hlt).
  unfold Canvas.react, Canvas.dispatch.
  cbn [fst snd fold_left Canvas.hostProps].
  set (p' := Canvas.setImage _ _).
  assert (Ea : Canvas.anns p' = mkArr (Canvas.nextRef w) newItems)
    by reflexivity.
  destruct (render_records_change w p' (Canvas.state w))
    as (Eu' & Er' & Ep' & Epi' & Eur' & Ef').
  - cbn. unfold synced in Hs. now rewrite Hs.
  - apply same_ref_false. rewrite Ea. cbn. fold (Canvas.current w). lia.
  - apply same_ref_false. rewrite Ea, Hp. cbn. lia.
  - exact Hf.
  - exact Hur.
  - unfold gesture_outcome, settled, synced, Canvas.undoStackOf,
      Canvas.redoStackOf.
    change (Canvas.current (Canvas.render w p' (Canvas.state w)))
      with (Canvas.anns p').
    change (Canvas.props (Canvas.render w p' (Canvas.state w))) with p'.
    rewrite Eu', Er', Ep', Epi', Eur', Ef', Ea, Hp.
    cbn [Canvas.render Canvas.nextRef ref].
    split; [exact Hidle |].
    split; [repeat split; auto; unfold synced in Hs; now rewrite Hs |].
    split; [lia |]. right. repeat split; auto.
Qed.

Lemma stable_host_switch (w : Canvas.World) (id : string) (width height : Q)
      (newItems : list BBox.t) :
  stable w ->
  stable (Canvas.react w (Canvas.HostSwitch id width height newItems)).
Proof.
  intros Hst. pose proof Hst as (Hidle & (Hs & Hp & Hur & Hf & Hlt) & Hnd & Hb).
  unfold Canvas.react, Canvas.dispatch.
  cbn [fst snd fold_left Canvas.hostProps].
  set (p' := Canvas.setImage _ _).
  assert (Ea : Canvas.anns p' = mkArr (Canvas.nextRef w) newItems)
    by reflexivity.
  destruct (String.eqb id (Image.id (Canvas.image (Canvas.props w)))) eqn:Eid.
  - (* the same image again: an ordinary replacement of the list *)
    apply String.eqb_eq in Eid.
    apply (outcome_stable w); [exact Hst |].
    destruct (render_records_change w p' (Canvas.state w))
      as (Eu' & Er' & Ep' & Epi' & Eur' & Ef').
    + cbn. unfold synced in Hs. now rewrite Hs.
    + apply same_ref_false. rewrite Ea. cbn. fold (Canvas.current w). lia.
    + apply same_ref_false. rewrite Ea, Hp. cbn. lia.
    + exact Hf.
    + exact Hur.
    + unfold gesture_outcome, settled, synced, Canvas.undoStackOf,
        Canvas.redoStackOf.
      change (Canvas.current (Canvas.render w p' (Canvas.state w)))
        with (Canvas.anns p').
      change (Canvas.props (Canvas.render w p' (Canvas.state w))) with p'.
      rewrite Eu', Er', Ep', Epi', Eur', Ef', Ea, Hp.
      cbn [Canvas.render Canvas.nextRef ref].
      split; [exact Hidle |].
      split; [repeat split; auto; unfold synced in Hs; now rewrite Hs |].
      split; [lia |]. right. repeat split; auto.
  - (* another image: the effect resets the history *)
    unfold stable, idle, settled, synced, Canvas.undoStackOf,
      Canvas.redoStackOf, Canvas.current, Canvas.render.
    cbn [Canvas.props Canvas.state Canvas.hist Canvas.ui Canvas.nextRef].
    unfold Canvas.depsChanged.
    assert (E1 : String.eqb (Image.id (Canvas.image (Canvas.props w)))
                            (Image.id (Canvas.image p')) = false)
      by (rewrite String.eqb_sym; exact Eid).
    rewrite E1. cbn [negb orb].
    unfold Canvas.historyEffect. unfold synced in Hs. rewrite Hs.
    change (Image.id (Canvas.image p')) with id. rewrite Eid. cbn [negb].
    cbn. split; [exact Hidle |].
    repeat split; auto. repeat constructor. intros [].
Qed.

Lemma stable_host_configure (w : Canvas.World) label m z offset selected snap :
  stable w ->
  stable (Canvas.react w (Canvas.HostConfigure label m z offset selected snap)).
Proof.
  intros Hst. apply (stable_frame w).
  - reflexivity.
  - unfold Canvas.react, Canvas.dispatch, Canvas.render.
    cbn [fst snd fold_left Canvas.hostProps Canvas.state Canvas.hist].
    unfold Canvas.depsChanged, Canvas.anns. cbn [Canvas.image].
    now rewrite String.eqb_refl, same_ref_refl.
  - apply Hst.
  - rewrite react_nextRef. lia.
  - exact Hst.
Qed.

(** With no button held a pointer-move commits nothing and starts nothing. *)
Lemma handleMouseMove_idle (p : Canvas.Props) (c : option Point.t)
      (fresh : nat) (e : MouseEvent) (s : Canvas.State) :
  UI.isDragging (Canvas.ui s) = false ->
  UI.resizeHandle (Canvas.ui s) = None ->
  UI.draggingAnnotationId (Canvas.ui s) = None ->
  Canvas.handleMouseMove p c fresh e s
  = (Canvas.mkState (UI.setActiveSnapLines (None, None) (Canvas.ui s))
                    (Canvas.hist s), []).
Proof.
  intros Hd Hr Hi. unfold Canvas.handleMouseMove.
  rewrite Hd, Hr, Hi, !andb_false_r. cbn. now rewrite !guard_none.
Qed.

Lemma stable_hover (w : Canvas.World) (e : MouseEvent) :
  stable w -> stable (Canvas.react w (Canvas.MouseMove e)).
Proof.
  intros Hst. pose proof Hst as ((Hd & Hds & Hac & Hdi & Hrh & Him) & _).
  unfold Canvas.react, Canvas.dispatch. cbn [Canvas.hostProps].
  rewrite (handleMouseMove_idle _ _ _ _ _ Hd Hrh Hdi). cbn [fst snd fold_left].
  match goal with
  | |- stable (Canvas.render w (Canvas.props w) ?s) =>
      destruct (render_same w s) as [Es Ep]
  end.
  apply (stable_frame w).
  - now rewrite Ep.
  - now rewrite Es.
  - unfold idle. rewrite Es. cbn. auto 10.
  - cbn. lia.
  - exact Hst.
Qed.

Lemma stable_leave (w : Canvas.World) (uuid : string) :
  stable w -> stable (Canvas.react w (Canvas.MouseUp uuid)).
Proof.
  intros Hst.
  pose proof Hst as ((Hd & Hds & Hac & Hdi & Hrh & Him) & Hset & _).
  destruct Hset as (_ & _ & _ & Hf & _).
  unfold Canvas.react, Canvas.dispatch. cbn [Canvas.hostProps].
  unfold Canvas.handleMouseUp, Canvas.commitHistory.
  rewrite Hac, Hf, guard_none. cbn [fst snd fold_left].
  match goal with
  | |- stable (Canvas.render w (Canvas.props w) ?s) =>
      destruct (render_same w s) as [Es Ep]
  end.
  apply (stable_frame w).
  - now rewrite Ep.
  - now rewrite Es.
  - unfold idle. rewrite Es. cbn. auto 10.
  - cbn. lia.
  - exact Hst.
Qed.

Lemma stable_action (w : Canvas.World) (a : Action) :
  stable w -> stable (Canvas.run w (events_of a)).
Proof.
  intros Hst. destruct a; cbn [events_of Canvas.run fold_left].
  - apply (outcome_stable w); [exact Hst |].
    apply gesture_outcome_run; apply Hst.
  - now apply stable_hover.
  - now apply stable_leave.
  - now apply stable_undo.
  - now apply stable_redo.
  - apply (outcome_stable w); [exact Hst |].
    apply host_update_outcome; apply Hst.
  - now apply stable_host_switch.
  - now apply stable_host_configure.
Qed.

Lemma session_snoc (w : Canvas.World) (acts : list Action) (a : Action) :
  session w (acts ++ [a]) = Canvas.run (session w acts) (events_of a).
Proof. unfold session. now rewrite fold_left_app. Qed.

(** Every session from a mounted component ends in a stable world. *)
Lemma session_stable (p : Canvas.Props) (c : option Point.t)
      (acts : list Action) :
  stable (session (Canvas.mount p c) acts).
Proof.
  induction acts as [|a acts IH] using rev_ind; [apply stable_mount |].
  rewrite session_snoc. now apply stable_action.
Qed.

(** ** One entry per gesture *)



(** ** Undo and redo after a commit *)



Lemma image_switch_clears_history_witness :
  let w' := Canvas.react Scenario.longMove
              (Canvas.HostSwitch "img2" 640 480 []) in
  reachable Scenario.longMove /\
  Canvas.undoStackOf Scenario.longMove <> [] /\
  Canvas.undoStackOf w' = [] /\ Canvas.redoStackOf w' = [].
Proof.
  assert (Hr : reachable Scenario.longMove).
  { exists (Sample.props SELECT 0), Sample.origin. eexists. reflexivity. }
  split; [exact Hr |].
  split; [vm_compute; discriminate |].
  destruct (image_switch_clears_history Scenario.longMove "img2" 640 480 [] Hr)
    as (Hu & Hrd & _).
  - vm_compute. discriminate.
  - split; assumption.
Defined.

(** ** Pointer-up compares by reference *)

(** A drag with zero net displacement: the list after the gesture has the
    very same geometry as before, and still an entry was pushed. *)
Lemma zero_displacement_drag_is_recorded :
  let w := Sample.world SELECT 0 in
  same_geometry (items (Canvas.current Scenario.zeroDrag))
                (items (Canvas.current w)) /\
  Canvas.undoStackOf w = [] /\
  Canvas.undoStackOf Scenario.zeroDrag = [Canvas.current w].
Proof.
  cbn zeta. split; [| split; vm_compute; reflexivity].
  vm_compute. constructor; [| constructor].
  repeat split; reflexivity.
Qed.

(** C3, amended: in select mode, after any session, the pointer-up of a
    gesture compares the list with the array captured at pointer-down by
    identity.  If the list is still that array (no event of the gesture
    committed an update) nothing is pushed; if it is another array, exactly
    the captured pre-gesture array is pushed and the redo stack is cleared,
    whatever the geometry of the two lists. *)
Theorem pointer_up_compares_by_reference
        (p : Canvas.Props) (c : option Point.t) (acts : list Action)
        (d : Down) (moves : list MouseEvent) (uuid : string) :
  let w := session (Canvas.mount p c) acts in
  Canvas.mode (Canvas.props w) = SELECT ->
  let wn := Canvas.run w (downEvent d :: map Canvas.MouseMove moves) in
  let w' := Canvas.react wn (Canvas.MouseUp uuid) in
  Canvas.current w' = Canvas.current wn /\
  (ref (Canvas.current wn) = ref (Canvas.current w) ->
   Canvas.current wn = Canvas.current w /\
   Canvas.undoStackOf w' = Canvas.undoStackOf w /\
   Canvas.redoStackOf w' = Canvas.redoStackOf w) /\
  (ref (Canvas.current wn) <> ref (Canvas.current w) ->
   Canvas.undoStackOf w' = Canvas.undoStackOf w ++ [Canvas.current w] /\
   Canvas.redoStackOf w' = []).
Proof.
  intros w Hm wn w'.
  destruct (session_stable p c acts) as (Hidle & Hset & _).
  fold w in Hidle, Hset.
  assert (Hg : in_gesture w wn).
  { subst wn. cbn [Canvas.run fold_left].
    apply in_gesture_moves; [apply Hset | apply map_MouseMove_moves |].
    apply in_gesture_down; auto using downEvent_down. }
  pose proof (gesture_finish w wn uuid Hset Hg) as Hout. fold w' in Hout.
  assert (Ecur : Canvas.current w' = Canvas.current wn).
  { pose proof (handleMouseUp_shape (Canvas.props wn) (Canvas.nextRef wn) uuid
                  (Canvas.state wn)) as (_ & [Hc | (Hdraw & _)]).
    - subst w'. unfold Canvas.react, Canvas.dispatch.
      cbn [Canvas.hostProps]. rewrite Hc. reflexivity.
    - destruct Hg as (_ & Hmn & _). congruence. }
  destruct Hset as (_ & _ & _ & _ & Hlt0).
  split; [exact Ecur |].
  destruct Hout as (_ & _ & _ & [(Esame & Eu & Er) | (Hfresh & Eu & Er)]).
  - rewrite Ecur in Esame. split; [auto |].
    intros Hne. rewrite Esame in Hne. contradiction.
  - rewrite Ecur in Hfresh. split; [intros E; lia | auto].
Qed.

Lemma pointer_up_compares_by_reference_witness :
  Canvas.mode (Canvas.props (session (Sample.world SELECT 0) [])) = SELECT /\
  ref (Canvas.current Scenario.held) <> 0%nat /\
  Canvas.undoStackOf (Canvas.react Scenario.held (Canvas.MouseUp "u"))
  = [Image.annotations Sample.image].
Proof.
  split; [reflexivity |].
  split; [vm_compute; discriminate |].
  refine (proj1 (proj2 (proj2 (pointer_up_compares_by_reference
                                 (Sample.props SELECT 0) Sample.origin []
                                 Scenario.grabDown [mkMouse 30 30] "u"
                                 eq_refl)) _)).
  vm_compute. discriminate.
Defined.

(** ** The resize branch *)

Lemma legacy_resizeRect_clamped (hd : ResizeHandleType) (rect : Rect.t)
      (effX effY : Q) :
  let r := LegacyCanvas.resizeRect hd rect effX effY in
  5 <= Rect.w r /\ 5 <= Rect.h r /\ opposite_fixed hd rect r.
Proof.
  unfold opposite_fixed.
  destruct hd; cbn;
    repeat match goal with
           | |- context [Qmin ?a ?b] =>
               pose proof (Q.le_min_r a b); generalize dependent (Qmin a b);
               intros
           | |- context [Qmax ?a ?b] =>
               pose proof (Q.le_max_r a b); generalize dependent (Qmax a b);
               intros
           end;
    repeat split; lra.
Qed.






(** ** Finalising a draw gesture *)







(** ** MagicBox *)

Lemma no_update_nil : no_update [].
Proof. intros a []. Qed.

Lemma no_update_single (c : Callback) :
  (forall a, c <> OnUpdateAnnotations a) -> no_update [c].
Proof. intros H a [E | []]. now apply (H a). Qed.

Lemma canvas_magic_no_update (w : Canvas.World) (ev : Canvas.Event) :
  Canvas.mode (Canvas.props w) = MAGIC_BOX ->
  pointer_event ev ->
  no_update (snd (Canvas.dispatch w ev)).
Proof.
  intros Hm Hev. destruct ev; try contradiction; cbn [Canvas.dispatch];
    rewrite ?Hm; cbn [ToolMode_eqb].
  1-3: unfold Canvas.handleMouseDown; rewrite Hm; cbn [snd];
    now apply no_update_single.
  - pose proof (handleMouseMove_shape (Canvas.props w) (Canvas.container w)
                  (Canvas.nextRef w) e (Canvas.state w))
      as (_ & _ & _ & [Hc | [(x & y & Hc) | (l & _ & Hsel & _)]]).
    + rewrite Hc. apply no_update_nil.
    + rewrite Hc. now apply no_update_single.
    + congruence.
  - pose proof (handleMouseUp_shape (Canvas.props w) (Canvas.nextRef w) uuid
                  (Canvas.state w)) as (_ & [Hc | (Hd & _)]).
    + rewrite Hc. apply no_update_nil.
    + congruence.
Qed.

Lemma legacy_magic_no_update (p : LegacyCanvas.Props)
      (container : option Point.t) (fresh : nat) (e : MouseEvent)
      (uuid : string) (u : UI.t) :
  LegacyCanvas.mode p = MAGIC_BOX ->
  no_update (snd (LegacyCanvas.handleMouseDown p container e u)) /\
  no_update (snd (LegacyCanvas.handleMouseMove p container fresh e u)) /\
  no_update (snd (LegacyCanvas.handleMouseUp p fresh uuid u)).
Proof.
  intros Hm. repeat split.
  - unfold LegacyCanvas.handleMouseDown. rewrite Hm. cbn [snd].
    now apply no_update_single.
  - unfold LegacyCanvas.handleMouseMove. rewrite Hm.
    cbn [ToolMode_eqb andb orb guard].
    break_match; cbn [snd]; try apply no_update_nil; discriminate.
  - unfold LegacyCanvas.handleMouseUp, LegacyCanvas.finalizeCreation.
    rewrite Hm. break_match; cbn [snd]; try apply no_update_nil.
    now apply no_update_single.
Qed.

Lemma applyCallbacks_no_update (cbs : list Callback) (p : Canvas.Props) :
  no_update cbs ->
  Canvas.anns (fold_left Canvas.applyCallback cbs p) = Canvas.anns p.
Proof.
  revert p. induction cbs as [|c cbs IH]; intros p Hn; [reflexivity |].
  cbn [fold_left]. rewrite IH.
  - destruct c; try reflexivity. exfalso. apply (Hn a). now left.
  - intros a Ha. apply (Hn a). now right.
Qed.

Ltac not_in_list :=
  let H := fresh "H" in
  intros H; cbn [In] in H;
  repeat (destruct H as [H | H]; [discriminate H |]); contradiction.

(** The history-enabled canvas has no MagicBox hand-over. *)
Lemma canvas_never_hands_over (w : Canvas.World) (ev : Canvas.Event)
      (r : Rect.t) :
  ~ In (OnMagicBoxSelect r) (snd (Canvas.dispatch w ev)).
Proof.
  destruct ev; cbn [Canvas.dispatch];
    repeat match goal with
           | |- context [if ToolMode_eqb ?a ?b then _ else _] =>
               destruct (ToolMode_eqb a b)
           end;
    try (cbn [snd]; not_in_list);
    try (unfold Canvas.handleMouseDown; destruct (Canvas.mode _);
         cbn [snd]; not_in_list).
  - unfold Canvas.handleAnnotationMouseDown. break_match; cbn [snd];
      not_in_list.
  - unfold Canvas.handleResizeMouseDown. break_match; cbn [snd]; not_in_list.
  - pose proof (handleMouseMove_shape (Canvas.props w) (Canvas.container w)
                  (Canvas.nextRef w) e (Canvas.state w))
      as (_ & _ & _ & [Hc | [(x & y & Hc) | (l & Hc & _)]]);
      rewrite Hc; not_in_list.
  - pose proof (handleMouseUp_shape (Canvas.props w) (Canvas.nextRef w) uuid
                  (Canvas.state w)) as (_ & [Hc | (_ & l & i & Hc)]);
      rewrite Hc; not_in_list.
  - unfold Canvas.performUndo. break_match; cbn [snd]; not_in_list.
  - unfold Canvas.performRedo. break_match; cbn [snd]; not_in_list.
Qed.

(** C9: when a MagicBox gesture is finalised at pointer-up with both sides
    above the minimum, the earlier canvas hands the drawn rectangle to the
    external handler (the optional [onMagicBoxSelect] prop) and makes no
    other call, so the annotation list is left as it is; no pointer event in
    MagicBox mode makes either canvas replace the annotation list.  The
    history-enabled canvas never calls a MagicBox handler at all. *)
Theorem magic_box_hands_over (ac : Rect.t) (fresh : nat) (uuid : string) :
  5 < Rect.w ac -> 5 < Rect.h ac ->
  (forall (p : LegacyCanvas.Props) (u : UI.t),
      LegacyCanvas.mode p = MAGIC_BOX ->
      LegacyCanvas.onMagicBoxSelect p = true ->
      UI.activeCreation u = Some ac ->
      let r := LegacyCanvas.handleMouseUp p fresh uuid u in
      snd r = [OnMagicBoxSelect ac] /\
      LegacyCanvas.anns (fold_left LegacyCanvas.applyCallback (snd r) p)
      = LegacyCanvas.anns p /\
      UI.activeCreation (fst r) = None)
  /\
  (forall (p : LegacyCanvas.Props) (container : option Point.t)
          (e : MouseEvent) (u : UI.t),
      LegacyCanvas.mode p = MAGIC_BOX ->
      no_update (snd (LegacyCanvas.handleMouseDown p container e u)) /\
      no_update (snd (LegacyCanvas.handleMouseMove p container fresh e u)) /\
      no_update (snd (LegacyCanvas.handleMouseUp p fresh uuid u)))
  /\
  (forall (w : Canvas.World) (ev : Canvas.Event),
      Canvas.mode (Canvas.props w) = MAGIC_BOX ->
      pointer_event ev ->
      no_update (snd (Canvas.dispatch w ev)) /\
      Canvas.current (Canvas.react w ev) = Canvas.current w)
  /\
  (forall (w : Canvas.World) (ev : Canvas.Event) (r : Rect.t),
      ~ In (OnMagicBoxSelect r) (snd (Canvas.dispatch w ev))).
Proof.
  intros Hw Hh. split; [| split; [| split]].
  - intros p u Hm Hh' Hac r. subst r.
    unfold LegacyCanvas.handleMouseUp, LegacyCanvas.finalizeCreation, Qgtb.
    apply Qltb_true in Hw, Hh. rewrite Hac, Hm, Hh', Hw, Hh.
    cbn. auto.
  - intros p container e u Hm. now apply legacy_magic_no_update.
  - intros w ev Hm Hev.
    pose proof (canvas_magic_no_update w ev Hm Hev) as Hn.
    split; [exact Hn |].
    assert (Hhost : Canvas.hostProps w ev = Canvas.props w)
      by (destruct ev; try contradiction; reflexivity).
    unfold Canvas.react, Canvas.current.
    cbn [Canvas.render Canvas.props]. rewrite Hhost.
    now apply applyCallbacks_no_update.
  - exact canvas_never_hands_over.
Qed.

Lemma magic_box_hands_over_witness :
  let p := Sample.legacyProps MAGIC_BOX true in
  let u := UI.setActiveCreation (Some (Rect.mk 1 1 6 6)) UI.initial in
  5 < 6 /\
  snd (LegacyCanvas.handleMouseUp p 1 "u" u) = [OnMagicBoxSelect (Rect.mk 1 1 6 6)].
Proof.
  cbn zeta. split; [reflexivity |].
  refine (proj1 (proj1 (magic_box_hands_over (Rect.mk 1 1 6 6) 1 "u"
                          eq_refl eq_refl)
                       (Sample.legacyProps MAGIC_BOX true)
                       (UI.setActiveCreation (Some (Rect.mk 1 1 6 6))
                          UI.initial)
                       eq_refl eq_refl eq_refl)).
Defined.

(** ** Positive sizes *)

Lemma svgToYolo_positive (px py pw ph W H : Q) :
  0 < W -> 0 < H -> 0 < pw -> 0 < ph ->
  0 < YoloService.w (svgToYolo px py pw ph W H) /\
  0 < YoloService.h (svgToYolo px py pw ph W H).
Proof. intros. cbn. split; now apply Qdiv_pos. Qed.

Lemma yoloToSvg_positive (a : BBox.t) (W H : Q) :
  0 < W -> 0 < H -> positive_box a ->
  positive_rect (Some (yoloToSvg a W H)).
Proof. intros HW HH [Hw Hh]. cbn. split; nra. Qed.

Lemma replaceGeometry_positive (i : option string) (n : Yolo)
      (l : list BBox.t) :
  0 < YoloService.w n -> 0 < YoloService.h n ->
  Forall positive_box l -> Forall positive_box (replaceGeometry i n l).
Proof.
  intros Hw Hh Hl. unfold replaceGeometry. induction Hl as [|a l Ha _ IH];
    cbn; constructor; auto.
  destruct (idIs i a); [split; assumption | assumption].
Qed.

Lemma Forall_removelast {A} (P : A -> Prop) (l : list A) :
  Forall P l -> Forall P (removelast l).
Proof.
  intros H. induction H as [|a l Ha Hl IH]; cbn; [constructor |].
  destruct l; [constructor | now constructor].
Qed.

Lemma Forall_last {A} (P : A -> Prop) (l : list A) (d : A) :
  P d -> Forall P l -> P (last l d).
Proof.
  intros Hd H. induction H as [|a l Ha Hl IH]; cbn; [exact Hd |].
  destruct l; [exact Ha | exact IH].
Qed.

Lemma Forall_snoc {A} (P : A -> Prop) (l : list A) (x : A) :
  Forall P l -> P x -> Forall P (l ++ [x]).
Proof. intros. apply Forall_app. auto. Qed.

Lemma historyEffect_positive (p : Canvas.Props) (h : Canvas.History.t) :
  hist_positive h -> positive_list (Canvas.anns p) ->
  hist_positive (Canvas.historyEffect p h).
Proof.
  intros (Hu & Hr & Hp & Hd) Ha. unfold Canvas.historyEffect, hist_positive.
  break_match; cbn; repeat split; auto using Forall_snoc.
Qed.

Lemma commitHistory_positive (p : Canvas.Props) (h : Canvas.History.t) :
  hist_positive h -> positive_list (Canvas.anns p) ->
  hist_positive (Canvas.commitHistory p h).
Proof.
  intros (Hu & Hr & Hp & Hd) Ha. unfold Canvas.commitHistory, hist_positive.
  break_match; cbn; repeat split; auto using Forall_snoc.
Qed.

Lemma startHistoryAction_positive (p : Canvas.Props) (h : Canvas.History.t) :
  hist_positive h -> positive_list (Canvas.anns p) ->
  hist_positive (Canvas.startHistoryAction p h).
Proof.
  intros (Hu & Hr & Hp & Hd) Ha. repeat split; auto.
Qed.

Lemma updates_positive_nil : updates_positive [].
Proof. intros a []. Qed.

Lemma updates_positive_single (a : AnnArray) :
  positive_list a -> updates_positive [OnUpdateAnnotations a].
Proof. intros H b [E | []]. now inversion E; subst. Qed.

Lemma updates_positive_other (c : Callback) :
  (forall a, c <> OnUpdateAnnotations a) -> updates_positive [c].
Proof. intros H a [E | []]. now destruct (H a). Qed.

Ltac invert_guards :=
  repeat match goal with
         | H : (_, _) = (_, _) |- _ => inversion H; subst; clear H
         | H : guard _ _ = Some _ |- _ => apply guard_some in H as [? ?]
         | H : (_ && _)%bool = true |- _ => apply andb_true_iff in H as [? ?]
         | H : ToolMode_eqb _ _ = true |- _ => apply ToolMode_eqb_eq in H
         | H : Qgtb _ _ = true |- _ => apply Qltb_true in H
         end.

Lemma handleMouseMove_positive (p : Canvas.Props) (c : option Point.t)
      (fresh : nat) (e : MouseEvent) (s : Canvas.State) :
  0 < Image.width (Canvas.image p) -> 0 < Image.height (Canvas.image p) ->
  positive_list (Canvas.anns p) ->
  positive_rect (UI.initialMoveRect (Canvas.ui s)) ->
  let r := Canvas.handleMouseMove p c fresh e s in
  updates_positive (snd r) /\
  UI.initialMoveRect (Canvas.ui (fst r)) = UI.initialMoveRect (Canvas.ui s).
Proof.
  intros HW HH Hl Hinit. unfold Canvas.handleMouseMove. cbn zeta.
  break_match; invert_guards;
    cbn [fst snd Canvas.ui UI.initialMoveRect UI.setDragStart
         UI.setActiveSnapLines UI.setActiveCreation];
    (split; [| reflexivity]);
    try apply updates_positive_nil;
    try (apply updates_positive_other; discriminate);
    apply updates_positive_single; unfold positive_list; cbn [items];
    apply replaceGeometry_positive; try exact Hl;
    apply svgToYolo_positive; try assumption.
  all: match goal with
       | H : moveRect ?f ?t ?xl ?yl ?i ?st ?ps = (?r, _) |- _ =>
           pose proof (moveRect_placed f t xl yl i st ps) as (_ & _ & Ew & Eh);
           rewrite H in Ew, Eh; cbn [fst] in Ew, Eh; rewrite ?Ew, ?Eh
       end.
  all: match goal with
       | H : UI.initialMoveRect _ = Some _ |- _ =>
           rewrite H in Hinit; apply Hinit
       end.
Qed.

Lemma handleMouseDown_positive (p : Canvas.Props) (c : option Point.t)
      (e : MouseEvent) (s : Canvas.State) :
  positive_list (Canvas.anns p) ->
  hist_positive (Canvas.hist s) ->
  positive_rect (UI.initialMoveRect (Canvas.ui s)) ->
  let r := Canvas.handleMouseDown p c e s in
  updates_positive (snd r) /\ hist_positive (Canvas.hist (fst r)) /\
  positive_rect (UI.initialMoveRect (Canvas.ui (fst r))).
Proof.
  intros Hl Hh Hi. unfold Canvas.handleMouseDown.
  destruct (Canvas.mode p); cbn [fst snd Canvas.hist Canvas.ui];
    (split; [| split; [| exact Hi]]);
    auto using startHistoryAction_positive;
    try apply updates_positive_nil;
    apply updates_positive_other; discriminate.
Qed.

Lemma handleMouseUp_positive (p : Canvas.Props) (fresh : nat) (uuid : string)
      (s : Canvas.State) :
  0 < Image.width (Canvas.image p) -> 0 < Image.height (Canvas.image p) ->
  positive_list (Canvas.anns p) ->
  hist_positive (Canvas.hist s) ->
  let r := Canvas.handleMouseUp p fresh uuid s in
  updates_positive (snd r) /\ hist_positive (Canvas.hist (fst r)) /\
  positive_rect (UI.initialMoveRect (Canvas.ui (fst r))).
Proof.
  intros HW HH Hl Hh. unfold Canvas.handleMouseUp. cbn zeta.
  cbn [fst snd Canvas.hist Canvas.ui].
  split; [| split; [now apply commitHistory_positive | exact I]].
  break_match; try apply updates_positive_nil. invert_guards.
  intros a [E | [E | []]]; [| discriminate].
  inversion E; subst. unfold positive_list. cbn [items].
  apply Forall_snoc; [exact Hl |].
  unfold positive_box, spreadYolo. cbn [BBox.w BBox.h].
  apply svgToYolo_positive; auto; lra.
Qed.

Lemma performUndo_positive (p : Canvas.Props) (s : Canvas.State) :
  positive_list (Canvas.anns p) ->
  hist_positive (Canvas.hist s) ->
  let r := Canvas.performUndo p s in
  updates_positive (snd r) /\ hist_positive (Canvas.hist (fst r)) /\
  UI.initialMoveRect (Canvas.ui (fst r)) = UI.initialMoveRect (Canvas.ui s).
Proof.
  intros Hl (Hu & Hr & Hp & Hd). unfold Canvas.performUndo.
  destruct (Canvas.History.undoStack (Canvas.hist s)) as [|f o] eqn:E.
  - cbn [fst snd]. split; [apply updates_positive_nil |].
    split; [repeat split; auto; rewrite E; constructor | reflexivity].
  - cbn [fst snd Canvas.hist Canvas.ui]. inversion Hu; subst.
    split; [| split; [| reflexivity]].
    + apply updates_positive_single. now apply Forall_last.
    + unfold hist_positive. cbn. rewrite E.
      repeat split; auto using Forall_snoc.
      apply (Forall_removelast _ (f :: o)). now constructor.
Qed.

Lemma performRedo_positive (p : Canvas.Props) (s : Canvas.State) :
  positive_list (Canvas.anns p) ->
  hist_positive (Canvas.hist s) ->
  let r := Canvas.performRedo p s in
  updates_positive (snd r) /\ hist_positive (Canvas.hist (fst r)) /\
  UI.initialMoveRect (Canvas.ui (fst r)) = UI.initialMoveRect (Canvas.ui s).
Proof.
  intros Hl (Hu & Hr & Hp & Hd). unfold Canvas.performRedo.
  destruct (Canvas.History.redoStack (Canvas.hist s)) as [|f o] eqn:E.
  - cbn [fst snd]. split; [apply updates_positive_nil |].
    split; [repeat split; auto; rewrite E; constructor | reflexivity].
  - cbn [fst snd Canvas.hist Canvas.ui]. inversion Hr; subst.
    split; [| split; [| reflexivity]].
    + apply updates_positive_single. now apply Forall_last.
    + unfold hist_positive. cbn. rewrite E.
      repeat split; auto using Forall_snoc.
      apply (Forall_removelast _ (f :: o)). now constructor.
Qed.

Lemma dispatch_positive (w : Canvas.World) (ev : Canvas.Event) :
  well_sized w -> editor_event ev ->
  let r := Canvas.dispatch w ev in
  updates_positive (snd r) /\ hist_positive (Canvas.hist (fst r)) /\
  positive_rect (UI.initialMoveRect (Canvas.ui (fst r))).
Proof.
  intros (HW & HH & Hl & Hh & Hi) Hev.
  destruct ev; cbn [Canvas.dispatch];
    try (cbn [fst snd]; split; [apply updates_positive_nil | now split]).
  - now apply handleMouseDown_positive.
  - destruct (ToolMode_eqb _ _) eqn:Em;
      [| now apply handleMouseDown_positive].
    unfold Canvas.handleAnnotationMouseDown. rewrite Em. cbn [negb].
    destruct (find _ _) as [ann|] eqn:Ef; cbn [fst snd Canvas.hist Canvas.ui].
    + split; [apply updates_positive_other; discriminate |].
      split; [now apply startHistoryAction_positive |].
      apply find_some in Ef as [Hin _].
      apply yoloToSvg_positive; auto.
      unfold positive_list in Hl. rewrite Forall_forall in Hl. now apply Hl.
    + split; [apply updates_positive_other; discriminate | auto].
  - destruct (ToolMode_eqb _ _) eqn:Em;
      [| now apply handleMouseDown_positive].
    unfold Canvas.handleResizeMouseDown. rewrite Em.
    cbn [negb fst snd Canvas.hist Canvas.ui].
    split; [apply updates_positive_nil |].
    split; [now apply startHistoryAction_positive | exact Hi].
  - pose proof (handleMouseMove_positive (Canvas.props w) (Canvas.container w)
                  (Canvas.nextRef w) e (Canvas.state w) HW HH Hl Hi)
      as [Hup Einit].
    pose proof (handleMouseMove_shape (Canvas.props w) (Canvas.container w)
                  (Canvas.nextRef w) e (Canvas.state w)) as (Ehist & _).
    cbn zeta in *. rewrite Ehist, Einit. auto.
  - now apply handleMouseUp_positive.
  - destruct (performUndo_positive (Canvas.props w) (Canvas.state w) Hl Hh)
      as (? & ? & E). cbn zeta in *. rewrite E. auto.
  - destruct (performRedo_positive (Canvas.props w) (Canvas.state w) Hl Hh)
      as (? & ? & E). cbn zeta in *. rewrite E. auto.
Qed.

Lemma applyCallbacks_positive (cbs : list Callback) (p : Canvas.Props) :
  updates_positive cbs -> positive_list (Canvas.anns p) ->
  let p' := fold_left Canvas.applyCallback cbs p in
  positive_list (Canvas.anns p') /\
  Image.width (Canvas.image p') = Image.width (Canvas.image p) /\
  Image.height (Canvas.image p') = Image.height (Canvas.image p).
Proof.
  revert p. induction cbs as [|c cbs IH]; intros p Hup Hl; [easy |].
  cbn [fold_left].
  assert (Hup' : updates_positive cbs)
    by (intros a Ha; apply Hup; now right).
  assert (Hstep : positive_list (Canvas.anns (Canvas.applyCallback p c)) /\
                  Image.width (Canvas.image (Canvas.applyCallback p c))
                  = Image.width (Canvas.image p) /\
                  Image.height (Canvas.image (Canvas.applyCallback p c))
                  = Image.height (Canvas.image p)).
  { destruct c; cbn; repeat split; auto. apply Hup. now left. }
  destruct Hstep as (H1 & H2 & H3).
  destruct (IH _ Hup' H1) as (? & -> & ->). auto.
Qed.

Lemma hostProps_positive (w : Canvas.World) (ev : Canvas.Event) :
  well_sized w -> editor_event ev ->
  let p' := Canvas.hostProps w ev in
  0 < Image.width (Canvas.image p') /\ 0 < Image.height (Canvas.image p') /\
  positive_list (Canvas.anns p').
Proof.
  intros (HW & HH & Hl & _ & _) Hev.
  destruct ev; cbn in *; auto; tauto.
Qed.

Lemma react_well_sized (w : Canvas.World) (ev : Canvas.Event) :
  well_sized w -> editor_event ev -> well_sized (Canvas.react w ev).
Proof.
  intros Hws Hev.
  pose proof (dispatch_positive w ev Hws Hev) as (Hup & Hh & Hi).
  pose proof (hostProps_positive w ev Hws Hev) as (HW & HH & Hl).
  unfold Canvas.react.
  set (r := Canvas.dispatch w ev) in *.
  destruct (applyCallbacks_positive (snd r) (Canvas.hostProps w ev) Hup Hl)
    as (Hl' & EW & EH).
  set (p' := fold_left Canvas.applyCallback (snd r) (Canvas.hostProps w ev))
    in *.
  unfold well_sized, Canvas.current, Canvas.render.
  cbn [Canvas.props Canvas.state Canvas.ui Canvas.hist].
  rewrite EW, EH. repeat split; auto.
  all: destruct (Canvas.depsChanged _ _); try apply Hh;
    now apply historyEffect_positive.
Qed.

Lemma mount_well_sized (p : Canvas.Props) (c : option Point.t) :
  0 < Image.width (Canvas.image p) -> 0 < Image.height (Canvas.image p) ->
  positive_list (Canvas.anns p) ->
  well_sized (Canvas.mount p c).
Proof.
  intros HW HH Hl. unfold well_sized, hist_positive. cbn.
  repeat split; auto.
Qed.

Lemma run_well_sized (w : Canvas.World) (evs : list Canvas.Event) :
  well_sized w -> Forall editor_event evs -> well_sized (Canvas.run w evs).
Proof.
  intros Hw Hall. revert w Hw.
  induction Hall as [|ev evs Hev _ IH]; intros w Hw; [exact Hw |].
  cbn [Canvas.run fold_left]. apply IH. now apply react_well_sized.
Qed.

Lemma legacy_updates_positive (p : LegacyCanvas.Props)
      (container : option Point.t) (fresh : nat) (e : MouseEvent)
      (uuid id : string) (u : UI.t) :
  0 < Image.width (LegacyCanvas.image p) ->
  0 < Image.height (LegacyCanvas.image p) ->
  positive_list (LegacyCanvas.anns p) ->
  positive_rect (UI.initialMoveRect u) ->
  updates_positive (snd (LegacyCanvas.handleMouseMove p container fresh e u)) /\
  updates_positive (snd (LegacyCanvas.handleMouseUp p fresh uuid u)) /\
  positive_rect
    (UI.initialMoveRect (fst (LegacyCanvas.handleAnnMouseDown p container e id u))).
Proof.
  intros HW HH Hl Hinit. split; [| split].
  - unfold LegacyCanvas.handleMouseMove. cbn zeta.
    break_match; invert_guards; cbn [snd];
      try apply updates_positive_nil;
      try (apply updates_positive_other; discriminate);
      apply updates_positive_single; unfold positive_list; cbn [items];
      apply replaceGeometry_positive; try exact Hl;
      apply svgToYolo_positive; try assumption.
    all: try match goal with
         | |- context [LegacyCanvas.resizeRect ?hd ?rect ?ex ?ey] =>
             pose proof (legacy_resizeRect_clamped hd rect ex ey)
               as (Hw & Hh & _); cbn zeta in Hw, Hh; lra
         end.
    all: match goal with
         | H : moveRect ?f ?t ?xl ?yl ?i ?st ?ps = (?r, _) |- _ =>
             pose proof (moveRect_placed f t xl yl i st ps)
               as (_ & _ & Ew & Eh);
             rewrite H in Ew, Eh; cbn [fst] in Ew, Eh; rewrite ?Ew, ?Eh
         end.
    all: match goal with
         | H : UI.initialMoveRect _ = Some _ |- _ =>
             rewrite H in Hinit; apply Hinit
         end.
  - unfold LegacyCanvas.handleMouseUp, LegacyCanvas.finalizeCreation.
    break_match; invert_guards; cbn [snd];
      try apply updates_positive_nil;
      try (apply updates_positive_other; discriminate).
    intros a [E | [E | []]]; [| discriminate].
    inversion E; subst. unfold positive_list. cbn [items].
    apply Forall_snoc; [exact Hl |].
    unfold positive_box, spreadYolo. cbn [BBox.w BBox.h].
    apply svgToYolo_positive; auto; lra.
  - unfold LegacyCanvas.handleAnnMouseDown.
    break_match; cbn [fst UI.initialMoveRect UI.setInitialMoveRect
                      UI.setDragStart UI.setIsDragging
                      UI.setDraggingAnnotationId]; try exact Hinit.
    apply find_some in Heqo as [Hin _].
    apply yoloToSvg_positive; auto.
    unfold positive_list in Hl. rewrite Forall_forall in Hl. now apply Hl.
Qed.

(** C10: every operation of the editor (finalising a draw, a move event, a
    resize event, undo, redo, and the pointer-downs) keeps every annotation
    of the list at positive width and height, on a frame of positive size.
    The invariant, extended to the snapshots the history holds and to the
    rectangle recorded for a move, is preserved by each event (the host's
    replacements included, when what it supplies is positive), so it holds
    after any sequence of them on a list that satisfied it; the earlier
    canvas commits positive lists as well. *)
Theorem editor_operations_keep_sizes_positive :
  (forall (w : Canvas.World) (ev : Canvas.Event),
      well_sized w -> editor_event ev -> well_sized (Canvas.react w ev)) /\
  (forall (p : Canvas.Props) (c : option Point.t) (evs : list Canvas.Event),
      0 < Image.width (Canvas.image p) -> 0 < Image.height (Canvas.image p) ->
      positive_list (Canvas.anns p) ->
      Forall editor_event evs ->
      positive_list (Canvas.current (Canvas.run (Canvas.mount p c) evs))) /\
  (forall (p : LegacyCanvas.Props) (container : option Point.t) (fresh : nat)
          (e : MouseEvent) (uuid id : string) (u : UI.t),
      0 < Image.width (LegacyCanvas.image p) ->
      0 < Image.height (LegacyCanvas.image p) ->
      positive_list (LegacyCanvas.anns p) ->
      positive_rect (UI.initialMoveRect u) ->
      updates_positive
        (snd (LegacyCanvas.handleMouseMove p container fresh e u)) /\
      updates_positive (snd (LegacyCanvas.handleMouseUp p fresh uuid u)) /\
      positive_rect
        (UI.initialMoveRect
           (fst (LegacyCanvas.handleAnnMouseDown p container e id u)))).
Proof.
  split; [exact react_well_sized |]. split.
  - intros p c evs HW HH Hl Hall.
    now apply (run_well_sized (Canvas.mount p c) evs
                 (mount_well_sized p c HW HH Hl) Hall).
  - intros. now apply legacy_updates_positive.
Qed.

Lemma sample_positive : positive_list (Image.annotations Sample.image).
Proof. repeat constructor. Qed.

(** A resize down to 2 x 2 pixels, a draw, an undo and a redo. *)
Lemma editor_operations_keep_sizes_positive_witness :
  let evs :=
    [Canvas.ResizeMouseDown (mkMouse 75 75) br "a";
     Canvas.MouseMove (mkMouse 27 27); Canvas.MouseMove (mkMouse 20 20);
     Canvas.MouseUp "u"; Canvas.Undo; Canvas.Redo] in
  let p := Canvas.setSelected (Some "a"%string) (Sample.props SELECT 0) in
  (0 < Image.width (Canvas.image p) /\ 0 < Image.height (Canvas.image p) /\
   positive_list (Canvas.anns p) /\ Forall editor_event evs) /\
  positive_list (Canvas.current (Canvas.run (Canvas.mount p Sample.origin) evs)).
Proof.
  cbn zeta.
  assert (Hev : Forall editor_event
                  [Canvas.ResizeMouseDown (mkMouse 75 75) br "a";
                   Canvas.MouseMove (mkMouse 27 27);
                   Canvas.MouseMove (mkMouse 20 20);
                   Canvas.MouseUp "u"; Canvas.Undo; Canvas.Redo])
    by (repeat constructor).
  split.
  - split; [reflexivity |]. split; [reflexivity |].
    split; [exact sample_positive | exact Hev].
  - apply (proj1 (proj2 editor_operations_keep_sizes_positive)
             (Canvas.setSelected (Some "a"%string) (Sample.props SELECT 0))
             Sample.origin _ eq_refl eq_refl sample_positive Hev).
Defined.


(** * Further properties of the code *)

(** ** Guide lines *)

Lemma pushLines_filter (W H : Q) (ex : option string) (anns : list BBox.t)
      (xs ys : list Q) :
  pushLines W H ex anns xs ys
  = pushLines W H None (filter (fun a => negb (excluded ex a)) anns) xs ys.
Proof.
  revert xs ys. induction anns as [|a l IH]; intros xs ys; [reflexivity |].
  cbn [pushLines filter]. destruct (excluded ex a); cbn [negb].
  - apply IH.
  - cbn [pushLines excluded]. apply IH.
Qed.

Lemma pushLines_keeps (W H : Q) (ex : option string) (anns : list BBox.t)
      (xs ys : list Q) :
  (forall v, In v xs -> In v (fst (pushLines W H ex anns xs ys))) /\
  (forall v, In v ys -> In v (snd (pushLines W H ex anns xs ys))).
Proof.
  revert xs ys. induction anns as [|a l IH]; intros xs ys; [now cbn |].
  cbn [pushLines]. destruct (excluded ex a); [apply IH |].
  split; intros v Hv; apply IH; apply in_or_app; now left.
Qed.

Lemma pushLines_length (W H : Q) (anns : list BBox.t) (xs ys : list Q) :
  length (fst (pushLines W H None anns xs ys))
  = (length xs + 2 * length anns)%nat /\
  length (snd (pushLines W H None anns xs ys))
  = (length ys + 2 * length anns)%nat.
Proof.
  revert xs ys. induction anns as [|a l IH]; intros xs ys.
  - cbn. lia.
  - cbn [pushLines excluded]. destruct (IH (xs ++ [Rect.x (yoloToSvg a W H);
                                    Rect.x (yoloToSvg a W H)
                                    + Rect.w (yoloToSvg a W H)])
                        (ys ++ [Rect.y (yoloToSvg a W H);
                                    Rect.y (yoloToSvg a W H)
                                    + Rect.h (yoloToSvg a W H)]))
      as [-> ->].
    rewrite !length_app. cbn [length]. lia.
Qed.

(** X1: the guide lines offered while an annotation is excluded are those
    of the list without that annotation, so its own edges are never a snap
    target of its own gesture; the four image bounds are always among the
    lines, and every other annotation contributes two lines per axis. *)
Theorem snap_lines_leave_out_excluded
        (W H : Q) (anns : list BBox.t) (ex : option string) :
  let others := filter (fun a => negb (excluded ex a)) anns in
  getSnapLines W H anns ex = getSnapLines W H others None /\
  (In 0 (fst (getSnapLines W H anns ex)) /\
   In W (fst (getSnapLines W H anns ex)) /\
   In 0 (snd (getSnapLines W H anns ex)) /\
   In H (snd (getSnapLines W H anns ex))) /\
  length (fst (getSnapLines W H anns ex)) = (2 + 2 * length others)%nat /\
  length (snd (getSnapLines W H anns ex)) = (2 + 2 * length others)%nat.
Proof.
  intros others. unfold getSnapLines.
  split; [apply pushLines_filter |]. split.
  - destruct (pushLines_keeps W H ex anns [0; W] [0; H]) as [Hx Hy].
    repeat split; first [apply Hx | apply Hy]; cbn; auto.
  - rewrite pushLines_filter. fold others.
    destruct (pushLines_length W H others [0; W] [0; H]) as [-> ->].
    cbn [length]. lia.
Qed.

(** ** Pointer positions *)

(** X2: [getMousePos] inverts the transform of the image layer: the
    pointer over the place where an image point is displayed is read back
    as that point, for any pan and any zoom other than zero; with the
    container not mounted every pointer reads as the origin. *)
Theorem getMousePos_inverts_view
        (rect pan : Point.t) (zoom : Q) (q : Point.t) (e : MouseEvent) :
  ~ zoom == 0 ->
  Point.x (getMousePos (Some rect) pan zoom (toScreen rect pan zoom q))
  == Point.x q /\
  Point.y (getMousePos (Some rect) pan zoom (toScreen rect pan zoom q))
  == Point.y q /\
  getMousePos None pan zoom e = Point.mk 0 0.
Proof.
  intros Hz. unfold getMousePos, toScreen.
  cbn [Point.x Point.y clientX clientY].
  repeat split; field; exact Hz.
Qed.

Lemma getMousePos_inverts_view_witness :
  Point.x (getMousePos (Some (Point.mk 10 20)) (Point.mk 3 4) 2
             (toScreen (Point.mk 10 20) (Point.mk 3 4) 2 (Point.mk 7 9)))
  == 7.
Proof.
  refine (proj1 (getMousePos_inverts_view (Point.mk 10 20) (Point.mk 3 4) 2
                   (Point.mk 7 9) (mkMouse 0 0) _)).
  intros E. discriminate E.
Defined.

(** ** The rectangle being drawn *)

(** X3: the rectangle spanned between the anchor and the moving corner has
    non-negative width and height whatever the direction of the drag; its
    sides lie on the anchor and on the moving corner; and exchanging the two
    corners gives the same rectangle. *)
Theorem creationRect_spans_both_corners (start : Point.t) (cx cy : Q) :
  let r := creationRect start cx cy in
  (0 <= Rect.w r /\ 0 <= Rect.h r) /\
  (Rect.x r == Qmin (Point.x start) cx /\
   Rect.x r + Rect.w r == Qmax (Point.x start) cx /\
   Rect.y r == Qmin (Point.y start) cy /\
   Rect.y r + Rect.h r == Qmax (Point.y start) cy) /\
  (let r' := creationRect (Point.mk cx cy) (Point.x start) (Point.y start) in
   Rect.x r' == Rect.x r /\ Rect.y r' == Rect.y r /\
   Rect.w r' == Rect.w r /\ Rect.h r' == Rect.h r).
Proof.
  unfold creationRect. cbn [Rect.x Rect.y Rect.w Rect.h Point.x Point.y].
  repeat split; try apply Qabs_nonneg; try reflexivity.
  - destruct (Q.min_spec (Point.x start) cx) as [[Hlt Hm]|[Hle Hm]];
      destruct (Q.max_spec (Point.x start) cx) as [[Hlt' HM]|[Hle' HM]];
      rewrite Hm, HM; try lra.
    + rewrite Qabs_pos; lra.
    + rewrite Qabs_neg; lra.
  - destruct (Q.min_spec (Point.y start) cy) as [[Hlt Hm]|[Hle Hm]];
      destruct (Q.max_spec (Point.y start) cy) as [[Hlt' HM]|[Hle' HM]];
      rewrite Hm, HM; try lra.
    + rewrite Qabs_pos; lra.
    + rewrite Qabs_neg; lra.
  - apply Q.min_comm.
  - apply Q.min_comm.
  - rewrite <- (Qabs_opp (cx - Point.x start)). apply Qabs_wd. ring.
  - rewrite <- (Qabs_opp (cy - Point.y start)). apply Qabs_wd. ring.
Qed.

(** ** The history as a timeline *)

Lemma reachable_run (w : Canvas.World) (evs : list Canvas.Event) :
  reachable w -> reachable (Canvas.run w evs).
Proof.
  intros (p & c & evs0 & ->). exists p, c, (evs0 ++ evs).
  unfold Canvas.run. now rewrite fold_left_app.
Qed.

Lemma reachable_react (w : Canvas.World) (ev : Canvas.Event) :
  reachable w -> reachable (Canvas.react w ev).
Proof. intros Hr. apply (reachable_run w [ev] Hr). Qed.

Lemma reachable_session (p : Canvas.Props) (c : option Point.t)
      (acts : list Action) :
  reachable (session (Canvas.mount p c) acts).
Proof.
  induction acts as [|a acts IH] using rev_ind.
  - now exists p, c, [].
  - rewrite session_snoc. now apply reachable_run.
Qed.

Lemma timeline_undo (w : Canvas.World) :
  synced w -> timeline (Canvas.react w Canvas.Undo) = timeline w.
Proof.
  intros Hs. unfold timeline.
  destruct (Canvas.undoStackOf w) as [|a l] eqn:E.
  - destruct (undo_noop w E) as [Ep Est].
    unfold Canvas.undoStackOf, Canvas.redoStackOf, Canvas.current in *.
    now rewrite Ep, Est, E.
  - destruct (exists_last (l := a :: l)) as (us & top & E'); [discriminate |].
    rewrite E' in E.
    destruct (undo_step w us top Hs E) as (-> & -> & ->).
    rewrite E', rev_app_distr, <- !app_assoc. reflexivity.
Qed.

Lemma timeline_redo (w : Canvas.World) :
  synced w -> timeline (Canvas.react w Canvas.Redo) = timeline w.
Proof.
  intros Hs. unfold timeline.
  destruct (Canvas.redoStackOf w) as [|a l] eqn:E.
  - destruct (redo_noop w E) as [Ep Est].
    unfold Canvas.undoStackOf, Canvas.redoStackOf, Canvas.current in *.
    now rewrite Ep, Est, E.
  - destruct (exists_last (l := a :: l)) as (rs & top & E'); [discriminate |].
    rewrite E' in E.
    destruct (redo_step w rs top Hs E) as (-> & -> & ->).
    rewrite E', rev_app_distr, <- !app_assoc. reflexivity.
Qed.

Lemma handleKeyDown_history (toLowerCase : string -> string)
      (e : Shortcuts.KeyboardEvent) (ev : Canvas.Event) :
  Shortcuts.handleKeyDown toLowerCase e = Some ev ->
  ev = Canvas.Undo \/ ev = Canvas.Redo.
Proof.
  unfold Shortcuts.handleKeyDown. break_match; intros [= <-]; auto.
Qed.

(** X4: undo and redo, from the keyboard or called directly, only move
    along a fixed timeline: whatever keys are pressed in whatever state the
    component has reached, the sequence made of the undo stack, the current
    list and the reversed redo stack stays the same, so no snapshot is lost,
    duplicated or reordered; and a key pressed inside a text field does
    nothing at all. *)
Theorem shortcuts_walk_the_timeline
        (toLowerCase : string -> string) (w : Canvas.World)
        (keys : list Shortcuts.KeyboardEvent) :
  reachable w ->
  timeline (Canvas.run w (Shortcuts.keyEvents toLowerCase keys)) = timeline w
  /\
  (Forall (fun e => Shortcuts.inTextField e = true) keys ->
   Canvas.run w (Shortcuts.keyEvents toLowerCase keys) = w).
Proof.
  intros Hr. split.
  - revert w Hr. induction keys as [|e keys IH]; intros w Hr; [reflexivity |].
    unfold Shortcuts.keyEvents. cbn [flat_map].
    fold (Shortcuts.keyEvents toLowerCase keys).
    unfold Canvas.run. rewrite fold_left_app.
    fold (Canvas.run w) (Canvas.run).
    destruct (Shortcuts.handleKeyDown toLowerCase e) as [ev|] eqn:E.
    + cbn [fold_left].
      change (fold_left Canvas.react (Shortcuts.keyEvents toLowerCase keys)
                (Canvas.react w ev))
        with (Canvas.run (Canvas.react w ev)
                (Shortcuts.keyEvents toLowerCase keys)).
      rewrite IH by now apply reachable_react.
      apply reachable_synced in Hr.
      destruct (handleKeyDown_history _ _ _ E) as [-> | ->];
        [now apply timeline_undo | now apply timeline_redo].
    + cbn [fold_left]. now apply IH.
  - intros Hall. induction Hall as [|e keys He _ IH]; [reflexivity |].
    unfold Shortcuts.keyEvents. cbn [flat_map].
    unfold Shortcuts.handleKeyDown at 1. rewrite He. exact IH.
Qed.

(** Ctrl+Z, Ctrl+Shift+Z, Ctrl+Y and a key typed in a text field, after a
    move gesture. *)
Lemma shortcuts_walk_the_timeline_witness :
  timeline
    (Canvas.run Scenario.zeroDrag
       (Shortcuts.keyEvents (fun s => s)
          [Shortcuts.mkKey true false false "z" false;
           Shortcuts.mkKey true false true "z" false;
           Shortcuts.mkKey false true false "y" false;
           Shortcuts.mkKey true false false "z" true]))
  = timeline Scenario.zeroDrag.
Proof.
  refine (proj1 (shortcuts_walk_the_timeline (fun s => s) Scenario.zeroDrag
                   _ _)).
  exists (Sample.props SELECT 0), Sample.origin,
    [Scenario.grab; Canvas.MouseMove (mkMouse 30 30);
     Canvas.MouseUp "u"%string].
  reflexivity.
Defined.

Lemma repeat_snoc {A} (x : A) (n : nat) :
  repeat x (S n) = repeat x n ++ [x].
Proof. induction n as [|n IH]; [reflexivity |]. cbn in *. now rewrite <- IH. Qed.

Lemma run_app (w : Canvas.World) (l1 l2 : list Canvas.Event) :
  Canvas.run w (l1 ++ l2) = Canvas.run (Canvas.run w l1) l2.
Proof. unfold Canvas.run. now rewrite fold_left_app. Qed.

Lemma undos_redos (w : Canvas.World) (n : nat) :
  reachable w ->
  (n <= length (Canvas.undoStackOf w))%nat ->
  let w' := Canvas.run w (repeat Canvas.Undo n ++ repeat Canvas.Redo n) in
  Canvas.current w' = Canvas.current w /\
  Canvas.undoStackOf w' = Canvas.undoStackOf w /\
  Canvas.redoStackOf w' = Canvas.redoStackOf w.
Proof.
  revert w. induction n as [|n IH]; intros w Hr Hn; [now cbn |].
  destruct (Canvas.undoStackOf w) as [|a l] eqn:E; [cbn in Hn; lia |].
  destruct (exists_last (l := a :: l)) as (us & top & E'); [discriminate |].
  rewrite E' in E.
  pose proof (undo_step w us top (reachable_synced w Hr) E) as (Ec & Eu & Er).
  cbn zeta in *. rewrite (repeat_snoc Canvas.Redo n), app_assoc, run_snoc.
  cbn [repeat app Canvas.run fold_left].
  change (fold_left Canvas.react (repeat Canvas.Undo n ++ repeat Canvas.Redo n)
            (Canvas.react w Canvas.Undo))
    with (Canvas.run (Canvas.react w Canvas.Undo)
            (repeat Canvas.Undo n ++ repeat Canvas.Redo n)).
  assert (Hr1 : reachable (Canvas.react w Canvas.Undo))
    by now apply reachable_react.
  destruct (IH (Canvas.react w Canvas.Undo) Hr1) as (Ec2 & Eu2 & Er2).
  { rewrite Eu. rewrite E', length_app in Hn. cbn in Hn. lia. }
  set (w2 := Canvas.run _ _) in *.
  assert (Hr2 : reachable w2) by now apply reachable_run.
  rewrite Er in Er2.
  pose proof (redo_step w2 _ _ (reachable_synced w2 Hr2) Er2)
    as (Ec3 & Er3 & Eu3).
  cbn zeta in *. rewrite Ec3, Er3, Eu3, Eu2, Eu, Ec2, Ec, E', <- E.
  auto.
Qed.

Lemma redos_undos (w : Canvas.World) (n : nat) :
  reachable w ->
  (n <= length (Canvas.redoStackOf w))%nat ->
  let w' := Canvas.run w (repeat Canvas.Redo n ++ repeat Canvas.Undo n) in
  Canvas.current w' = Canvas.current w /\
  Canvas.undoStackOf w' = Canvas.undoStackOf w /\
  Canvas.redoStackOf w' = Canvas.redoStackOf w.
Proof.
  revert w. induction n as [|n IH]; intros w Hr Hn; [now cbn |].
  destruct (Canvas.redoStackOf w) as [|a l] eqn:E; [cbn in Hn; lia |].
  destruct (exists_last (l := a :: l)) as (rs & top & E'); [discriminate |].
  rewrite E' in E.
  pose proof (redo_step w rs top (reachable_synced w Hr) E) as (Ec & Er & Eu).
  cbn zeta in *. rewrite (repeat_snoc Canvas.Undo n), app_assoc, run_snoc.
  cbn [repeat app Canvas.run fold_left].
  change (fold_left Canvas.react (repeat Canvas.Redo n ++ repeat Canvas.Undo n)
            (Canvas.react w Canvas.Redo))
    with (Canvas.run (Canvas.react w Canvas.Redo)
            (repeat Canvas.Redo n ++ repeat Canvas.Undo n)).
  assert (Hr1 : reachable (Canvas.react w Canvas.Redo))
    by now apply reachable_react.
  destruct (IH (Canvas.react w Canvas.Redo) Hr1) as (Ec2 & Eu2 & Er2).
  { rewrite Er. rewrite E', length_app in Hn. cbn in Hn. lia. }
  set (w2 := Canvas.run _ _) in *.
  assert (Hr2 : reachable w2) by now apply reachable_run.
  rewrite Eu in Eu2.
  pose proof (undo_step w2 _ _ (reachable_synced w2 Hr2) Eu2)
    as (Ec3 & Eu3 & Er3).
  cbn zeta in *. rewrite Ec3, Er3, Eu3, Er2, Er, Ec2, Ec, E', <- E.
  auto.
Qed.

(** X5: undoing [n] times and then redoing [n] times brings back the
    list and both stacks exactly, for any [n] up to the height of the undo
    stack and in any state the component has reached; likewise [n] redos
    followed by [n] undos, up to the height of the redo stack. *)
Theorem undo_redo_round_trip (w : Canvas.World) (n : nat) :
  reachable w ->
  ((n <= length (Canvas.undoStackOf w))%nat ->
   let w' := Canvas.run w (repeat Canvas.Undo n ++ repeat Canvas.Redo n) in
   Canvas.current w' = Canvas.current w /\
   Canvas.undoStackOf w' = Canvas.undoStackOf w /\
   Canvas.redoStackOf w' = Canvas.redoStackOf w) /\
  ((n <= length (Canvas.redoStackOf w))%nat ->
   let w' := Canvas.run w (repeat Canvas.Redo n ++ repeat Canvas.Undo n) in
   Canvas.current w' = Canvas.current w /\
   Canvas.undoStackOf w' = Canvas.undoStackOf w /\
   Canvas.redoStackOf w' = Canvas.redoStackOf w).
Proof.
  intros Hr. split; intros Hn; [now apply undos_redos | now apply redos_undos].
Qed.

Lemma undo_redo_round_trip_witness :
  Canvas.current
    (Canvas.run Scenario.zeroDrag
       (repeat Canvas.Undo 1 ++ repeat Canvas.Redo 1))
  = Canvas.current Scenario.zeroDrag.
Proof.
  assert (Hr : reachable Scenario.zeroDrag).
  { exists (Sample.props SELECT 0), Sample.origin,
      [Scenario.grab; Canvas.MouseMove (mkMouse 30 30);
       Canvas.MouseUp "u"%string].
    reflexivity. }
  assert (Hn : (1 <= length (Canvas.undoStackOf Scenario.zeroDrag))%nat).
  { vm_compute. lia. }
  exact (proj1 (proj1 (undo_redo_round_trip Scenario.zeroDrag 1 Hr) Hn)).
Defined.

(** ** Changes made by the host *)


(** ** Panning *)

Lemma hostProps_pointer (w : Canvas.World) (ev : Canvas.Event) :
  pointer_event ev -> Canvas.hostProps w ev = Canvas.props w.
Proof. now destruct ev. Qed.

Lemma pan_down (w : Canvas.World) (d : Down) :
  Canvas.mode (Canvas.props w) = PAN ->
  let w' := Canvas.react w (downEvent d) in
  Canvas.props w' = Canvas.props w /\
  Canvas.hist (Canvas.state w') = Canvas.hist (Canvas.state w) /\
  UI.isDragging (Canvas.ui (Canvas.state w')) = true /\
  UI.dragStart (Canvas.ui (Canvas.state w'))
  = Some (Point.mk (clientX (downMouse d)) (clientY (downMouse d))).
Proof.
  intros Hm. unfold Canvas.react.
  assert (E : Canvas.dispatch w (downEvent d)
              = Canvas.handleMouseDown (Canvas.props w) (Canvas.container w)
                  (downMouse d) (Canvas.state w)).
  { destruct d; cbn [downEvent Canvas.dispatch downMouse]; now rewrite ?Hm. }
  rewrite E, hostProps_pointer by now destruct d.
  unfold Canvas.handleMouseDown. rewrite Hm. cbn [fst snd fold_left].
  match goal with
  | |- context [Canvas.render w (Canvas.props w) ?s] =>
      destruct (render_same w s) as [-> ->]
  end.
  now cbn.
Qed.

Lemma pan_move (w : Canvas.World) (start : Point.t) (e : MouseEvent) :
  Canvas.mode (Canvas.props w) = PAN ->
  UI.isDragging (Canvas.ui (Canvas.state w)) = true ->
  UI.dragStart (Canvas.ui (Canvas.state w)) = Some start ->
  let w' := Canvas.react w (Canvas.MouseMove e) in
  Canvas.props w'
  = Canvas.setPan
      (Point.mk (Point.x (Canvas.pan (Canvas.props w))
                 + (clientX e - Point.x start))
                (Point.y (Canvas.pan (Canvas.props w))
                 + (clientY e - Point.y start)))
      (Canvas.props w) /\
  Canvas.hist (Canvas.state w') = Canvas.hist (Canvas.state w) /\
  UI.isDragging (Canvas.ui (Canvas.state w')) = true /\
  UI.dragStart (Canvas.ui (Canvas.state w'))
  = Some (Point.mk (clientX e) (clientY e)).
Proof.
  intros Hm Hd Hs. unfold Canvas.react. cbn [Canvas.dispatch Canvas.hostProps].
  unfold Canvas.handleMouseMove. rewrite Hm, Hd, Hs. cbn [ToolMode_eqb andb guard].
  cbn [fst snd fold_left Canvas.applyCallback].
  split; [reflexivity |]. split.
  - now rewrite render_hist_unchanged by apply depsChanged_setPan.
  - unfold Canvas.render. now cbn.
Qed.

(** X7: in pan mode a press anywhere (canvas, annotation or handle) starts
    a pan, and after any number of pointer-moves the pan offset has moved by
    exactly the displacement of the pointer since the press, however the
    movement was split into events; the annotations, the selection and the
    history are untouched. *)
Theorem pan_follows_the_pointer
        (w : Canvas.World) (d : Down) (moves : list MouseEvent) :
  Canvas.mode (Canvas.props w) = PAN ->
  let wn := Canvas.run w (downEvent d :: map Canvas.MouseMove moves) in
  let e0 := downMouse d in
  let en := last moves e0 in
  Point.x (Canvas.pan (Canvas.props wn))
  == Point.x (Canvas.pan (Canvas.props w)) + (clientX en - clientX e0) /\
  Point.y (Canvas.pan (Canvas.props wn))
  == Point.y (Canvas.pan (Canvas.props w)) + (clientY en - clientY e0) /\
  Canvas.current wn = Canvas.current w /\
  Canvas.selectedAnnotationId (Canvas.props wn)
  = Canvas.selectedAnnotationId (Canvas.props w) /\
  Canvas.hist (Canvas.state wn) = Canvas.hist (Canvas.state w).
Proof.
  intros Hm wn e0 en. subst wn en.
  assert (H : let wn := Canvas.run w (downEvent d :: map Canvas.MouseMove moves)
              in
              Canvas.mode (Canvas.props wn) = PAN /\
              UI.isDragging (Canvas.ui (Canvas.state wn)) = true /\
              UI.dragStart (Canvas.ui (Canvas.state wn))
              = Some (Point.mk (clientX (last moves e0))
                               (clientY (last moves e0))) /\
              Point.x (Canvas.pan (Canvas.props wn))
              == Point.x (Canvas.pan (Canvas.props w))
                 + (clientX (last moves e0) - clientX e0) /\
              Point.y (Canvas.pan (Canvas.props wn))
              == Point.y (Canvas.pan (Canvas.props w))
                 + (clientY (last moves e0) - clientY e0) /\
              Canvas.current wn = Canvas.current w /\
              Canvas.selectedAnnotationId (Canvas.props wn)
              = Canvas.selectedAnnotationId (Canvas.props w) /\
              Canvas.hist (Canvas.state wn) = Canvas.hist (Canvas.state w)).
  { induction moves as [|e moves IH] using rev_ind.
    - cbn [map Canvas.run fold_left last].
      destruct (pan_down w d Hm) as (Ep & Eh & Ed & Es).
      unfold Canvas.current. rewrite Ep, Eh, Ed, Es.
      repeat split; auto; ring.
    - rewrite map_app. cbn [map].
      change (downEvent d :: map Canvas.MouseMove moves ++ [Canvas.MouseMove e])
        with ((downEvent d :: map Canvas.MouseMove moves)
              ++ [Canvas.MouseMove e]).
      rewrite run_snoc, last_last. cbn zeta in IH.
      destruct IH as (Hm' & Hd' & Hs' & Hx & Hy & Hc & Hsel & Hh).
      set (w1 := Canvas.run w _) in *.
      destruct (pan_move w1 _ e Hm' Hd' Hs') as (Ep & Eh & Ed & Es).
      cbn zeta. unfold Canvas.current in *. rewrite Ep, Eh, Ed, Es.
      cbn [Canvas.setPan Canvas.pan Canvas.mode Canvas.anns Canvas.image
           Canvas.selectedAnnotationId Point.x Point.y].
      repeat split; auto.
      + rewrite Hx. ring.
      + rewrite Hy. ring. }
  cbn zeta in H. tauto.
Qed.

(** Press at (5, 5), two moves: the pan has moved by (7, -2). *)
Lemma pan_follows_the_pointer_witness :
  Point.x (Canvas.pan (Canvas.props
     (Canvas.run (Sample.world PAN 0)
        (downEvent (DownCanvas (mkMouse 5 5))
         :: map Canvas.MouseMove [mkMouse 9 9; mkMouse 12 3]))))
  == 0 + (12 - 5).
Proof.
  exact (proj1 (pan_follows_the_pointer (Sample.world PAN 0)
                  (DownCanvas (mkMouse 5 5)) [mkMouse 9 9; mkMouse 12 3]
                  eq_refl)).
Defined.

(** ** Between actions *)

Lemma react_ui_history_event (w : Canvas.World) (ev : Canvas.Event) :
  pointer_event ev \/
  Canvas.ui (Canvas.state (Canvas.react w ev)) = Canvas.ui (Canvas.state w).
Proof.
  destruct ev; cbn [pointer_event]; auto; right;
    unfold Canvas.react, Canvas.render; cbn [Canvas.dispatch Canvas.state
                                              Canvas.ui fst];
    try reflexivity.
  - unfold Canvas.performUndo. now break_match.
  - unfold Canvas.performRedo. now break_match.
Qed.

Lemma react_up_guides (w : Canvas.World) (uuid : string) :
  UI.activeSnapLines (Canvas.ui (Canvas.state
                                   (Canvas.react w (Canvas.MouseUp uuid))))
  = (None, None).
Proof. reflexivity. Qed.

Lemma action_guides (w : Canvas.World) (a : Action) :
  stable w ->
  UI.activeSnapLines (Canvas.ui (Canvas.state w)) = (None, None) ->
  UI.activeSnapLines (Canvas.ui (Canvas.state (Canvas.run w (events_of a))))
  = (None, None).
Proof.
  intros Hst Hg. destruct a; cbn [events_of].
  - unfold gestureEvents.
    change (downEvent d :: map Canvas.MouseMove moves ++ [Canvas.MouseUp uuid])
      with ((downEvent d :: map Canvas.MouseMove moves)
            ++ [Canvas.MouseUp uuid]).
    rewrite run_snoc. apply react_up_guides.
  - cbn [Canvas.run fold_left].
    destruct Hst as ((Hd & _ & _ & Hdi & Hrh & _) & _).
    unfold Canvas.react, Canvas.dispatch.
    rewrite (handleMouseMove_idle _ _ _ _ _ Hd Hrh Hdi). reflexivity.
  - apply react_up_guides.
  - cbn [Canvas.run fold_left].
    destruct (react_ui_history_event w Canvas.Undo) as [[] | ->]. exact Hg.
  - cbn [Canvas.run fold_left].
    destruct (react_ui_history_event w Canvas.Redo) as [[] | ->]. exact Hg.
  - cbn [Canvas.run fold_left].
    destruct (react_ui_history_event w (Canvas.HostUpdate newItems))
      as [[] | ->]. exact Hg.
  - cbn [Canvas.run fold_left].
    destruct (react_ui_history_event w
                (Canvas.HostSwitch id width height newItems)) as [[] | ->].
    exact Hg.
  - cbn [Canvas.run fold_left].
    destruct (react_ui_history_event w
                (Canvas.HostConfigure label m z offset selected snapDistance))
      as [[] | ->].
    exact Hg.
Qed.

Lemma session_ui_initial (p : Canvas.Props) (c : option Point.t)
      (acts : list Action) :
  Canvas.ui (Canvas.state (session (Canvas.mount p c) acts)) = UI.initial.
Proof.
  assert (Hg : UI.activeSnapLines
                 (Canvas.ui (Canvas.state (session (Canvas.mount p c) acts)))
               = (None, None)).
  { induction acts as [|a acts IH] using rev_ind; [reflexivity |].
    rewrite session_snoc. apply action_guides; [apply session_stable | exact IH]. }
  destruct (session_stable p c acts) as ((H1 & H2 & H3 & H4 & H5 & H6) & _).
  destruct (Canvas.ui (Canvas.state (session (Canvas.mount p c) acts))).
  cbn in *. unfold UI.initial. congruence.
Qed.

(** X8: between two actions of a session (gestures, hovering, leaving the
    canvas, undo, redo, changes by the host) the interaction hooks are
    exactly as they were when the component mounted: nothing is dragged,
    no rectangle is being drawn, no handle is held and no guide line is
    shown. *)
Theorem session_rests_in_initial_interaction
        (p : Canvas.Props) (c : option Point.t) (acts : list Action) :
  Canvas.ui (Canvas.state (session (Canvas.mount p c) acts)) = UI.initial.
Proof. apply session_ui_initial. Qed.

(** ** What a pointer can do to the list *)

Lemma replaceGeometry_identity (i : option string) (n : Yolo)
      (l : list BBox.t) :
  map identity (replaceGeometry i n l) = map identity l.
Proof.
  unfold replaceGeometry. rewrite map_map. apply map_ext.
  intros a. now destruct (idIs i a).
Qed.

Lemma applyCallbacks_anns (P : AnnArray -> Prop) (cbs : list Callback)
      (p : Canvas.Props) :
  P (Canvas.anns p) ->
  (forall a, In (OnUpdateAnnotations a) cbs -> P a) ->
  P (Canvas.anns (fold_left Canvas.applyCallback cbs p)).
Proof.
  revert p. induction cbs as [|cb cbs IH]; intros p Hp Hall; [exact Hp |].
  cbn [fold_left]. apply IH.
  - destruct cb; cbn; auto. apply Hall. now left.
  - intros a Hin. apply Hall. now right.
Qed.

Lemma dispatch_appends (w : Canvas.World) (ev : Canvas.Event) :
  pointer_event ev ->
  forall a, In (OnUpdateAnnotations a) (snd (Canvas.dispatch w ev)) ->
  map identity (items a) = map identity (items (Canvas.current w)) \/
  (isMouseUp ev = true /\
   exists x, map identity (items a)
             = map identity (items (Canvas.current w)) ++ [x]).
Proof.
  intros Hev a Hin. unfold Canvas.current.
  destruct ev; try contradiction; cbn [Canvas.dispatch] in Hin.
  1-3: exfalso; revert Hin;
    unfold Canvas.handleAnnotationMouseDown, Canvas.handleResizeMouseDown,
      Canvas.handleMouseDown;
    break_match; cbn [snd In]; intros Hin;
    repeat (destruct Hin as [Hin | Hin]; try discriminate Hin); exact Hin.
  - left. revert Hin. unfold Canvas.handleMouseMove. cbn zeta.
    break_match; invert_guards; cbn [snd In]; intros Hin;
      repeat (destruct Hin as [Hin | Hin]; try discriminate Hin);
      try contradiction;
      injection Hin as <-; cbn [items]; apply replaceGeometry_identity.
  - right. split; [reflexivity |]. revert Hin. unfold Canvas.handleMouseUp.
    cbn zeta. break_match; cbn [snd In]; intros Hin;
      repeat (destruct Hin as [Hin | Hin]; try discriminate Hin);
      try contradiction.
    injection Hin as <-. cbn [items]. rewrite map_app. cbn [map]. eauto.
Qed.

Lemma react_appends (w : Canvas.World) (ev : Canvas.Event) :
  pointer_event ev ->
  exists extra,
    map identity (items (Canvas.current (Canvas.react w ev)))
    = map identity (items (Canvas.current w)) ++ extra /\
    (length extra <= length (filter isMouseUp [ev]))%nat.
Proof.
  intros Hev.
  change (Canvas.current (Canvas.react w ev))
    with (Canvas.anns (fold_left Canvas.applyCallback
                         (snd (Canvas.dispatch w ev))
                         (Canvas.hostProps w ev))).
  rewrite (hostProps_pointer w ev Hev).
  apply (applyCallbacks_anns
           (fun a => exists extra,
                map identity (items a)
                = map identity (items (Canvas.current w)) ++ extra /\
                (length extra <= length (filter isMouseUp [ev]))%nat)).
  - exists []. rewrite app_nil_r. split; [reflexivity | cbn; lia].
  - intros a Hin.
    destruct (dispatch_appends w ev Hev a Hin) as [E | (Hup & x & E)].
    + exists []. rewrite app_nil_r. split; [exact E | cbn; lia].
    + exists [x]. split; [exact E |]. cbn [filter]. rewrite Hup. cbn. lia.
Qed.

(** X9: pointer events never delete, reorder or relabel an annotation.
    After any sequence of presses, moves and releases, in any tool mode and
    from any state, the ids and labels of the list are those it had before,
    in the same order, followed by at most one new annotation per release. *)
Theorem pointer_events_only_append
        (w : Canvas.World) (evs : list Canvas.Event) :
  Forall pointer_event evs ->
  exists extra,
    map identity (items (Canvas.current (Canvas.run w evs)))
    = map identity (items (Canvas.current w)) ++ extra /\
    (length extra <= length (filter isMouseUp evs))%nat.
Proof.
  intros Hall. induction evs as [|ev evs IH] using rev_ind.
  - exists []. rewrite app_nil_r. split; [reflexivity | cbn; lia].
  - apply Forall_app in Hall as [Hevs Hev]. inversion Hev; subst.
    destruct (IH Hevs) as (ex1 & E1 & L1).
    rewrite run_snoc.
    destruct (react_appends (Canvas.run w evs) ev) as (ex2 & E2 & L2);
      [assumption |].
    exists (ex1 ++ ex2). rewrite E2, E1, <- app_assoc. split; [reflexivity |].
    rewrite filter_app, !length_app. lia.
Qed.

(** The fifty-move gesture on box ["a"] leaves one annotation, still
    ["a"] with label ["car"]. *)
Lemma pointer_events_only_append_witness :
  exists extra,
    map identity (items (Canvas.current Scenario.longMove))
    = map identity (items (Canvas.current (Sample.world SELECT 0))) ++ extra /\
    (length extra <= 1)%nat.
Proof.
  refine (pointer_events_only_append (Sample.world SELECT 0)
            (Scenario.grab :: map Canvas.MouseMove Scenario.fiftyMoves
             ++ [Canvas.MouseUp "u"%string]) _).
  apply Forall_cons; [exact I |]. apply Forall_app. split.
  - apply Forall_forall. intros ev Hin.
    apply in_map_iff in Hin as (e & <- & _). exact I.
  - now repeat constructor.
Defined.

(** ** A press on an annotation that is no longer in the list *)

Lemma find_id_none (id : string) (l : list BBox.t) :
  find (fun a => String.eqb (BBox.id a) id) l = None <->
  ~ In id (map BBox.id l).
Proof.
  induction l as [|a l IH]; cbn; [tauto |].
  destruct (String.eqb (BBox.id a) id) eqn:E.
  - apply String.eqb_eq in E. split; [discriminate | tauto].
  - apply String.eqb_neq in E. tauto.
Qed.

(** X10: in select mode a press on an annotation whose id is not in the
    list (a stale element) selects that id and does nothing else: whatever
    pointer-moves follow, no list is committed, the gesture ends with the
    very same list and both history stacks as they were. *)
Theorem stale_press_only_selects
        (p : Canvas.Props) (c : option Point.t) (acts : list Action)
        (e : MouseEvent) (id : string) (moves : list MouseEvent)
        (uuid : string) :
  let w := session (Canvas.mount p c) acts in
  Canvas.mode (Canvas.props w) = SELECT ->
  ~ In id (map BBox.id (items (Canvas.current w))) ->
  let w' := Canvas.run w (gestureEvents (DownAnnotation e id) moves uuid) in
  Canvas.props w' = Canvas.setSelected (Some id) (Canvas.props w) /\
  Canvas.state w' = Canvas.state w.
Proof.
  intros w Hm Hstale.
  pose proof (session_ui_initial p c acts) as Hui.
  destruct (session_stable p c acts) as (_ & Hset & _).
  fold w in Hui, Hset. destruct Hset as (_ & _ & _ & Hf & _).
  apply find_id_none in Hstale.
  assert (Hn : let wn := Canvas.run w (downEvent (DownAnnotation e id)
                                       :: map Canvas.MouseMove moves) in
               Canvas.props wn = Canvas.setSelected (Some id) (Canvas.props w)
               /\ Canvas.state wn = Canvas.state w).
  { induction moves as [|m moves IH] using rev_ind.
    - cbn [map Canvas.run fold_left downEvent].
      unfold Canvas.react. cbn [Canvas.dispatch Canvas.hostProps].
      rewrite Hm. cbn [ToolMode_eqb].
      unfold Canvas.handleAnnotationMouseDown. rewrite Hm. cbn [ToolMode_eqb negb].
      unfold Canvas.current in Hstale. rewrite Hstale.
      cbn [fst snd fold_left Canvas.applyCallback].
      unfold Canvas.render. rewrite depsChanged_setSelected.
      now destruct (Canvas.state w).
    - rewrite map_app. cbn [map].
      change (downEvent (DownAnnotation e id)
              :: map Canvas.MouseMove moves ++ [Canvas.MouseMove m])
        with ((downEvent (DownAnnotation e id) :: map Canvas.MouseMove moves)
              ++ [Canvas.MouseMove m]).
      rewrite run_snoc. cbn zeta in IH. destruct IH as [Ep Es].
      set (w1 := Canvas.run w _) in *. cbn zeta.
      unfold Canvas.react. cbn [Canvas.dispatch Canvas.hostProps].
      rewrite handleMouseMove_idle by (rewrite Es, Hui; reflexivity).
      cbn [fst snd fold_left].
      match goal with
      | |- context [Canvas.render w1 (Canvas.props w1) ?s] =>
          destruct (render_same w1 s) as [-> ->]
      end.
      split; [exact Ep |]. rewrite Es.
      destruct (Canvas.state w) as [u h]. cbn in Hui. now rewrite Hui. }
  cbn zeta in Hn. destruct Hn as [Ep Es]. cbn zeta. unfold gestureEvents.
  change (downEvent (DownAnnotation e id)
          :: map Canvas.MouseMove moves ++ [Canvas.MouseUp uuid])
    with ((downEvent (DownAnnotation e id) :: map Canvas.MouseMove moves)
          ++ [Canvas.MouseUp uuid]).
  rewrite run_snoc. set (wn := Canvas.run w _) in *.
  unfold Canvas.react. cbn [Canvas.dispatch Canvas.hostProps].
  unfold Canvas.handleMouseUp, Canvas.commitHistory.
  rewrite Es, Hf, Ep. cbn [Canvas.mode Canvas.setSelected].
  rewrite Hm. cbn [ToolMode_eqb guard fst snd fold_left].
  rewrite <- Ep.
  match goal with
  | |- context [Canvas.render wn (Canvas.props wn) ?s] =>
      destruct (render_same wn s) as [-> ->]
  end.
  split; [reflexivity |].
  destruct (Canvas.state w) as [u h]. cbn in Hui. now rewrite Hui.
Qed.

Lemma stale_press_only_selects_witness :
  Canvas.props
    (Canvas.run (Sample.world SELECT 0)
       (gestureEvents (DownAnnotation (mkMouse 30 30) "gone"%string)
          [mkMouse 40 40] "u"%string))
  = Canvas.setSelected (Some "gone"%string)
      (Canvas.props (Sample.world SELECT 0)).
Proof.
  refine (proj1 (stale_press_only_selects (Sample.props SELECT 0)
                   Sample.origin [] (mkMouse 30 30) "gone"%string
                   [mkMouse 40 40] "u"%string eq_refl _)).
  cbn. intros [E | []]. discriminate E.
Defined.

(** ** Drawing *)

Lemma draw_down (w : Canvas.World) (d : Down) :
  Canvas.mode (Canvas.props w) = DRAW ->
  let w' := Canvas.react w (downEvent d) in
  let pos := getMousePos (Canvas.container w) (Canvas.pan (Canvas.props w))
               (Canvas.zoom (Canvas.props w)) (downMouse d) in
  Canvas.props w' = Canvas.setSelected None (Canvas.props w) /\
  Canvas.container w' = Canvas.container w /\
  UI.isDragging (Canvas.ui (Canvas.state w')) = true /\
  UI.dragStart (Canvas.ui (Canvas.state w')) = Some pos /\
  UI.activeCreation (Canvas.ui (Canvas.state w'))
  = Some (Rect.mk (Point.x pos) (Point.y pos) 0 0).
Proof.
  intros Hm. unfold Canvas.react.
  assert (E : Canvas.dispatch w (downEvent d)
              = Canvas.handleMouseDown (Canvas.props w) (Canvas.container w)
                  (downMouse d) (Canvas.state w)).
  { destruct d; cbn [downEvent Canvas.dispatch downMouse]; now rewrite ?Hm. }
  rewrite E, hostProps_pointer by now destruct d.
  unfold Canvas.handleMouseDown. rewrite Hm.
  cbn [fst snd fold_left Canvas.applyCallback].
  unfold Canvas.render. now cbn.
Qed.

Lemma draw_move (w : Canvas.World) (start : Point.t) (e : MouseEvent) :
  Canvas.mode (Canvas.props w) = DRAW ->
  UI.isDragging (Canvas.ui (Canvas.state w)) = true ->
  UI.dragStart (Canvas.ui (Canvas.state w)) = Some start ->
  let w' := Canvas.react w (Canvas.MouseMove e) in
  let p := Canvas.props w in
  let pos := getMousePos (Canvas.container w) (Canvas.pan p) (Canvas.zoom p) e
  in
  let t := Canvas.snapPixelDistance p / Canvas.zoom p in
  let snap := Canvas.getClosestSnap (Canvas.snapPixelDistance p) in
  Canvas.props w' = p /\
  Canvas.container w' = Canvas.container w /\
  UI.isDragging (Canvas.ui (Canvas.state w')) = true /\
  UI.dragStart (Canvas.ui (Canvas.state w')) = Some start /\
  UI.activeCreation (Canvas.ui (Canvas.state w'))
  = Some (creationRect start
            (val (snap (Point.x pos) (fst (Canvas.snapLines p None)) t))
            (val (snap (Point.y pos) (snd (Canvas.snapLines p None)) t))).
Proof.
  intros Hm Hd Hs. unfold Canvas.react. cbn [Canvas.dispatch Canvas.hostProps].
  unfold Canvas.handleMouseMove. rewrite Hm, Hd, Hs.
  cbn [ToolMode_eqb andb guard].
  destruct (Canvas.snapLines (Canvas.props w) None) as [xl yl] eqn:El.
  cbn [fst snd fold_left]. unfold Canvas.render. cbn.
  rewrite Hd, Hs. auto.
Qed.

(** X11: in draw mode a press anywhere starts a rectangle, and after any
    pointer-moves the rectangle being drawn is the one spanned by the press
    position and the snapped position of the latest move alone: the moves
    in between leave no trace, and the list is not touched before the
    release. *)
Theorem draw_preview_follows_last_move
        (w : Canvas.World) (d : Down) (moves : list MouseEvent)
        (e : MouseEvent) :
  Canvas.mode (Canvas.props w) = DRAW ->
  let wn := Canvas.run w (downEvent d
                          :: map Canvas.MouseMove (moves ++ [e])) in
  UI.activeCreation (Canvas.ui (Canvas.state wn))
  = Some (drawPreview (Canvas.props w) (Canvas.container w) (downMouse d) e)
  /\ Canvas.current wn = Canvas.current w.
Proof.
  intros Hm.
  assert (Hn : let w1 := Canvas.run w (downEvent d
                                       :: map Canvas.MouseMove moves) in
               Canvas.props w1 = Canvas.setSelected None (Canvas.props w) /\
               Canvas.container w1 = Canvas.container w /\
               UI.isDragging (Canvas.ui (Canvas.state w1)) = true /\
               UI.dragStart (Canvas.ui (Canvas.state w1))
               = Some (getMousePos (Canvas.container w)
                         (Canvas.pan (Canvas.props w))
                         (Canvas.zoom (Canvas.props w)) (downMouse d))).
  { induction moves as [|m moves IH] using rev_ind.
    - cbn [map Canvas.run fold_left].
      destruct (draw_down w d Hm) as (Ep & Ec & Ed & Es & _). auto.
    - rewrite map_app. cbn [map].
      change (downEvent d :: map Canvas.MouseMove moves ++ [Canvas.MouseMove m])
        with ((downEvent d :: map Canvas.MouseMove moves)
              ++ [Canvas.MouseMove m]).
      rewrite run_snoc. cbn zeta in IH. destruct IH as (Ep & Ec & Ed & Es).
      set (w1 := Canvas.run w _) in *.
      assert (Hm1 : Canvas.mode (Canvas.props w1) = DRAW) by now rewrite Ep.
      destruct (draw_move w1 _ m Hm1 Ed Es) as (Ep' & Ec' & Ed' & Es' & _).
      cbn zeta. rewrite Ep', Ec'. auto. }
  cbn zeta in Hn. destruct Hn as (Ep & Ec & Ed & Es).
  cbn zeta. rewrite map_app. cbn [map].
  change (downEvent d :: map Canvas.MouseMove moves ++ [Canvas.MouseMove e])
    with ((downEvent d :: map Canvas.MouseMove moves) ++ [Canvas.MouseMove e]).
  rewrite run_snoc. set (w1 := Canvas.run w _) in *.
  assert (Hm1 : Canvas.mode (Canvas.props w1) = DRAW) by now rewrite Ep.
  destruct (draw_move w1 _ e Hm1 Ed Es) as (Ep' & _ & _ & _ & Eac).
  split.
  - rewrite Eac, Ep, Ec. reflexivity.
  - unfold Canvas.current. rewrite Ep', Ep. reflexivity.
Qed.

(** Press at (1, 1), move to (50, 60) and back to (21, 31): a 20 x 30
    rectangle. *)
Lemma draw_preview_follows_last_move_witness :
  UI.activeCreation
    (Canvas.ui (Canvas.state
       (Canvas.run (Sample.world DRAW 0)
          (downEvent (DownCanvas (mkMouse 1 1))
           :: map Canvas.MouseMove ([mkMouse 50 60] ++ [mkMouse 21 31])))))
  = Some (drawPreview (Sample.props DRAW 0) Sample.origin
                      (mkMouse 1 1) (mkMouse 21 31)).
Proof.
  exact (proj1 (draw_preview_follows_last_move (Sample.world DRAW 0)
                  (DownCanvas (mkMouse 1 1)) [mkMouse 50 60] (mkMouse 21 31)
                  eq_refl)).
Defined.

(** ** The two canvases side by side *)



(** ** The settings dialog *)

Lemma filter_other_ids (i : string) (l : list SettingsModal.AIModel) :
  ~ In i (map SettingsModal.id l) ->
  filter (fun m => negb (String.eqb (SettingsModal.id m) i)) l = l.
Proof.
  induction l as [|m l IH]; intros Hn; [reflexivity |].
  cbn in *. destruct (String.eqb (SettingsModal.id m) i) eqn:E.
  - apply String.eqb_eq in E. tauto.
  - cbn. f_equal. apply IH. tauto.
Qed.

(** X13: deleting a model configuration removes every model with that id
    and keeps all others; it never leaves the active id pointing at a
    deleted model: if the active model was listed, then after the deletion
    (and the call it makes to the host) the active id names a model that is
    still listed, unless no model is left at all; deleting another model
    than the active one makes no call, and a declined confirmation changes
    nothing. *)
Theorem delete_keeps_active_model_listed
        (confirm : bool) (active i : string) (s : SettingsModal.State) :
  In active (map SettingsModal.id (SettingsModal.localModels s)) ->
  let r := SettingsModal.handleDelete confirm active i s in
  let models' := SettingsModal.localModels (fst r) in
  let active' := SettingsModal.activeAfter active (snd r) in
  (confirm = false -> r = (s, [])) /\
  (confirm = true ->
   ~ In i (map SettingsModal.id models') /\
   (forall m, SettingsModal.id m <> i ->
              (In m models' <-> In m (SettingsModal.localModels s))) /\
   (models' = [] \/ In active' (map SettingsModal.id models')) /\
   (i <> active -> snd r = [])).
Proof.
  intros Hact. unfold SettingsModal.handleDelete.
  destruct confirm; cbn zeta; (split; [intros E; try discriminate E; reflexivity |]);
    intros E; try discriminate E. clear E.
  cbn [fst snd SettingsModal.localModels].
  set (filtered := filter _ (SettingsModal.localModels s)).
  assert (Hin : forall m, In m filtered <->
                          In m (SettingsModal.localModels s) /\
                          SettingsModal.id m <> i).
  { intros m. unfold filtered. rewrite filter_In, negb_true_iff.
    now rewrite String.eqb_neq. }
  split; [| split; [| split]].
  - intros Hi. apply in_map_iff in Hi as (m & Em & Hm).
    apply Hin in Hm. tauto.
  - intros m Hm. rewrite Hin. tauto.
  - destruct (String.eqb i active) eqn:Eia.
    + destruct filtered as [|first rest] eqn:Ef; [now left |].
      right. cbn. now left.
    + right. cbn [andb guard SettingsModal.activeAfter fold_left].
      apply String.eqb_neq in Eia.
      apply in_map_iff in Hact as (m & Em & Hm).
      apply in_map_iff. exists m. split; [exact Em |].
      apply Hin. split; [exact Hm | congruence].
  - intros Hne. apply String.eqb_neq in Hne. now rewrite Hne.
Qed.

Lemma delete_keeps_active_model_listed_witness :
  let s := SettingsModal.handleAddModel "m2"%string
             (SettingsModal.handleAddModel "m1"%string
                (SettingsModal.mkState [] None)) in
  let r := SettingsModal.handleDelete true "m1"%string "m1"%string s in
  SettingsModal.localModels (fst r) = [] \/
  In (SettingsModal.activeAfter "m1"%string (snd r))
     (map SettingsModal.id (SettingsModal.localModels (fst r))).
Proof.
  intros s r.
  refine (proj1 (proj2 (proj2 (proj2 (delete_keeps_active_model_listed
                                        true "m1"%string "m1"%string s _)
                                     eq_refl)))).
  cbn. auto.
Defined.

(** X14: adding a model and deleting it again gives back the list of
    models as it was, when the id drawn for the new model is not in use and
    is not the active one; no call is made to the host.  The editing id is
    not cleared by the deletion: it still names the deleted model. *)
Theorem add_then_delete_restores_models
        (uuid active : string) (s : SettingsModal.State) :
  ~ In uuid (map SettingsModal.id (SettingsModal.localModels s)) ->
  uuid <> active ->
  SettingsModal.handleDelete true active uuid
    (SettingsModal.handleAddModel uuid s)
  = (SettingsModal.mkState (SettingsModal.localModels s) (Some uuid), []).
Proof.
  intros Hfresh Hne.
  unfold SettingsModal.handleDelete, SettingsModal.handleAddModel.
  cbn [SettingsModal.localModels SettingsModal.editingId SettingsModal.id].
  rewrite filter_app, (filter_other_ids uuid _ Hfresh).
  cbn [filter SettingsModal.id]. rewrite String.eqb_refl. cbn [negb].
  rewrite app_nil_r.
  apply String.eqb_neq in Hne. now rewrite Hne.
Qed.

Lemma add_then_delete_restores_models_witness :
  SettingsModal.handleDelete true "a"%string "n"%string
    (SettingsModal.handleAddModel "n"%string
       (SettingsModal.handleAddModel "a"%string
          (SettingsModal.mkState [] None)))
  = (SettingsModal.mkState
       (SettingsModal.localModels
          (SettingsModal.handleAddModel "a"%string
             (SettingsModal.mkState [] None)))
       (Some "n"%string), []).
Proof.
  refine (add_then_delete_restores_models "n"%string "a"%string
            (SettingsModal.handleAddModel "a"%string
               (SettingsModal.mkState [] None)) _ _).
  - cbn. intros [E | []]. discriminate E.
  - discriminate.
Defined.

Lemma spread_twice (m : SettingsModal.AIModel) (u : SettingsModal.Updates) :
  SettingsModal.spread (SettingsModal.spread m u) u = SettingsModal.spread m u.
Proof.
  destruct u as [[?|] [?|] [?|] [?|] [?|] [?|] [?|] [?|]]; reflexivity.
Qed.

(** X15: an edit of a model touches only the models with the given id,
    keeps the number and the order of the models, keeps every id when the
    update carries none, and applying the same edit twice is the same as
    applying it once. *)
Theorem update_model_is_local_and_idempotent
        (i : string) (updates : SettingsModal.Updates)
        (s : SettingsModal.State) :
  let s' := SettingsModal.handleUpdateModel i updates s in
  length (SettingsModal.localModels s')
  = length (SettingsModal.localModels s) /\
  (forall k m, nth_error (SettingsModal.localModels s) k = Some m ->
               SettingsModal.id m <> i ->
               nth_error (SettingsModal.localModels s') k = Some m) /\
  (forall k m, nth_error (SettingsModal.localModels s) k = Some m ->
               SettingsModal.id m = i ->
               nth_error (SettingsModal.localModels s') k
               = Some (SettingsModal.spread m updates)) /\
  (SettingsModal.newId updates = None ->
   map SettingsModal.id (SettingsModal.localModels s')
   = map SettingsModal.id (SettingsModal.localModels s)) /\
  SettingsModal.handleUpdateModel i updates s' = s'.
Proof.
  cbn zeta. unfold SettingsModal.handleUpdateModel.
  cbn [SettingsModal.localModels SettingsModal.editingId].
  split; [apply length_map |]. split; [| split; [| split]].
  - intros k m Hk Hne. rewrite nth_error_map, Hk. cbn.
    apply String.eqb_neq in Hne. now rewrite Hne.
  - intros k m Hk He. rewrite nth_error_map, Hk. cbn.
    apply String.eqb_eq in He. now rewrite He.
  - intros Hnone. rewrite map_map. apply map_ext. intros m.
    destruct (String.eqb (SettingsModal.id m) i); [| reflexivity].
    destruct updates; cbn in *. now subst.
  - f_equal. rewrite map_map. apply map_ext. intros m.
    destruct (String.eqb (SettingsModal.id m) i) eqn:E.
    + destruct (String.eqb (SettingsModal.id (SettingsModal.spread m updates)) i);
        [apply spread_twice | reflexivity].
    + now rewrite E.
Qed.

Lemma update_model_is_local_and_idempotent_witness :
  let s := SettingsModal.handleAddModel "m1"%string
             (SettingsModal.mkState [] None) in
  let u := SettingsModal.mkUpdates None (Some "renamed"%string) None None None
             None None None in
  map SettingsModal.id
      (SettingsModal.localModels (SettingsModal.handleUpdateModel "m1"%string
                                    u s))
  = map SettingsModal.id (SettingsModal.localModels s).
Proof.
  intros s u.
  exact (proj1 (proj2 (proj2 (proj2 (update_model_is_local_and_idempotent
                                       "m1"%string u s)))) eq_refl).
Defined.

(** ** Zoom and pan of the application *)

Lemma Qle_bool_false (a b : Q) : Qle_bool a b = false <-> b < a.
Proof.
  split; intros H.
  - apply Qnot_le_lt. intros Hle. apply Qle_bool_iff in Hle. congruence.
  - destruct (Qle_bool a b) eqn:E; [| reflexivity].
    apply Qle_bool_iff in E. lra.
Qed.

Lemma Qgtb_false (a b : Q) : Qgtb a b = false <-> a <= b.
Proof.
  unfold Qgtb, Qltb. rewrite negb_false_iff. apply Qle_bool_iff.
Qed.

Lemma Qgtb_true (a b : Q) : Qgtb a b = true <-> b < a.
Proof.
  unfold Qgtb, Qltb. rewrite negb_true_iff. apply Qle_bool_false.
Qed.

Lemma autoFit_fits (img : App.LoadedImage) (cw ch : Q) (v : App.View) :
  0 < App.width (App.loadedMeta img) ->
  0 < App.height (App.loadedMeta img) ->
  0 < cw -> 0 < ch ->
  let v' := App.autoFit (Some img) (Some (cw, ch)) v in
  0 < App.zoom v' /\ App.zoom v' <= 1 /\
  App.width (App.loadedMeta img) * App.zoom v' <= cw /\
  App.height (App.loadedMeta img) * App.zoom v' <= ch /\
  App.pan v' = Point.mk 0 0.
Proof.
  intros HW HH Hcw Hch. unfold App.autoFit.
  set (W := App.width (App.loadedMeta img)) in *.
  set (H := App.height (App.loadedMeta img)) in *.
  assert (EW : Qgtb W 0 = true) by now apply Qgtb_true.
  assert (EH : Qgtb H 0 = true) by now apply Qgtb_true.
  rewrite EW, EH. cbn [andb App.zoom App.pan].
  assert (Ha : cw / W * W == cw) by (field; lra).
  assert (Hb : ch / H * H == ch) by (field; lra).
  assert (Hapos : 0 < cw / W) by now apply Qdiv_pos.
  assert (Hbpos : 0 < ch / H) by now apply Qdiv_pos.
  set (a := cw / W) in *. set (b := ch / H) in *.
  destruct (Qgtb W cw || Qgtb H ch)%bool eqn:E.
  - assert (Hm1 : Qmin a b <= a) by apply Q.le_min_l.
    assert (Hm2 : Qmin a b <= b) by apply Q.le_min_r.
    assert (Hm0 : 0 < Qmin a b).
    { destruct (Q.min_spec a b) as [[_ Em] | [_ Em]]; rewrite Em; assumption. }
    assert (Hlt : Qmin a b < 1).
    { apply orb_true_iff in E as [E | E]; apply Qgtb_true in E.
      - assert (a < 1) by nra. lra.
      - assert (b < 1) by nra. lra. }
    set (m := Qmin a b) in *.
    repeat split; try reflexivity; nra.
  - apply orb_false_iff in E as [E1 E2].
    apply Qgtb_false in E1, E2.
    repeat split; try reflexivity; lra.
Qed.

(** X16: when an image is loaded into an editor pane of positive size,
    the auto-fit leaves a zoom at which the whole image fits in the pane:
    the zoom is positive and at most 1, the scaled width and height do not
    exceed the pane, and the pan is reset. *)
Theorem auto_fit_shows_whole_image
        (img : App.LoadedImage) (clientWidth clientHeight : Q) (v : App.View) :
  0 < App.width (App.loadedMeta img) ->
  0 < App.height (App.loadedMeta img) ->
  0 < clientWidth -> 0 < clientHeight ->
  let v' := App.autoFit (Some img) (Some (clientWidth, clientHeight)) v in
  0 < App.zoom v' /\ App.zoom v' <= 1 /\
  App.width (App.loadedMeta img) * App.zoom v' <= clientWidth /\
  App.height (App.loadedMeta img) * App.zoom v' <= clientHeight /\
  App.pan v' = Point.mk 0 0.
Proof. apply autoFit_fits. Qed.

(** A 1000 x 500 image in an 800 x 600 pane. *)
Lemma auto_fit_shows_whole_image_witness :
  let img := App.mkLoaded
               (App.mkMeta "i"%string "i.png"%string 1000 500 App.unlabeled 0)
               (mkArr 0 []) in
  App.width (App.loadedMeta img)
  * App.zoom (App.autoFit (Some img) (Some (800, 600))
                (App.mkView 1 (Point.mk 0 0)))
  <= 800.
Proof.
  intros img.
  refine (proj1 (proj2 (proj2 (auto_fit_shows_whole_image img 800 600
                                 (App.mkView 1 (Point.mk 0 0)) _ _ _ _))));
    reflexivity.
Defined.

Lemma viewStep_positive (v : App.View) (a : App.ViewAction) :
  0 < App.zoom v -> view_action_ok a -> 0 < App.zoom (App.viewStep v a).
Proof.
  intros Hz Hok. destruct a as [| | | x y | img editor]; cbn [App.viewStep App.zoom];
    try assumption.
  - pose proof (Q.le_max_l (1 # 10) (App.zoom v - (1 # 10))). lra.
  - lra.
  - destruct img as [img|], editor as [[cw ch]|]; try assumption.
    destruct (Qgtb (App.width (App.loadedMeta img)) 0
              && Qgtb (App.height (App.loadedMeta img)) 0)%bool eqn:E;
      [| unfold App.autoFit; now rewrite E].
    apply andb_true_iff in E as [E1 E2]. apply Qgtb_true in E1, E2.
    destruct Hok as [Hcw Hch].
    exact (proj1 (autoFit_fits img cw ch v E1 E2 Hcw Hch)).
Qed.

(** X17: the zoom the application hands to the canvas is always positive:
    starting from a positive zoom, no sequence of zoom-in, zoom-out (which
    stops at 0.1), pan, pan reset and auto-fit into a pane of positive size
    makes it zero or negative, so the canvas never divides by a zero zoom.
    The size of the pane matters: an auto-fit of an image into a pane of
    width zero leaves a zoom that is not positive. *)
Theorem zoom_stays_positive (v : App.View) (acts : list App.ViewAction) :
  0 < App.zoom v ->
  Forall view_action_ok acts ->
  0 < App.zoom (fold_left App.viewStep acts v) /\
  (forall (img : App.LoadedImage) (clientHeight : Q),
      0 < App.width (App.loadedMeta img) ->
      0 < App.height (App.loadedMeta img) ->
      App.zoom (App.viewStep v (App.AutoFit (Some img)
                                  (Some (0, clientHeight)))) <= 0).
Proof.
  intros Hz Hall. split.
  - revert v Hz. induction Hall as [|a acts Ha _ IH]; intros v Hz;
      [exact Hz |].
    cbn [fold_left]. apply IH. now apply viewStep_positive.
  - intros img ch HW HH. cbn [App.viewStep]. unfold App.autoFit.
    apply Qgtb_true in HW as EW. apply Qgtb_true in HH as EH.
    rewrite EW, EH. cbn [andb orb App.zoom].
    assert (Ez : 0 / App.width (App.loadedMeta img) == 0) by (field; lra).
    pose proof (Q.le_min_l (0 / App.width (App.loadedMeta img))
                           (ch / App.height (App.loadedMeta img))) as Hm.
    set (m := Qmin _ _) in *. lra.
Qed.

(** Zoom out eleven times from 1, then zoom in once. *)
Lemma zoom_stays_positive_witness :
  0 < App.zoom (fold_left App.viewStep
                  (repeat App.ZoomOut 11 ++ [App.ZoomIn])
                  (App.mkView 1 (Point.mk 0 0))).
Proof.
  refine (proj1 (zoom_stays_positive (App.mkView 1 (Point.mk 0 0))
                   (repeat App.ZoomOut 11 ++ [App.ZoomIn]) _ _)).
  - reflexivity.
  - apply Forall_forall. intros a Hin.
    apply in_app_or in Hin as [Hin | [<- | []]]; [| exact I].
    apply repeat_spec in Hin. subst a. exact I.
Defined.

(** ** The drop overlay *)

(** X18: over any sequence of drag events in which a leave only follows
    its enter, as a browser sends them over nested elements, the counter of
    entered elements never goes negative and the drop overlay is shown
    exactly while it is positive; a drop always hides the overlay. *)
Theorem drop_overlay_follows_the_drag
        (d : App.Drag) (evs : list App.DragEvent) :
  overlay_ok d ->
  wellNested (App.dragCounter d) evs = true ->
  overlay_ok (fold_left App.dragStep evs d) /\
  overlay_ok (App.dragStep (fold_left App.dragStep evs d) App.Drop) /\
  App.isDragging (App.dragStep (fold_left App.dragStep evs d) App.Drop)
  = false.
Proof.
  intros Hok Hn.
  assert (H : overlay_ok (fold_left App.dragStep evs d)).
  { revert d Hok Hn. induction evs as [|e evs IH]; intros d Hok Hn;
      [exact Hok |].
    cbn [fold_left]. destruct Hok as [Hc Hd].
    destruct e; cbn [wellNested] in Hn.
    - apply IH; [| exact Hn]. unfold overlay_ok.
      cbn [App.dragStep App.dragCounter App.isDragging].
      split; [lia |]. symmetry. apply Z.ltb_lt. lia.
    - apply andb_true_iff in Hn as [Hpos Hn]. apply Z.ltb_lt in Hpos.
      apply IH; [| exact Hn]. unfold overlay_ok.
      cbn [App.dragStep App.dragCounter App.isDragging].
      split; [lia |].
      destruct (Z.eqb_spec (App.dragCounter d - 1) 0) as [E | E].
      + rewrite E. reflexivity.
      + rewrite Hd. transitivity true; [now apply Z.ltb_lt |].
        symmetry. apply Z.ltb_lt. lia.
    - apply IH; [now split | exact Hn].
    - apply IH; [now split | exact Hn]. }
  split; [exact H |]. split; [| reflexivity]. now split.
Qed.

(** Enter the window, enter a child, leave the window element, leave the
    child. *)
Lemma drop_overlay_follows_the_drag_witness :
  overlay_ok (fold_left App.dragStep
                [App.DragEnter; App.DragEnter; App.DragLeave; App.DragOver;
                 App.DragLeave]
                (App.mkDrag false 0)).
Proof.
  refine (proj1 (drop_overlay_follows_the_drag (App.mkDrag false 0) _ _ _)).
  - now split.
  - reflexivity.
Defined.

(** ** Annotations proposed by the model *)

Lemma parseFrom_In (toLowerCase : string -> string) (uuid : nat -> string)
      (validLabels : list LabelClass.t) (results : list GeminiService.RawItem)
      (k : nat) (b : BBox.t) :
  In b (GeminiService.parseFrom toLowerCase uuid k results validLabels) ->
  exists res j,
    In res results /\
    GeminiService.parseItem toLowerCase validLabels (uuid j) res = Some b.
Proof.
  revert k. induction results as [|res rest IH]; intros k Hin; [contradiction |].
  cbn [GeminiService.parseFrom] in Hin.
  destruct (GeminiService.parseItem toLowerCase validLabels (uuid k) res)
    as [b0|] eqn:E.
  - destruct Hin as [<- | Hin]; [exists res, k; split; [now left | exact E] |].
    destruct (IH _ Hin) as (r & j & Hr & Hj). exists r, j. split; [now right | exact Hj].
  - destruct (IH _ Hin) as (r & j & Hr & Hj). exists r, j. split; [now right | exact Hj].
Qed.

Lemma parseItem_valid (toLowerCase : string -> string)
      (validLabels : list LabelClass.t) (i : string)
      (res : GeminiService.RawItem) (b : BBox.t) :
  GeminiService.parseItem toLowerCase validLabels i res = Some b ->
  (0 < BBox.w b /\ BBox.w b <= 1 /\ 0 < BBox.h b /\ BBox.h b <= 1) /\
  (exists l, In l validLabels /\ BBox.labelId b = LabelClass.id l /\
             GeminiService.labelMatches toLowerCase res l = true) /\
  (exists ymin xmin ymax xmax,
      GeminiService.box_2d res = Some [ymin; xmin; ymax; xmax] /\
      BBox.x b - BBox.w b / 2 == xmin /\ BBox.x b + BBox.w b / 2 == xmax /\
      BBox.y b - BBox.h b / 2 == ymin /\ BBox.y b + BBox.h b / 2 == ymax).
Proof.
  unfold GeminiService.parseItem.
  destruct (find _ validLabels) as [l|] eqn:Ef; [| discriminate].
  destruct (GeminiService.box_2d res) as [[|ymin [|xmin [|ymax [|xmax [|]]]]]|];
    try discriminate.
  destruct (Qgtb (xmax - xmin) 0 && Qgtb (ymax - ymin) 0
            && Qle_bool (xmax - xmin) 1 && Qle_bool (ymax - ymin) 1)%bool
    eqn:E; [| discriminate].
  intros [= <-]. cbn [BBox.w BBox.h BBox.x BBox.y BBox.labelId].
  apply andb_true_iff in E as [E E4]. apply andb_true_iff in E as [E E3].
  apply andb_true_iff in E as [E1 E2].
  apply Qgtb_true in E1, E2. apply Qle_bool_iff in E3, E4.
  apply find_some in Ef as [Hl Hm].
  split; [auto |]. split; [exists l; auto |].
  exists ymin, xmin, ymax, xmax. split; [reflexivity |].
  repeat split; field.
Qed.

Lemma model_boxes_well_formed_aux
      (toLowerCase : string -> string) (uuid : nat -> string)
      (results : list GeminiService.RawItem)
      (validLabels : list LabelClass.t) (b : BBox.t) :
  In b (GeminiService.parseGeminiResponse toLowerCase uuid (Some results)
          validLabels) ->
  0 < BBox.w b /\ BBox.w b <= 1 /\ 0 < BBox.h b /\ BBox.h b <= 1.
Proof.
  intros Hin. cbn [GeminiService.parseGeminiResponse] in Hin.
  apply parseFrom_In in Hin as (res & j & Hres & Hp).
  now apply parseItem_valid in Hp as (Hsz & _).
Qed.



Lemma parseFrom_ids (toLowerCase : string -> string) (uuid : nat -> string)
      (validLabels : list LabelClass.t) (results : list GeminiService.RawItem)
      (k : nat) :
  let out := GeminiService.parseFrom toLowerCase uuid k results validLabels in
  map BBox.id out = map uuid (seq k (length out)) /\
  (length out <= length results)%nat.
Proof.
  revert k. induction results as [|res rest IH]; intros k; [now cbn |].
  cbn [GeminiService.parseFrom].
  destruct (GeminiService.parseItem toLowerCase validLabels (uuid k) res)
    as [b|] eqn:E.
  - destruct (IH (S k)) as [Eid Hlen]. cbn zeta in *.
    cbn [map length seq]. rewrite Eid. split; [| cbn; lia].
    f_equal. unfold GeminiService.parseItem in E.
    destruct (find _ validLabels); [| discriminate].
    destruct (GeminiService.box_2d res)
      as [[|ymin [|xmin [|ymax [|xmax [|]]]]]|]; try discriminate.
    destruct (_ && _)%bool; [| discriminate]. now injection E as <-.
  - destruct (IH k) as [Eid Hlen]. cbn zeta in *. split; [exact Eid |].
    cbn [length]. lia.
Qed.

(** X20: the annotations built from one answer take the ids drawn from
    [crypto.randomUUID()] in the order of the answer, one id per annotation
    kept and none for an answer left out; there are at most as many
    annotations as answers, and a value that is not an array gives none. *)
Theorem model_boxes_take_fresh_ids
        (toLowerCase : string -> string) (uuid : nat -> string)
        (results : list GeminiService.RawItem)
        (validLabels : list LabelClass.t) :
  let out := GeminiService.parseGeminiResponse toLowerCase uuid
               (Some results) validLabels in
  map BBox.id out = map uuid (seq 0 (length out)) /\
  (length out <= length results)%nat /\
  GeminiService.parseGeminiResponse toLowerCase uuid None validLabels = [].
Proof.
  cbn zeta. cbn [GeminiService.parseGeminiResponse].
  destruct (parseFrom_ids toLowerCase uuid validLabels results 0) as [E L].
  auto.
Qed.

Lemma parse_positive (toLowerCase : string -> string) (uuid : nat -> string)
      (results : option (list GeminiService.RawItem))
      (validLabels : list LabelClass.t) :
  Forall positive_box
         (GeminiService.parseGeminiResponse toLowerCase uuid results
            validLabels).
Proof.
  destruct results as [results|]; [| constructor].
  apply Forall_forall. intros b Hin.
  destruct (model_boxes_well_formed_aux toLowerCase uuid results validLabels
              b Hin) as (Hw & _ & Hh & _).
  now split.
Qed.

(** X21: annotations proposed by the model never break the size
    invariant of the editor: appended to a list of boxes of positive size
    they give a list of boxes of positive size, and a canvas whose state is
    well sized stays so when the host hands it the merged list. *)
Theorem model_boxes_keep_sizes_positive
        (toLowerCase : string -> string) (uuid : nat -> string)
        (results : option (list GeminiService.RawItem))
        (validLabels : list LabelClass.t)
        (existing : list BBox.t) (w : Canvas.World) :
  Forall positive_box existing ->
  well_sized w ->
  let merged := existing
                ++ GeminiService.parseGeminiResponse toLowerCase uuid results
                     validLabels in
  Forall positive_box merged /\
  well_sized (Canvas.react w (Canvas.HostUpdate merged)).
Proof.
  intros Hex Hw merged.
  assert (Hm : Forall positive_box merged).
  { apply Forall_app. split; [exact Hex | apply parse_positive]. }
  split; [exact Hm |]. apply react_well_sized; [exact Hw | exact Hm].
Qed.

Lemma model_boxes_keep_sizes_positive_witness :
  well_sized
    (Canvas.react (Sample.world SELECT 0)
       (Canvas.HostUpdate
          ([Sample.box]
           ++ GeminiService.parseGeminiResponse (fun s => s)
                (fun _ => "u0"%string)
                (Some [GeminiService.mkRaw (Some "cat"%string)
                         (Some [1 # 10; 2 # 10; 3 # 10; 4 # 10])])
                [LabelClass.mk "c1"%string "cat"%string "red"%string]))).
Proof.
  refine (proj2 (model_boxes_keep_sizes_positive (fun s => s)
                   (fun _ => "u0"%string) _ _ [Sample.box]
                   (Sample.world SELECT 0) _ _)).
  - exact sample_positive.
  - apply mount_well_sized; [reflexivity | reflexivity | exact sample_positive].
Defined.

(** ** Labels *)

Lemma filter_label_ids (lid : string) (l : list LabelClass.t) :
  ~ In lid (map LabelClass.id l) ->
  filter (fun x => negb (String.eqb (LabelClass.id x) lid)) l = l.
Proof.
  induction l as [|a l IH]; intros Hn; [reflexivity |].
  cbn in *. destruct (String.eqb (LabelClass.id a) lid) eqn:E.
  - apply String.eqb_eq in E. tauto.
  - cbn. f_equal. apply IH. tauto.
Qed.

Lemma filter_one_label (lid : string) (l : list LabelClass.t) :
  NoDup (map LabelClass.id l) ->
  (length l
   <= S (length (filter (fun x => negb (String.eqb (LabelClass.id x) lid))
                        l)))%nat.
Proof.
  induction l as [|a l IH]; intros Hnd; [cbn; lia |].
  cbn [map] in Hnd. inversion Hnd as [|? ? Hnotin Hnd']; subst.
  cbn [filter]. destruct (String.eqb (LabelClass.id a) lid) eqn:E.
  - apply String.eqb_eq in E. subst lid.
    rewrite (filter_label_ids _ _ Hnotin). cbn. lia.
  - cbn. specialize (IH Hnd'). lia.
Qed.

(** X22: deleting a class never fails and never leaves the editor without
    a class or with a current class that does not exist: when the ids of
    the classes are distinct and the current class is one of them, the
    deletion returns, at least one class remains, the remaining classes
    are among the old ones, and the current class is one of the remaining
    ones; the last class is never deleted. *)
Theorem delete_label_keeps_a_current_label
        (confirm : bool) (labelId : string) (labels : list LabelClass.t)
        (currentLabelId : string) :
  NoDup (map LabelClass.id labels) ->
  In currentLabelId (map LabelClass.id labels) ->
  exists labels' current',
    App.handleDeleteLabel confirm labelId labels currentLabelId
    = Some (labels', current') /\
    labels' <> [] /\
    In current' (map LabelClass.id labels') /\
    (forall l, In l labels' -> In l labels) /\
    ((length labels <= 1)%nat -> labels' = labels).
Proof.
  intros Hnd Hcur. unfold App.handleDeleteLabel.
  assert (Hne : labels <> []) by (intros ->; contradiction).
  destruct (Nat.leb (length labels) 1) eqn:El.
  { exists labels, currentLabelId. repeat split; auto. }
  apply Nat.leb_gt in El.
  destruct confirm; cbn [negb].
  2:{ exists labels, currentLabelId. repeat split; auto. }
  set (newLabels := filter _ labels).
  assert (Hlen : (1 <= length newLabels)%nat).
  { pose proof (filter_one_label labelId labels Hnd). fold newLabels in H. lia. }
  assert (Hsub : forall l, In l newLabels -> In l labels).
  { intros l Hl. unfold newLabels in Hl. now apply filter_In in Hl. }
  destruct (String.eqb currentLabelId labelId) eqn:E.
  - destruct newLabels as [|first rest] eqn:En; [cbn in Hlen; lia |].
    exists (first :: rest), (LabelClass.id first).
    repeat split; auto; try discriminate; try lia. cbn. now left.
  - exists newLabels, currentLabelId.
    split; [reflexivity |]. split; [| split; [| split; [exact Hsub | lia]]].
    + intros En. rewrite En in Hlen. cbn in Hlen. lia.
    + apply String.eqb_neq in E.
      apply in_map_iff in Hcur as (l & El' & Hl).
      apply in_map_iff. exists l. split; [exact El' |].
      unfold newLabels. apply filter_In. split; [exact Hl |].
      apply negb_true_iff, String.eqb_neq. congruence.
Qed.

Lemma delete_label_keeps_a_current_label_witness :
  exists labels' current',
    App.handleDeleteLabel true "c1"%string
      [LabelClass.mk "c1"%string "cat"%string "red"%string;
       LabelClass.mk "c2"%string "dog"%string "blue"%string] "c1"%string
    = Some (labels', current') /\
    labels' <> [] /\
    In current' (map LabelClass.id labels') /\
    (forall l, In l labels' ->
               In l [LabelClass.mk "c1"%string "cat"%string "red"%string;
                     LabelClass.mk "c2"%string "dog"%string "blue"%string]) /\
    ((2 <= 1)%nat ->
     labels' = [LabelClass.mk "c1"%string "cat"%string "red"%string;
                LabelClass.mk "c2"%string "dog"%string "blue"%string]).
Proof.
  refine (delete_label_keeps_a_current_label true "c1"%string
            [LabelClass.mk "c1"%string "cat"%string "red"%string;
             LabelClass.mk "c2"%string "dog"%string "blue"%string]
            "c1"%string _ _).
  - cbn. repeat constructor; cbn; intuition discriminate.
  - cbn. auto.
Defined.

(** ** Saving the annotations *)

Lemma truthy_nonempty (i : string) : i <> EmptyString -> truthy (Some i) = true.
Proof. destruct i; [congruence | reflexivity]. Qed.

Lemma keyed_update (i : string) (anns : list BBox.t) (s : App.Db.Store) :
  keyed s -> keyed (App.Db.updateImageAnnotations i anns s).
Proof.
  intros Hk. unfold App.Db.updateImageAnnotations.
  destruct (s i) as [img|] eqn:E; [| exact Hk].
  intros k r. unfold App.Db.put. cbn [App.meta App.recount App.id].
  destruct (String.eqb k (App.id (App.meta img))) eqn:Ek.
  - intros [= <-]. cbn. apply String.eqb_eq in Ek. now subst.
  - apply Hk.
Qed.

(** X23: the host's [updateAnnotations] keeps its three copies in step.
    With an image selected and loaded, the canvas receives the very array
    it committed, as the canvas's own host model has it; every entry of the
    metadata list with the selected id gets the new count and the status
    that goes with it, and no other entry changes; the stored record, if
    there is one, holds the same list, count and status, and no other
    record changes.  With no image selected or none loaded the update is
    dropped. *)
Theorem update_annotations_keeps_copies_in_step
        (a : AnnArray) (d : App.Data) :
  (forall sid cur,
      App.selectedImageId d = Some sid -> sid <> EmptyString ->
      App.currentImage d = Some cur -> keyed (App.db d) ->
      let d' := App.updateAnnotations a d in
      let n := length (items a) in
      (option_map App.toCanvas (App.currentImage d')
       = Some (Image.set_annotations a (App.toCanvas cur)) /\
       forall p : Canvas.Props,
         Canvas.image p = App.toCanvas cur ->
         Some (Canvas.image (Canvas.applyCallback p (OnUpdateAnnotations a)))
         = option_map App.toCanvas (App.currentImage d')) /\
      (forall k m, nth_error (App.images d) k = Some m ->
                   nth_error (App.images d') k
                   = Some (if String.eqb (App.id m) sid
                           then App.recount n m else m)) /\
      (forall r, App.Db.getImage sid (App.db d) = Some r ->
                 App.Db.getImage sid (App.db d')
                 = Some (App.mkStored (App.recount n (App.meta r)) (items a)))
      /\
      (App.Db.getImage sid (App.db d) = None ->
       App.Db.getImage sid (App.db d') = None) /\
      (forall k, k <> sid ->
                 App.Db.getImage k (App.db d') = App.Db.getImage k (App.db d))
      /\ keyed (App.db d')) /\
  (truthy (App.selectedImageId d) = false \/ App.currentImage d = None ->
   App.updateAnnotations a d = d).
Proof.
  split.
  - intros sid cur Hs Hne Hc Hk. cbn zeta. unfold App.updateAnnotations.
    rewrite Hs, (truthy_nonempty sid Hne), Hc.
    cbn [guard App.currentImage App.images App.db option_map].
    split; [split; [reflexivity |] |].
    { intros p Hp. cbn. now rewrite Hp. }
    split.
    { intros k m Hm. now rewrite nth_error_map, Hm. }
    unfold App.Db.getImage, App.Db.updateImageAnnotations.
    split; [| split; [| split]].
    + intros r Hr. rewrite Hr. unfold App.Db.put. cbn [App.meta App.recount App.id].
      rewrite (Hk _ _ Hr), String.eqb_refl. reflexivity.
    + intros Hn. now rewrite Hn.
    + intros k Hkne. destruct (App.db d sid) as [r|] eqn:Er; [| reflexivity].
      unfold App.Db.put. cbn [App.meta App.recount App.id].
      rewrite (Hk _ _ Er). apply String.eqb_neq in Hkne. now rewrite Hkne.
    + apply (keyed_update sid (items a) (App.db d) Hk).
  - intros [Ht | Hn]; unfold App.updateAnnotations.
    + now rewrite Ht.
    + rewrite Hn. now destruct (guard _ _).
Qed.

Lemma update_annotations_keeps_copies_in_step_witness :
  let m := App.mkMeta "img1"%string "a.png"%string 100 100 App.unlabeled 0 in
  let d := App.mkData [m] (Some (App.mkLoaded m (mkArr 0 [])))
             (Some "img1"%string) None
             (App.Db.put (App.mkStored m []) (fun _ => None)) in
  App.Db.getImage "img1"%string
    (App.db (App.updateAnnotations (mkArr 1 [Sample.box]) d))
  = Some (App.mkStored (App.recount 1 m) [Sample.box]).
Proof.
  intros m d.
  refine (proj1 (proj2 (proj2 (proj1 (update_annotations_keeps_copies_in_step
                                        (mkArr 1 [Sample.box]) d)
                                     "img1"%string
                                     (App.mkLoaded m (mkArr 0 []))
                                     eq_refl _ eq_refl _)))
            (App.mkStored m []) eq_refl).
  - discriminate.
  - intros k img. unfold d, App.Db.put. cbn.
    destruct (String.eqb k "img1") eqn:E; [| discriminate].
    intros [= <-]. cbn. symmetry. now apply String.eqb_eq.
Defined.

(** X24: deleting the selected annotation hands the canvas a newly built
    list without any annotation of that id, with every other annotation
    kept in place and order, clears the selection, and counts what is left
    in the metadata; boxes of positive size stay so, and seen from the
    canvas the deletion is the host replacing the list. *)
Theorem delete_annotation_removes_only_it
        (fresh : nat) (d : App.Data) (sid aid : string)
        (cur : App.LoadedImage) :
  App.selectedImageId d = Some sid -> sid <> EmptyString ->
  App.selectedAnnId d = Some aid -> aid <> EmptyString ->
  App.currentImage d = Some cur ->
  let d' := App.handleDeleteAnnotation fresh d in
  let old := items (App.loadedAnnotations cur) in
  let kept := filter (fun b => negb (String.eqb (BBox.id b) aid)) old in
  App.currentImage d'
  = Some (App.mkLoaded (App.loadedMeta cur) (mkArr fresh kept)) /\
  App.selectedAnnId d' = None /\
  ~ In aid (map BBox.id kept) /\
  (forall b, BBox.id b <> aid -> (In b kept <-> In b old)) /\
  (Forall positive_box old -> editor_event (Canvas.HostUpdate kept)) /\
  (forall m, In m (App.images d') -> App.id m = sid ->
             App.annotationCount m = length kept) /\
  (forall w : Canvas.World,
      Canvas.image (Canvas.props w) = App.toCanvas cur ->
      Canvas.nextRef w = fresh ->
      Some (Canvas.image (Canvas.hostProps w (Canvas.HostUpdate kept)))
      = option_map App.toCanvas (App.currentImage d')).
Proof.
  intros Hs Hsne Ha Hane Hc. cbn zeta. unfold App.handleDeleteAnnotation.
  rewrite Ha, (truthy_nonempty aid Hane), Hc. cbn [guard].
  unfold App.updateAnnotations.
  rewrite Hs, (truthy_nonempty sid Hsne), Hc.
  cbn [guard App.currentImage App.images App.db App.selectedAnnId
       App.selectedImageId items].
  set (kept := filter _ (items (App.loadedAnnotations cur))).
  assert (Hin : forall b, In b kept <->
                          In b (items (App.loadedAnnotations cur)) /\
                          BBox.id b <> aid).
  { intros b. unfold kept. rewrite filter_In, negb_true_iff.
    now rewrite String.eqb_neq. }
  split; [reflexivity |]. split; [reflexivity |].
  split; [| split; [| split; [| split]]].
  - intros Hi. apply in_map_iff in Hi as (b & Eb & Hb). apply Hin in Hb. tauto.
  - intros b Hb. rewrite Hin. tauto.
  - intros Hpos. cbn [editor_event]. apply Forall_forall. intros b Hb.
    apply Hin in Hb as [Hb _]. revert b Hb. now apply Forall_forall.
  - intros m Hm Hid. apply in_map_iff in Hm as (m0 & Em & _).
    destruct (String.eqb (App.id m0) sid) eqn:E.
    + now subst m.
    + subst m. apply String.eqb_neq in E. contradiction.
  - intros w Hw Hf. cbn [Canvas.hostProps option_map].
    unfold App.toCanvas. cbn. rewrite Hw, Hf. reflexivity.
Qed.

Lemma delete_annotation_removes_only_it_witness :
  let m := App.mkMeta "img1"%string "a.png"%string 100 100 App.in_progress 1 in
  let d := App.mkData [m] (Some (App.mkLoaded m (mkArr 0 [Sample.box])))
             (Some "img1"%string) (Some "a"%string) (fun _ => None) in
  App.currentImage (App.handleDeleteAnnotation 1 d)
  = Some (App.mkLoaded m (mkArr 1 [])).
Proof.
  intros m d.
  refine (proj1 (delete_annotation_removes_only_it 1 d "img1"%string
                   "a"%string (App.mkLoaded m (mkArr 0 [Sample.box]))
                   eq_refl _ eq_refl _ eq_refl)); discriminate.
Defined.

(** ** Selecting images *)

Lemma has_In (x : string) (s : JsSet.t) : JsSet.has x s = true <-> In x s.
Proof.
  unfold JsSet.has. rewrite existsb_exists. split.
  - intros (y & Hy & E). apply String.eqb_eq in E. now subst.
  - intros H. exists x. split; [exact H | apply String.eqb_refl].
Qed.

Lemma has_not_In (x : string) (s : JsSet.t) :
  JsSet.has x s = false <-> ~ In x s.
Proof.
  rewrite <- has_In. destruct (JsSet.has x s); split; congruence.
Qed.

Lemma add_In (x y : string) (s : JsSet.t) :
  In x (JsSet.add y s) <-> x = y \/ In x s.
Proof.
  unfold JsSet.add. destruct (JsSet.has y s) eqn:E.
  - apply has_In in E. split; [auto | intros [-> | H]; auto].
  - rewrite in_app_iff. cbn. intuition.
Qed.

Lemma NoDup_snoc {A} (l : list A) (x : A) :
  NoDup l -> ~ In x l -> NoDup (l ++ [x]).
Proof.
  intros H Hn. induction H as [|a l Ha Hl IH]; cbn.
  - repeat constructor. auto.
  - constructor.
    + rewrite in_app_iff. cbn in *. intuition.
    + apply IH. cbn in Hn. tauto.
Qed.

Lemma add_NoDup (y : string) (s : JsSet.t) : NoDup s -> NoDup (JsSet.add y s).
Proof.
  intros H. unfold JsSet.add. destruct (JsSet.has y s) eqn:E; [exact H |].
  apply has_not_In in E. now apply NoDup_snoc.
Qed.

Lemma delete_In (x y : string) (s : JsSet.t) :
  In x (JsSet.delete y s) <-> In x s /\ x <> y.
Proof.
  unfold JsSet.delete. rewrite filter_In, negb_true_iff, String.eqb_neq.
  intuition.
Qed.

Lemma last_In {A} (l : list A) (d : A) : l <> [] -> In (last l d) l.
Proof.
  intros H. destruct (exists_last H) as (l' & a & ->).
  rewrite last_last. apply in_or_app. right. now left.
Qed.

Lemma findIndex_Some {A} (f : A -> bool) (l : list A) (k : nat) :
  findIndex f l = Some k ->
  exists a, nth_error l k = Some a /\ f a = true.
Proof.
  revert k. induction l as [|a l IH]; intros k; [discriminate |].
  cbn [findIndex]. destruct (f a) eqn:E.
  - intros [= <-]. exists a. now split.
  - destruct (findIndex f l) as [i|]; [| discriminate].
    intros [= <-]. apply (IH i eq_refl).
Qed.

Lemma addRange_spec (imgs : list App.ImageMetadata) (n low : nat)
      (s : JsSet.t) :
  (low + n <= length imgs)%nat ->
  exists r,
    fold_left (fun acc i =>
                 match acc, nth_error imgs i with
                 | Some st, Some img => Some (JsSet.add (App.id img) st)
                 | _, _ => None
                 end) (seq low n) (Some s) = Some r /\
    (forall x, In x r <->
               In x s \/
               exists k m, (low <= k < low + n)%nat /\
                           nth_error imgs k = Some m /\ App.id m = x) /\
    (NoDup s -> NoDup r).
Proof.
  revert low s. induction n as [|n IH]; intros low s Hlen.
  - exists s. cbn. split; [reflexivity |]. split; [| auto].
    intros x. split; [auto |]. intros [H | (k & m & Hk & _)]; [exact H | lia].
  - cbn [seq fold_left].
    destruct (nth_error imgs low) as [img|] eqn:E.
    2:{ apply nth_error_None in E. lia. }
    destruct (IH (S low) (JsSet.add (App.id img) s)) as (r & Er & Hr & Hnd);
      [lia |].
    exists r. split; [exact Er |]. split.
    + intros x. rewrite Hr, add_In. split.
      * intros [[-> | H] | (k & m & Hk & Hm & Em)]; auto.
        -- right. exists low, img. repeat split; auto; lia.
        -- right. exists k, m. repeat split; auto; lia.
      * intros [H | (k & m & Hk & Hm & Em)]; auto.
        destruct (Nat.eq_dec k low) as [-> | Hne].
        -- left. left. rewrite E in Hm. injection Hm as <-. auto.
        -- right. exists k, m. repeat split; auto; lia.
    + intros H. apply Hnd. now apply add_NoDup.
Qed.

Lemma handleImageClick_ok (imgs : list App.ImageMetadata) (i : string)
      (e : App.Click) (s : App.Sel.t) :
  i <> EmptyString ->
  Forall (fun m => App.id m <> EmptyString) imgs ->
  sel_ok s ->
  exists s', App.handleImageClick imgs i e s = Some s' /\ sel_ok s'.
Proof.
  intros Hi Himgs (Hnd & Hne & Hact). unfold App.handleImageClick.
  destruct (App.metaKey e || App.ctrlKey e)%bool.
  - destruct (JsSet.has i (App.Sel.selectedImageIds s)) eqn:Eh.
    + eexists. split; [reflexivity |]. unfold sel_ok.
      cbn [App.Sel.selectedImageIds App.Sel.selectedImageId].
      split; [unfold JsSet.delete; now apply NoDup_filter |].
      split.
      { apply Forall_forall. intros x Hx. apply delete_In in Hx as [Hx _].
        revert x Hx. now apply Forall_forall. }
      destruct (JsSet.delete i (App.Sel.selectedImageIds s)) as [|x l] eqn:Ed;
        [now left |].
      right. rewrite <- Ed.
      destruct (optIs (App.Sel.selectedImageId s) i) eqn:Eo.
      * eexists. split; [reflexivity |]. apply last_In. rewrite Ed. discriminate.
      * destruct Hact as [Hempty | (a & Ea & Hin)].
        { apply has_In in Eh. rewrite Hempty in Eh. contradiction. }
        rewrite Ea in *. cbn [optIs] in Eo. apply String.eqb_neq in Eo.
        assert (Hane : a <> EmptyString).
        { rewrite Forall_forall in Hne. now apply Hne. }
        rewrite (truthy_nonempty a Hane). cbn [guard].
        exists a. split; [reflexivity |]. apply delete_In. now split.
    + eexists. split; [reflexivity |]. unfold sel_ok.
      cbn [App.Sel.selectedImageIds App.Sel.selectedImageId].
      split; [now apply add_NoDup |]. split.
      * apply Forall_forall. intros x Hx. apply add_In in Hx as [-> | Hx]; auto.
        revert x Hx. now apply Forall_forall.
      * right. exists i. split; [reflexivity |]. apply add_In. now left.
  - destruct (guard (App.shiftKey e && truthy (App.Sel.selectedImageId s))
                    (App.Sel.selectedImageId s)) as [active|] eqn:Eg.
    + destruct (findIndex (fun img => String.eqb (App.id img) active) imgs)
        as [startIdx|] eqn:Es;
        [destruct (findIndex (fun img => String.eqb (App.id img) i) imgs)
           as [endIdx|] eqn:Ee |].
      * apply findIndex_Some in Es as (ma & Hma & Ema).
        apply findIndex_Some in Ee as (mi & Hmi & Emi).
        assert (Hs : (startIdx < length imgs)%nat)
          by (apply nth_error_Some; congruence).
        assert (He : (endIdx < length imgs)%nat)
          by (apply nth_error_Some; congruence).
        unfold App.addRange.
        destruct (addRange_spec imgs
                    (S (Nat.max startIdx endIdx) - Nat.min startIdx endIdx)
                    (Nat.min startIdx endIdx) []) as (r & -> & Hr & Hndr);
          [lia |].
        eexists. split; [reflexivity |]. unfold sel_ok.
        cbn [App.Sel.selectedImageIds App.Sel.selectedImageId].
        split; [apply Hndr; constructor |]. split.
        -- apply Forall_forall. intros x Hx.
           apply Hr in Hx as [[] | (k & m & _ & Hm & <-)].
           apply nth_error_In in Hm. revert m Hm. now apply Forall_forall.
        -- right. exists i. split; [reflexivity |]. apply Hr. right.
           exists endIdx, mi. apply String.eqb_eq in Emi.
           repeat split; auto; lia.
      * eexists. split; [reflexivity |]. unfold sel_ok.
        cbn [App.Sel.selectedImageIds App.Sel.selectedImageId].
        split; [now apply add_NoDup |]. split.
        -- apply Forall_forall. intros x Hx.
           apply add_In in Hx as [-> | Hx]; auto.
           revert x Hx. now apply Forall_forall.
        -- right. exists i. split; [reflexivity |]. apply add_In. now left.
      * eexists. split; [reflexivity |]. unfold sel_ok.
        cbn [App.Sel.selectedImageIds App.Sel.selectedImageId].
        split; [now apply add_NoDup |]. split.
        -- apply Forall_forall. intros x Hx.
           apply add_In in Hx as [-> | Hx]; auto.
           revert x Hx. now apply Forall_forall.
        -- right. exists i. split; [reflexivity |]. apply add_In. now left.
    + eexists. split; [reflexivity |]. unfold sel_ok. cbn.
      split; [repeat constructor; auto |]. split; [now repeat constructor |].
      right. exists i. auto.
Qed.

(** X25: a click in the image list never fails and keeps the selection
    sound, whatever the modifier keys: when ids are not empty strings, the
    selected set stays free of repetition and, unless it is empty, the
    active image is one of the selected ones; this holds along any sequence
    of clicks. *)
Theorem image_clicks_keep_active_selected
        (imgs : list App.ImageMetadata)
        (clicks : list (string * App.Click)) (s : App.Sel.t) :
  Forall (fun m => App.id m <> EmptyString) imgs ->
  Forall (fun c => fst c <> EmptyString) clicks ->
  sel_ok s ->
  exists s',
    fold_left (fun acc c =>
                 match acc with
                 | Some st => App.handleImageClick imgs (fst c) (snd c) st
                 | None => None
                 end) clicks (Some s) = Some s' /\
    sel_ok s'.
Proof.
  intros Himgs Hclicks. revert s.
  induction Hclicks as [|c clicks Hc _ IH]; intros s Hok.
  - exists s. now split.
  - cbn [fold_left].
    destruct (handleImageClick_ok imgs (fst c) (snd c) s Hc Himgs Hok)
      as (s1 & -> & Hok1).
    apply IH, Hok1.
Qed.

Lemma image_clicks_keep_active_selected_witness :
  let m k := App.mkMeta k k 10 10 App.unlabeled 0 in
  exists s',
    fold_left (fun acc c =>
                 match acc with
                 | Some st =>
                     App.handleImageClick
                       [m "a"%string; m "b"%string; m "c"%string]
                       (fst c) (snd c) st
                 | None => None
                 end)
              [("a"%string, App.mkClick false false false);
               ("c"%string, App.mkClick false false true);
               ("c"%string, App.mkClick false true false)]
              (Some (App.Sel.mk None [])) = Some s' /\
    sel_ok s'.
Proof.
  intros m.
  refine (image_clicks_keep_active_selected
            [m "a"%string; m "b"%string; m "c"%string] _
            (App.Sel.mk None []) _ _ _).
  - repeat constructor; discriminate.
  - repeat constructor; discriminate.
  - split; [constructor |]. split; [constructor | now left].
Defined.

(** X26: a shift-click selects exactly the images between the active
    image and the clicked one, both included, whichever comes first in the
    list, and makes the clicked image the active one; what was selected
    before is dropped. *)
Theorem shift_click_selects_the_range
        (imgs : list App.ImageMetadata) (i active : string)
        (startIdx endIdx : nat) (s : App.Sel.t) :
  App.Sel.selectedImageId s = Some active -> active <> EmptyString ->
  findIndex (fun img => String.eqb (App.id img) active) imgs = Some startIdx ->
  findIndex (fun img => String.eqb (App.id img) i) imgs = Some endIdx ->
  exists range,
    App.handleImageClick imgs i (App.mkClick false false true) s
    = Some (App.Sel.mk (Some i) range) /\
    NoDup range /\
    (forall x, In x range <->
               idsBetween imgs (Nat.min startIdx endIdx)
                          (Nat.max startIdx endIdx) x) /\
    In i range /\ In active range.
Proof.
  intros Ha Hane Es Ee. unfold App.handleImageClick.
  cbn [App.metaKey App.ctrlKey App.shiftKey orb andb].
  rewrite Ha, (truthy_nonempty active Hane). cbn [guard]. rewrite Es, Ee.
  apply findIndex_Some in Es as (ma & Hma & Ema).
  apply findIndex_Some in Ee as (mi & Hmi & Emi).
  apply String.eqb_eq in Ema, Emi.
  assert (Hs : (startIdx < length imgs)%nat)
    by (apply nth_error_Some; congruence).
  assert (He : (endIdx < length imgs)%nat)
    by (apply nth_error_Some; congruence).
  unfold App.addRange.
  destruct (addRange_spec imgs
              (S (Nat.max startIdx endIdx) - Nat.min startIdx endIdx)
              (Nat.min startIdx endIdx) []) as (r & -> & Hr & Hndr); [lia |].
  exists r. split; [reflexivity |]. split; [apply Hndr; constructor |].
  assert (Hiff : forall x, In x r <->
                           idsBetween imgs (Nat.min startIdx endIdx)
                                      (Nat.max startIdx endIdx) x).
  { intros x. rewrite Hr. unfold idsBetween. split.
    - intros [[] | (k & m & Hk & Hm)]. exists k, m. split; [lia | exact Hm].
    - intros (k & m & Hk & Hm). right. exists k, m. split; [lia | exact Hm]. }
  split; [exact Hiff |]. split; apply Hiff.
  - exists endIdx, mi. repeat split; auto; lia.
  - exists startIdx, ma. repeat split; auto; lia.
Qed.

Lemma shift_click_selects_the_range_witness :
  let m k := App.mkMeta k k 10 10 App.unlabeled 0 in
  exists range,
    App.handleImageClick [m "a"%string; m "b"%string; m "c"%string]
      "a"%string (App.mkClick false false true)
      (App.Sel.mk (Some "c"%string) ["c"%string])
    = Some (App.Sel.mk (Some "a"%string) range) /\
    NoDup range /\
    (forall x, In x range <->
               idsBetween [m "a"%string; m "b"%string; m "c"%string]
                          (Nat.min 2 0) (Nat.max 2 0) x) /\
    In "a"%string range /\ In "c"%string range.
Proof.
  intros m.
  refine (shift_click_selects_the_range
            [m "a"%string; m "b"%string; m "c"%string] "a"%string "c"%string
            2 0 (App.Sel.mk (Some "c"%string) ["c"%string])
            eq_refl _ eq_refl eq_refl).
  discriminate.
Defined.

(** ** Deleting images *)

Lemma deleteImages_get (ids : list string) (s : App.Db.Store) (i : string) :
  (In i ids -> App.Db.getImage i (App.Db.deleteImages ids s) = None) /\
  (~ In i ids ->
   App.Db.getImage i (App.Db.deleteImages ids s) = App.Db.getImage i s).
Proof.
  unfold App.Db.deleteImages, App.Db.getImage. revert s.
  induction ids as [|k ids IH]; intros s; [cbn; tauto |].
  cbn [fold_left]. destruct (IH (App.Db.remove k s)) as [IH1 IH2]. split.
  - intros Hin. destruct (in_dec string_dec i ids) as [Hi | Hi]; [auto |].
    destruct Hin as [-> | Hin]; [| contradiction].
    rewrite (IH2 Hi). unfold App.Db.remove. now rewrite String.eqb_refl.
  - intros Hn. cbn in Hn. rewrite IH2 by tauto. unfold App.Db.remove.
    assert (E : String.eqb i k = false) by (apply String.eqb_neq; intuition).
    now rewrite E.
Qed.

(** X27: after the selected images are deleted, none of them is left in
    the list or in the store, every other image and record is untouched,
    and the selection is sound again: the first remaining image alone, or
    nothing when no image remains.  With nothing selected, or the
    confirmation declined, nothing changes. *)
Theorem delete_selected_images_leaves_none
        (confirm : bool) (imgs : list App.ImageMetadata) (s : App.Sel.t)
        (store : App.Db.Store) :
  let r := App.handleDeleteSelectedImages confirm imgs s store in
  let ids := App.Sel.selectedImageIds s in
  (ids = [] \/ confirm = false -> r = (imgs, s, store)) /\
  (ids <> [] -> confirm = true ->
   (forall m, In m (fst (fst r)) <-> In m imgs /\ ~ In (App.id m) ids) /\
   (forall i, In i ids -> App.Db.getImage i (snd r) = None) /\
   (forall i, ~ In i ids ->
              App.Db.getImage i (snd r) = App.Db.getImage i store) /\
   snd (fst r)
   = match fst (fst r) with
     | first :: _ => App.Sel.mk (Some (App.id first)) [App.id first]
     | [] => App.Sel.mk None []
     end /\
   (Forall (fun m => App.id m <> EmptyString) imgs -> sel_ok (snd (fst r))) /\
   (forall a, App.Sel.selectedImageId (snd (fst r)) = Some a ->
              In a (map App.id (fst (fst r))) /\ ~ In a ids)).
Proof.
  cbn zeta. unfold App.handleDeleteSelectedImages. split.
  - intros [E | E].
    + now rewrite E.
    + rewrite E. now destruct (App.Sel.selectedImageIds s).
  - intros Hne ->. destruct (App.Sel.selectedImageIds s) as [|x l] eqn:E;
      [congruence |]. clear Hne. cbn [negb fst snd].
    set (ids := x :: l) in *.
    set (newImages := filter _ imgs).
    assert (Hin : forall m, In m newImages <->
                            In m imgs /\ ~ In (App.id m) ids).
    { intros m. unfold newImages.
      rewrite filter_In, negb_true_iff, has_not_In. tauto. }
    split; [exact Hin |].
    split; [intros i Hi; now apply deleteImages_get |].
    split; [intros i Hi; now apply deleteImages_get |].
    split; [reflexivity |]. split.
    + intros Hall. destruct newImages as [|first rest] eqn:En.
      * split; [constructor |]. split; [constructor | now left].
      * assert (Hf : In first imgs) by (apply Hin; now left).
        rewrite Forall_forall in Hall. specialize (Hall _ Hf).
        split; [repeat constructor; auto |].
        split; [repeat constructor; auto |].
        right. exists (App.id first). cbn. auto.
    + intros a. destruct newImages as [|first rest] eqn:En; [discriminate |].
      cbn [App.Sel.selectedImageId]. intros [= <-].
      split; [cbn; now left |]. apply Hin. now left.
Qed.

Lemma delete_selected_images_leaves_none_witness :
  let m k := App.mkMeta k k 10 10 App.unlabeled 0 in
  let r := App.handleDeleteSelectedImages true
             [m "a"%string; m "b"%string]
             (App.Sel.mk (Some "a"%string) ["a"%string])
             (App.Db.put (App.mkStored (m "a"%string) []) (fun _ => None)) in
  App.Db.getImage "a"%string (snd r) = None.
Proof.
  intros m r.
  refine (proj1 (proj2 (proj2 (delete_selected_images_leaves_none true
                                 [m "a"%string; m "b"%string]
                                 (App.Sel.mk (Some "a"%string) ["a"%string])
                                 (App.Db.put
                                    (App.mkStored (m "a"%string) [])
                                    (fun _ => None))) _ eq_refl))
            "a"%string _).
  - discriminate.
  - now left.
Defined.

(** ** What a gesture leaves alone *)

Lemma replaceGeometry_other (i : option string) (n : Yolo) (l : list BBox.t)
      (k : nat) (b : BBox.t) :
  nth_error l k = Some b -> idIs i b = false ->
  nth_error (replaceGeometry i n l) k = Some b.
Proof.
  intros Hk Hi. unfold replaceGeometry. rewrite nth_error_map, Hk. cbn.
  now rewrite Hi.
Qed.

Lemma handleMouseMove_target (p : Canvas.Props) (c : option Point.t)
      (fresh : nat) (e : MouseEvent) (s : Canvas.State) (a : AnnArray) :
  In (OnUpdateAnnotations a) (snd (Canvas.handleMouseMove p c fresh e s)) ->
  Canvas.mode p = SELECT /\
  exists i n,
    items a = replaceGeometry i n (items (Canvas.anns p)) /\
    (i = Canvas.selectedAnnotationId p \/
     i = UI.draggingAnnotationId (Canvas.ui s)).
Proof.
  unfold Canvas.handleMouseMove. cbn zeta.
  break_match; invert_guards; cbn [snd In]; intros Hin;
    repeat (destruct Hin as [Hin | Hin]; try discriminate Hin);
    try contradiction;
    injection Hin as <-; cbn [items]; (split; [assumption |]); eauto.
Qed.

Lemma move_keeps_others (w : Canvas.World) (e : MouseEvent) :
  let w' := Canvas.react w (Canvas.MouseMove e) in
  Canvas.mode (Canvas.props w') = Canvas.mode (Canvas.props w) /\
  Canvas.selectedAnnotationId (Canvas.props w')
  = Canvas.selectedAnnotationId (Canvas.props w) /\
  UI.draggingAnnotationId (Canvas.ui (Canvas.state w'))
  = UI.draggingAnnotationId (Canvas.ui (Canvas.state w)) /\
  (Canvas.mode (Canvas.props w) <> SELECT ->
   Canvas.current w' = Canvas.current w) /\
  (forall k b,
      nth_error (items (Canvas.current w)) k = Some b ->
      idIs (Canvas.selectedAnnotationId (Canvas.props w)) b = false ->
      idIs (UI.draggingAnnotationId (Canvas.ui (Canvas.state w))) b = false ->
      nth_error (items (Canvas.current w')) k = Some b).
Proof.
  cbn zeta. unfold Canvas.react. cbn [Canvas.dispatch Canvas.hostProps].
  pose proof (handleMouseMove_shape (Canvas.props w) (Canvas.container w)
                (Canvas.nextRef w) e (Canvas.state w)) as (_ & _ & Hd & Hcb).
  pose proof (handleMouseMove_target (Canvas.props w) (Canvas.container w)
                (Canvas.nextRef w) e (Canvas.state w)) as Ht.
  cbn zeta in Hd, Hcb.
  destruct (Canvas.handleMouseMove (Canvas.props w) (Canvas.container w)
              (Canvas.nextRef w) e (Canvas.state w)) as [s' cbs].
  cbn [fst snd] in *.
  assert (Hui : Canvas.ui (Canvas.state
                             (Canvas.render w
                                (fold_left Canvas.applyCallback cbs
                                   (Canvas.props w)) s'))
                = Canvas.ui s') by reflexivity.
  rewrite Hui, Hd. unfold Canvas.current.
  change (Canvas.props (Canvas.render w
                          (fold_left Canvas.applyCallback cbs (Canvas.props w))
                          s'))
    with (fold_left Canvas.applyCallback cbs (Canvas.props w)).
  destruct Hcb as [-> | [(x & y & ->) | (l & -> & Hm & _)]];
    cbn [fold_left Canvas.applyCallback Canvas.setPan Canvas.setImage
         Canvas.mode Canvas.selectedAnnotationId Canvas.anns Canvas.image
         Image.set_annotations Image.annotations items];
    repeat split; auto; try contradiction.
  intros k b Hk Hs Hdr.
  destruct (Ht (mkArr (Canvas.nextRef w) l)) as (_ & i & n & El & Hi);
    [now left |].
  cbn [items] in El. rewrite El.
  apply replaceGeometry_other; [exact Hk |].
  destruct Hi as [-> | ->]; assumption.
Qed.

Lemma down_targets (w : Canvas.World) (d : Down) :
  UI.draggingAnnotationId (Canvas.ui (Canvas.state w)) = None ->
  let w' := Canvas.react w (downEvent d) in
  Canvas.mode (Canvas.props w') = Canvas.mode (Canvas.props w) /\
  Canvas.current w' = Canvas.current w /\
  (Canvas.mode (Canvas.props w) = SELECT ->
   forall b,
     idIs (Canvas.selectedAnnotationId (Canvas.props w')) b = true \/
     idIs (UI.draggingAnnotationId (Canvas.ui (Canvas.state w'))) b = true ->
     touches d (Canvas.selectedAnnotationId (Canvas.props w)) b = true).
Proof.
  intros Hdr. cbn zeta. unfold Canvas.react.
  rewrite hostProps_pointer by now destruct d.
  unfold Canvas.current.
  change (Canvas.props (Canvas.render w ?p ?s)) with p.
  change (Canvas.ui (Canvas.state (Canvas.render w ?p ?s)))
    with (Canvas.ui s).
  destruct d as [e | e i | e hd i]; cbn [downEvent Canvas.dispatch touches];
    destruct (Canvas.mode (Canvas.props w)) eqn:Em; cbn [ToolMode_eqb];
    unfold Canvas.handleMouseDown, Canvas.handleAnnotationMouseDown,
      Canvas.handleResizeMouseDown;
    rewrite ?Em; cbn [ToolMode_eqb negb];
    try destruct (find _ _);
    cbn [fst snd fold_left Canvas.applyCallback Canvas.setSelected
         Canvas.mode Canvas.anns Canvas.image Canvas.selectedAnnotationId
         Canvas.ui UI.draggingAnnotationId UI.setDragStart
         UI.setInitialMoveRect UI.setDraggingAnnotationId UI.setIsDragging
         UI.setActiveCreation UI.setResizeHandle idIs];
    rewrite ?Hdr; cbn [idIs];
    (split; [first [reflexivity | exact Em] |]); (split; [reflexivity |]);
    intros Hsel; try discriminate Hsel;
    intros b [H | H]; try discriminate H; exact H.
Qed.

(** X28: a gesture changes at most the annotation it was started on.
    After any session, a press (on the canvas, on an annotation or on a
    handle of the selected one) followed by any pointer-moves leaves every
    other annotation of the list exactly as it was, at the same position of
    the list: with the same id, label, centre and size. *)
Theorem gesture_changes_only_its_target
        (p : Canvas.Props) (c : option Point.t) (acts : list Action)
        (d : Down) (moves : list MouseEvent) (k : nat) (b : BBox.t) :
  let w := session (Canvas.mount p c) acts in
  let wn := Canvas.run w (downEvent d :: map Canvas.MouseMove moves) in
  nth_error (items (Canvas.current w)) k = Some b ->
  touches d (Canvas.selectedAnnotationId (Canvas.props w)) b = false ->
  nth_error (items (Canvas.current wn)) k = Some b.
Proof.
  intros w. cbn zeta. intros Hk Ht.
  pose proof (session_ui_initial p c acts) as Hui. fold w in Hui.
  assert (Hdr : UI.draggingAnnotationId (Canvas.ui (Canvas.state w)) = None)
    by now rewrite Hui.
  assert (H : let wn := Canvas.run w (downEvent d
                                      :: map Canvas.MouseMove moves) in
              Canvas.mode (Canvas.props wn) = Canvas.mode (Canvas.props w) /\
              nth_error (items (Canvas.current wn)) k = Some b /\
              (Canvas.mode (Canvas.props w) = SELECT ->
               forall b',
                 idIs (Canvas.selectedAnnotationId (Canvas.props wn)) b'
                 = true \/
                 idIs (UI.draggingAnnotationId (Canvas.ui (Canvas.state wn)))
                      b' = true ->
                 touches d (Canvas.selectedAnnotationId (Canvas.props w)) b'
                 = true)).
  { induction moves as [|m moves IH] using rev_ind.
    - cbn [map Canvas.run fold_left].
      destruct (down_targets w d Hdr) as (Em & Ec & Hsel).
      rewrite Ec. auto.
    - rewrite map_app. cbn [map].
      change (downEvent d :: map Canvas.MouseMove moves ++ [Canvas.MouseMove m])
        with ((downEvent d :: map Canvas.MouseMove moves)
              ++ [Canvas.MouseMove m]).
      rewrite run_snoc. cbn zeta in IH. destruct IH as (Em & Hb & Hsel).
      set (w1 := Canvas.run w _) in *.
      destruct (move_keeps_others w1 m) as (Em' & Es' & Ed' & Hns & Hoth).
      cbn zeta. rewrite Em', Es', Ed'. split; [exact Em |].
      split; [| exact Hsel].
      destruct (Canvas.mode (Canvas.props w)) eqn:Emode.
      + apply Hoth; [exact Hb | |].
        * destruct (idIs (Canvas.selectedAnnotationId (Canvas.props w1)) b)
            eqn:E; [| reflexivity].
          rewrite (Hsel eq_refl b (or_introl E)) in Ht. discriminate.
        * destruct (idIs (UI.draggingAnnotationId
                            (Canvas.ui (Canvas.state w1))) b)
            eqn:E; [| reflexivity].
          rewrite (Hsel eq_refl b (or_intror E)) in Ht. discriminate.
      + rewrite Hns; [exact Hb | rewrite Em; discriminate].
      + rewrite Hns; [exact Hb | rewrite Em; discriminate].
      + rewrite Hns; [exact Hb | rewrite Em; discriminate]. }
  cbn zeta in H. tauto.
Qed.

(** Two boxes, fifty moves of the first: the second is where it was. *)
Lemma gesture_changes_only_its_target_witness :
  let other := BBox.mk "b"%string "car"%string (1 # 4) (1 # 4) (1 # 8) (1 # 8)
  in
  let p := Canvas.setImage
             (Image.mk "img1"%string 100 100 (mkArr 0 [Sample.box; other]))
             (Sample.props SELECT 10) in
  nth_error
    (items (Canvas.current
              (Canvas.run (session (Canvas.mount p Sample.origin) [])
                 (downEvent Scenario.grabDown
                  :: map Canvas.MouseMove Scenario.fiftyMoves))))
    1
  = Some other.
Proof.
  intros other p.
  exact (gesture_changes_only_its_target p Sample.origin [] Scenario.grabDown
           Scenario.fiftyMoves 1 other eq_refl eq_refl).
Defined.
